(** * A shallow embedding of the blender2vox VOX codec

    The development follows the Python sources of the package:
    - [vox_writer.py]   : [VoxChunk], [VoxModel], [VoxPalette], [VoxWriter];
    - [vox_reader.py]   : [_parse_dict], [read_vox_scene], [read_vox_file],
                          [get_default_palette], [get_voxel_color];
    - [vox_exporter.py] : [color_distance], [quantize_colors];
    - [vox_importer.py] : [apply_vox_rotation].

    Python integers are modelled by [Z], byte strings by lists of [byte],
    text strings by lists of code points, exceptions by the [Raise] case of
    [result], and mutable objects by explicit state passing. *)

From Stdlib Require Import String Ascii ZArith List Finite Lia Bool.
From Stdlib Require Import Floats.SpecFloat.
From coqutil Require Import Byte Word.LittleEndianList.
Import ListNotations.
Local Open Scope Z_scope.

(** ** Python values and exceptions *)

Inductive exn : Type :=
| ValueError
| StructError
| IndexError
| UnicodeEncodeError
| OverflowError.

Inductive result (A : Type) : Type :=
| OK (a : A)
| Raise (e : exn).
Arguments OK {A} a.
Arguments Raise {A} e.

Definition bind {A B : Type} (r : result A) (k : A -> result B) : result B :=
  match r with
  | OK a => k a
  | Raise e => Raise e
  end.

Notation "x <- c ;; k" := (bind c (fun x => k))
  (at level 61, c at next level, right associativity).
Notation "' p <- c ;; k" := (bind c (fun x => let p := x in k))
  (at level 61, p pattern, c at next level, right associativity).

Definition is_ok {A : Type} (r : result A) : bool :=
  match r with OK _ => true | Raise _ => false end.

Definition bytes : Type := list byte.

(** [len(l)] as a Python integer. *)
Definition len {A : Type} (l : list A) : Z := Z.of_nat (length l).

(** [l[lo:hi]] for non-negative bounds: the slice is clamped to the list and
    is empty when [hi <= lo].  Every slice of the sources has bounds that are
    sums of non-negative numbers. *)
Definition slice {A : Type} (l : list A) (lo hi : Z) : list A :=
  firstn (Z.to_nat (hi - lo)) (skipn (Z.to_nat lo) l).

(** [l[i]] for a non-negative index: [IndexError] beyond the end. *)
Definition getitem {A : Type} (l : list A) (i : Z) : result A :=
  match nth_error l (Z.to_nat i) with
  | Some a => OK a
  | None => Raise IndexError
  end.

(** [l[i] = v] for a non-negative index: [IndexError] beyond the end. *)
Fixpoint list_set {A : Type} (l : list A) (i : nat) (v : A) : list A :=
  match l, i with
  | [], _ => []
  | _ :: t, O => v :: t
  | h :: t, S i' => h :: list_set t i' v
  end.

Definition setitem {A : Type} (l : list A) (i : Z) (v : A) : result (list A) :=
  if i <? len l then OK (list_set l (Z.to_nat i) v) else Raise IndexError.

(** A text string is its list of code points. *)
Definition str : Type := list Z.

Definition lit (s : string) : str :=
  map (fun a => Z.of_N (N_of_ascii a)) (list_ascii_of_string s).

Definition str_eqb (a b : str) : bool :=
  if list_eq_dec Z.eq_dec a b then true else false.

(** A [dict] in insertion order: assigning to a key that is present keeps
    its place and replaces its value. *)
Section Dict.
Context {K V : Type} (eqb : K -> K -> bool).

Fixpoint dict_set (d : list (K * V)) (k : K) (v : V) : list (K * V) :=
  match d with
  | [] => [(k, v)]
  | (k', v') :: t =>
      if eqb k' k then (k', v) :: t else (k', v') :: dict_set t k v
  end.

Fixpoint dict_get (d : list (K * V)) (k : K) : option V :=
  match d with
  | [] => None
  | (k', v') :: t => if eqb k' k then Some v' else dict_get t k
  end.
End Dict.

(** [s.encode('ascii')] *)
Fixpoint encode_ascii (s : str) : result bytes :=
  match s with
  | [] => OK []
  | c :: t =>
      if (0 <=? c) && (c <? 128)
      then (r <- encode_ascii t;; OK (byte.of_Z c :: r))
      else Raise UnicodeEncodeError
  end.

(** [b.decode('ascii', errors='replace')]: every byte above 127 becomes
    U+FFFD. *)
Definition decode_ascii_replace (b : bytes) : str :=
  map (fun x => if byte.unsigned x <? 128 then byte.unsigned x else 0xFFFD) b.

(** ** The [struct] formats the codec uses *)

(** Colours [(r, g, b, a)] and voxels [(x, y, z, color_index)]. *)
Abbreviation RGBA := (Z * Z * Z * Z)%type (only parsing).
Abbreviation Voxel := (Z * Z * Z * Z)%type (only parsing).

(** [struct.pack('<I', v)] *)
Definition pack_I (v : Z) : result bytes :=
  if (0 <=? v) && (v <? 2 ^ 32) then OK (le_split 4 v) else Raise StructError.

(** [struct.pack('<III', a, b, c)] *)
Definition pack_III (a b c : Z) : result bytes :=
  x <- pack_I a;; y <- pack_I b;; z <- pack_I c;; OK (x ++ y ++ z).

Definition pack_B (v : Z) : result byte :=
  if (0 <=? v) && (v <? 256) then OK (byte.of_Z v) else Raise StructError.

(** [struct.pack('<BBBB', a, b, c, d)] *)
Definition pack_BBBB (a b c d : Z) : result bytes :=
  x <- pack_B a;; y <- pack_B b;; z <- pack_B c;; w <- pack_B d;;
  OK [x; y; z; w].

(** [struct.unpack('<I', b)[0]]: the buffer must hold exactly 4 bytes. *)
Definition unpack_I (b : bytes) : result Z :=
  if (length b =? 4)%nat then OK (le_combine b) else Raise StructError.

(** [struct.unpack('<III', b)] *)
Definition unpack_III (b : bytes) : result (Z * Z * Z) :=
  if (length b =? 12)%nat
  then OK (le_combine (slice b 0 4), le_combine (slice b 4 8),
           le_combine (slice b 8 12))
  else Raise StructError.

(** [struct.unpack('<BBBB', b)] *)
Definition unpack_BBBB (b : bytes) : result (Z * Z * Z * Z) :=
  match b with
  | [x; y; z; w] =>
      OK (byte.unsigned x, byte.unsigned y, byte.unsigned z, byte.unsigned w)
  | _ => Raise StructError
  end.

(** ** vox_writer.py *)

Module Writer.

Record VoxChunk : Type := mkChunk {
  chunk_id : str;
  content : bytes;
  children : bytes
}.

(** [VoxChunk.to_bytes] *)
Definition to_bytes (self : VoxChunk) : result bytes :=
  result0 <- encode_ascii (chunk_id self);;
  n <- pack_I (len (content self));;
  m <- pack_I (len (children self));;
  OK (result0 ++ n ++ m ++ content self ++ children self).

Record VoxModel : Type := mkModel {
  size_x : Z;
  size_y : Z;
  size_z : Z;
  voxels : list Voxel
}.

(** [VoxModel.__init__] *)
Definition new_model (sx sy sz : Z) : VoxModel := mkModel sx sy sz [].

(** [VoxModel.add_voxel]: the model after the call, and the outcome. *)
Definition add_voxel (self : VoxModel) (x y z color_index : Z)
  : VoxModel * result unit :=
  if negb ((0 <=? x) && (x <? 256) && ((0 <=? y) && (y <? 256))
           && ((0 <=? z) && (z <? 256)))
  then (self, Raise ValueError)
  else if negb ((1 <=? color_index) && (color_index <=? 255))
  then (self, Raise ValueError)
  else (mkModel (size_x self) (size_y self) (size_z self)
                (voxels self ++ [(x, y, z, color_index)]), OK tt).

(** [VoxModel.get_size_chunk] *)
Definition get_size_chunk (self : VoxModel) : result VoxChunk :=
  c <- pack_III (size_x self) (size_y self) (size_z self);;
  OK (mkChunk (lit "SIZE") c []).

(** The loop of [get_xyzi_chunk], appending four bytes per voxel. *)
Fixpoint xyzi_loop (content0 : bytes) (vs : list Voxel) : result bytes :=
  match vs with
  | [] => OK content0
  | (x, y, z, color_index) :: vs' =>
      b <- pack_BBBB x y z color_index;;
      xyzi_loop (content0 ++ b) vs'
  end.

(** [VoxModel.get_xyzi_chunk] *)
Definition get_xyzi_chunk (self : VoxModel) : result VoxChunk :=
  c <- pack_I (len (voxels self));;
  c' <- xyzi_loop c (voxels self);;
  OK (mkChunk (lit "XYZI") c' []).

Record VoxPalette : Type := mkPalette { colors : list RGBA }.

Definition default : list Z := [
  0x00000000; 0xffffffff; 0xffccffff; 0xff99ffff; 0xff66ffff; 0xff33ffff; 0xff00ffff; 0xffffccff;
  0xffccccff; 0xff99ccff; 0xff66ccff; 0xff33ccff; 0xff00ccff; 0xffff99ff; 0xffcc99ff; 0xff9999ff;
  0xff6699ff; 0xff3399ff; 0xff0099ff; 0xffff66ff; 0xffcc66ff; 0xff9966ff; 0xff6666ff; 0xff3366ff;
  0xff0066ff; 0xffff33ff; 0xffcc33ff; 0xff9933ff; 0xff6633ff; 0xff3333ff; 0xff0033ff; 0xffff00ff;
  0xffcc00ff; 0xff9900ff; 0xff6600ff; 0xff3300ff; 0xff0000ff; 0xffffffcc; 0xffccffcc; 0xff99ffcc;
  0xff66ffcc; 0xff33ffcc; 0xff00ffcc; 0xffffcccc; 0xffcccccc; 0xff99cccc; 0xff66cccc; 0xff33cccc;
  0xff00cccc; 0xffff99cc; 0xffcc99cc; 0xff9999cc; 0xff6699cc; 0xff3399cc; 0xff0099cc; 0xffff66cc;
  0xffcc66cc; 0xff9966cc; 0xff6666cc; 0xff3366cc; 0xff0066cc; 0xffff33cc; 0xffcc33cc; 0xff9933cc;
  0xff6633cc; 0xff3333cc; 0xff0033cc; 0xffff00cc; 0xffcc00cc; 0xff9900cc; 0xff6600cc; 0xff3300cc;
  0xff0000cc; 0xffffff99; 0xffccff99; 0xff99ff99; 0xff66ff99; 0xff33ff99; 0xff00ff99; 0xffffcc99;
  0xffcccc99; 0xff99cc99; 0xff66cc99; 0xff33cc99; 0xff00cc99; 0xffff9999; 0xffcc9999; 0xff999999;
  0xff669999; 0xff339999; 0xff009999; 0xffff6699; 0xffcc6699; 0xff996699; 0xff666699; 0xff336699;
  0xff006699; 0xffff3399; 0xffcc3399; 0xff993399; 0xff663399; 0xff333399; 0xff003399; 0xffff0099;
  0xffcc0099; 0xff990099; 0xff660099; 0xff330099; 0xff000099; 0xffffff66; 0xffccff66; 0xff99ff66;
  0xff66ff66; 0xff33ff66; 0xff00ff66; 0xffffcc66; 0xffcccc66; 0xff99cc66; 0xff66cc66; 0xff33cc66;
  0xff00cc66; 0xffff9966; 0xffcc9966; 0xff999966; 0xff669966; 0xff339966; 0xff009966; 0xffff6666;
  0xffcc6666; 0xff996666; 0xff666666; 0xff336666; 0xff006666; 0xffff3366; 0xffcc3366; 0xff993366;
  0xff663366; 0xff333366; 0xff003366; 0xffff0066; 0xffcc0066; 0xff990066; 0xff660066; 0xff330066;
  0xff000066; 0xffffff33; 0xffccff33; 0xff99ff33; 0xff66ff33; 0xff33ff33; 0xff00ff33; 0xffffcc33;
  0xffcccc33; 0xff99cc33; 0xff66cc33; 0xff33cc33; 0xff00cc33; 0xffff9933; 0xffcc9933; 0xff999933;
  0xff669933; 0xff339933; 0xff009933; 0xffff6633; 0xffcc6633; 0xff996633; 0xff666633; 0xff336633;
  0xff006633; 0xffff3333; 0xffcc3333; 0xff993333; 0xff663333; 0xff333333; 0xff003333; 0xffff0033;
  0xffcc0033; 0xff990033; 0xff660033; 0xff330033; 0xff000033; 0xffffff00; 0xffccff00; 0xff99ff00;
  0xff66ff00; 0xff33ff00; 0xff00ff00; 0xffffcc00; 0xffcccc00; 0xff99cc00; 0xff66cc00; 0xff33cc00;
  0xff00cc00; 0xffff9900; 0xffcc9900; 0xff999900; 0xff669900; 0xff339900; 0xff009900; 0xffff6600;
  0xffcc6600; 0xff996600; 0xff666600; 0xff336600; 0xff006600; 0xffff3300; 0xffcc3300; 0xff993300;
  0xff663300; 0xff333300; 0xff003300; 0xffff0000; 0xffcc0000; 0xff990000; 0xff660000; 0xff330000;
  0xff0000ee; 0xff0000dd; 0xff0000bb; 0xff0000aa; 0xff000088; 0xff000077; 0xff000055; 0xff000044;
  0xff000022; 0xff000011; 0xff00ee00; 0xff00dd00; 0xff00bb00; 0xff00aa00; 0xff008800; 0xff007700;
  0xff005500; 0xff004400; 0xff002200; 0xff001100; 0xffee0000; 0xffdd0000; 0xffbb0000; 0xffaa0000;
  0xff880000; 0xff770000; 0xff550000; 0xff440000; 0xff220000; 0xff110000; 0xffeeeeee; 0xffdddddd;
  0xffbbbbbb; 0xffaaaaaa; 0xff888888; 0xff777777; 0xff555555; 0xff444444; 0xff222222; 0xff111111
].

(** One entry of the table, stored as AABBGGRR. *)
Definition unpack_color (val : Z) : RGBA :=
  let a := Z.land (Z.shiftr val 24) 0xFF in
  let b := Z.land (Z.shiftr val 16) 0xFF in
  let g := Z.land (Z.shiftr val 8) 0xFF in
  let r := Z.land val 0xFF in
  (r, g, b, a).

(** [VoxPalette._get_default_palette] *)
Definition _get_default_palette : list RGBA := map unpack_color default.

(** [VoxPalette.__init__] *)
Definition new_palette : VoxPalette := mkPalette _get_default_palette.

(** [VoxPalette.set_color]: the palette after the call, and the outcome. *)
Definition set_color (self : VoxPalette) (index r g b a : Z)
  : VoxPalette * result unit :=
  if negb ((1 <=? index) && (index <=? 255))
  then (self, Raise ValueError)
  else match setitem (colors self) index (r, g, b, a) with
       | OK cs => (mkPalette cs, OK tt)
       | Raise e => (self, Raise e)
       end.

(** The loop of [get_rgba_chunk] over the file positions. *)
Fixpoint rgba_loop (self : VoxPalette) (content0 : bytes) (positions : list Z)
  : result bytes :=
  match positions with
  | [] => OK content0
  | i :: positions' =>
      let color_idx := i + 1 in
      '(r, g, b, a) <-
        (if color_idx <? len (colors self)
         then getitem (colors self) color_idx
         else OK (0, 0, 0, 255));;
      p <- pack_BBBB r g b a;;
      rgba_loop self (content0 ++ p) positions'
  end.

(** [range(n)] *)
Definition range (n : nat) : list Z := map Z.of_nat (seq 0 n).

(** [VoxPalette.get_rgba_chunk] *)
Definition get_rgba_chunk (self : VoxPalette) : result VoxChunk :=
  c <- rgba_loop self [] (range 256);;
  OK (mkChunk (lit "RGBA") c []).

Record VoxWriter : Type := mkWriter {
  models : list VoxModel;
  palette : VoxPalette
}.

Definition VOX_VERSION : Z := 150.

(** [VoxWriter.__init__] *)
Definition new_writer : VoxWriter := mkWriter [] new_palette.

(** [VoxWriter.add_model] *)
Definition add_model (self : VoxWriter) (model : VoxModel) : VoxWriter :=
  mkWriter (models self ++ [model]) (palette self).

(** The loop of [write] over the models. *)
Fixpoint models_loop (children_data : bytes) (ms : list VoxModel)
  : result bytes :=
  match ms with
  | [] => OK children_data
  | model :: ms' =>
      s <- get_size_chunk model;;
      sb <- to_bytes s;;
      x <- get_xyzi_chunk model;;
      xb <- to_bytes x;;
      models_loop ((children_data ++ sb) ++ xb) ms'
  end.

(** The bytes of the MAIN chunk that [write] builds after the header. *)
Definition main_chunk_bytes (self : VoxWriter) : result bytes :=
  children_data <-
    (if 1 <? len (models self)
     then (pack_content <- pack_I (len (models self));;
           pb <- to_bytes (mkChunk (lit "PACK") pack_content []);;
           OK ([] ++ pb))
     else OK []);;
  children_data <- models_loop children_data (models self);;
  r <- get_rgba_chunk (palette self);;
  rb <- to_bytes r;;
  to_bytes (mkChunk (lit "MAIN") [] (children_data ++ rb)).

Definition magic : bytes := list_byte_of_string "VOX ".

(** [VoxWriter.write]: the contents of the file after the call, and the
    outcome.  The header is written before the chunks are built, so a
    failing call leaves the 8 header bytes in the file. *)
Definition write (self : VoxWriter) : bytes * result unit :=
  match pack_I VOX_VERSION with
  | Raise e => (magic, Raise e)
  | OK v =>
      match main_chunk_bytes self with
      | Raise e => (magic ++ v, Raise e)
      | OK m => ((magic ++ v) ++ m, OK tt)
      end
  end.

End Writer.


(** ** vox_reader.py *)

Module Reader.

Record VoxModel : Type := mkModel {
  size_x : Z;
  size_y : Z;
  size_z : Z;
  voxels : list Voxel;
  translation : Z * Z * Z;
  rotation : Z;
  name : str
}.

(** The legacy single-model container. *)
Record VoxelData : Type := mkData {
  data_size_x : Z;
  data_size_y : Z;
  data_size_z : Z;
  data_voxels : list Voxel;
  data_palette : list RGBA
}.

(** [(model_id, translation, rotation, name)] *)
Definition Instance_ : Type := (Z * (Z * Z * Z) * Z * str)%type.

Record VoxScene : Type := mkScene {
  models : list VoxModel;
  palette : list RGBA;
  instances : list Instance_
}.

(** The loop of [_parse_dict] over [range(num_attrs)]. *)
Fixpoint parse_dict_loop (n : nat) (content : bytes) (pos : Z)
  (attrs : list (str * str)) : result (list (str * str) * Z) :=
  match n with
  | O => OK (attrs, pos)
  | S n' =>
      key_len <- unpack_I (slice content pos (pos + 4));;
      let pos := pos + 4 in
      let key := decode_ascii_replace (slice content pos (pos + key_len)) in
      let pos := pos + key_len in
      val_len <- unpack_I (slice content pos (pos + 4));;
      let pos := pos + 4 in
      let val := decode_ascii_replace (slice content pos (pos + val_len)) in
      let pos := pos + val_len in
      parse_dict_loop n' content pos (dict_set str_eqb attrs key val)
  end.

(** [_parse_dict] *)
Definition _parse_dict (content : bytes) (start_pos : Z)
  : result (list (str * str) * Z) :=
  let pos := start_pos in
  num_attrs <- unpack_I (slice content pos (pos + 4));;
  let pos := pos + 4 in
  parse_dict_loop (Z.to_nat num_attrs) content pos [].

(** One entry of the chunk list: [{'id': ..., 'content': ...}]. *)
Record chunk : Type := mkChunk { id : str; content : bytes }.

(** The [while pos < len(data)] loop of [read_vox_scene].  Every turn moves
    [pos] forward by at least 12, so the loop ends within [len(data)] turns;
    [None] is the model running out of [fuel] (see
    [parse_loop_terminates]). *)
Fixpoint parse_loop (fuel : nat) (data : bytes) (pos : Z)
  : option (result (list chunk)) :=
  match fuel with
  | O => None
  | S fuel' =>
      if pos <? len data then
        if len data <? pos + 12 then Some (OK [])
        else
          let chunk_id := decode_ascii_replace (slice data pos (pos + 4)) in
          match unpack_I (slice data (pos + 4) (pos + 8)) with
          | Raise e => Some (Raise e)
          | OK content_size =>
              let content_start := pos + 12 in
              let content :=
                slice data content_start (content_start + content_size) in
              match parse_loop fuel' data (content_start + content_size) with
              | Some (OK chunks) => Some (OK (mkChunk chunk_id content :: chunks))
              | other => other
              end
          end
      else Some (OK [])
  end.

Definition parse_chunks (data : bytes) : result (list chunk) :=
  match parse_loop (S (length data)) data 8 with
  | Some r => r
  | None => OK []
  end.

Definition unpack_color (val : Z) : RGBA :=
  let a := Z.land (Z.shiftr val 24) 0xFF in
  let b := Z.land (Z.shiftr val 16) 0xFF in
  let g := Z.land (Z.shiftr val 8) 0xFF in
  let r := Z.land val 0xFF in
  (r, g, b, a).

(** [get_default_palette]: the table is the one of [vox_writer.py]. *)
Definition get_default_palette : list RGBA := map unpack_color Writer.default.

(** The XYZI loop [for i in range(num_voxels)], from index [i] on. *)
Fixpoint voxel_loop (n : nat) (i : Z) (content : bytes) (voxels0 : list Voxel)
  : result (list Voxel) :=
  match n with
  | O => OK voxels0
  | S n' =>
      let offset := 4 + i * 4 in
      v <- unpack_BBBB (slice content offset (offset + 4));;
      voxel_loop n' (i + 1) content (voxels0 ++ [v])
  end.

(** The RGBA loop [for i in range(256)], from index [i] on. *)
Fixpoint palette_loop (n : nat) (i : Z) (content : bytes) (palette0 : list RGBA)
  : result (list RGBA) :=
  match n with
  | O => OK palette0
  | S n' =>
      let offset := i * 4 in
      c <- unpack_BBBB (slice content offset (offset + 4));;
      palette_loop n' (i + 1) content (palette0 ++ [c])
  end.

(** The variables of the first pass over the chunks. *)
Record extract_state : Type := mkExtract {
  st_models : list VoxModel;
  st_current_size : option (Z * Z * Z);
  st_palette : list RGBA
}.

(** The decoding of a [SIZE] chunk. *)
Definition read_SIZE (content : bytes) : result (Z * Z * Z) :=
  unpack_III (slice content 0 12).

(** The decoding of an [XYZI] chunk. *)
Definition read_XYZI (content : bytes) : result (list Voxel) :=
  num_voxels <- unpack_I (slice content 0 4);;
  voxel_loop (Z.to_nat num_voxels) 0 content [].

(** The decoding of an [RGBA] chunk. *)
Definition read_RGBA (content : bytes) : result (list RGBA) :=
  palette_loop 256 0 content [].

(** One turn of [for chunk in chunks] (models and palette). *)
Definition extract_step (st : extract_state) (c : chunk) : result extract_state :=
  if str_eqb (id c) (lit "SIZE") then
    '(sx, sy, sz) <- read_SIZE (content c);;
    OK (mkExtract (st_models st) (Some (sx, sy, sz)) (st_palette st))
  else if str_eqb (id c) (lit "XYZI") then
    voxels <- read_XYZI (content c);;
    match st_current_size st with
    | Some (sx, sy, sz) =>
        OK (mkExtract
              (st_models st ++ [mkModel sx sy sz voxels (0, 0, 0) 0 []])
              (st_current_size st) (st_palette st))
    | None => OK st
    end
  else if str_eqb (id c) (lit "RGBA") then
    palette <- read_RGBA (content c);;
    OK (mkExtract (st_models st) (st_current_size st) palette)
  else OK st.

Fixpoint extract_loop (st : extract_state) (chunks : list chunk)
  : result extract_state :=
  match chunks with
  | [] => OK st
  | c :: chunks' => st' <- extract_step st c;; extract_loop st' chunks'
  end.

Definition extract_init : extract_state :=
  mkExtract [] None get_default_palette.

(** Code points that [str.split()] and [int()] treat as white space. *)
Definition is_space (c : Z) : bool :=
  ((0x09 <=? c) && (c <=? 0x0D)) || ((0x1C <=? c) && (c <=? 0x20))
  || (c =? 0x85) || (c =? 0xA0) || (c =? 0x1680)
  || ((0x2000 <=? c) && (c <=? 0x200A))
  || (c =? 0x2028) || (c =? 0x2029) || (c =? 0x202F) || (c =? 0x205F)
  || (c =? 0x3000).

(** [s.split()]: the maximal runs of characters that are not white space;
    [cur] is the run being read. *)
Fixpoint split_from (cur : str) (s : str) : list str :=
  match s with
  | [] => match cur with [] => [] | _ => [cur] end
  | c :: t =>
      if is_space c
      then match cur with [] => split_from [] t | _ => cur :: split_from [] t end
      else split_from (cur ++ [c]) t
  end.

Definition split (s : str) : list str := split_from [] s.

(** [f"Model_{i}"] *)
Definition model_name (i : nat) : str :=
  lit "Model_" ++ lit (DecimalString.NilZero.string_of_uint (Nat.to_uint i)).

(** [for i, model in enumerate(models)] of the fallback instances. *)
Definition default_instances (models : list VoxModel) : list Instance_ :=
  map (fun i => (Z.of_nat i, (0, 0, 0), 0, model_name i))
      (seq 0 (length models)).

Definition Transform : Type := (Z * (Z * Z * Z) * Z * str)%type.

Section SceneGraph.

(** The built-in [int(s)] on text: [Raise ValueError] when [s] is not a
    numeral.  It is left open here; [int_ascii] below is an
    implementation for decimal numerals. *)
Variable int : str -> result Z.

(** The body of the [nTRN] case. *)
Definition read_nTRN (content : bytes) (transforms : list (Z * Transform))
  : result (list (Z * Transform)) :=
  node_id <- unpack_I (slice content 0 4);;
  '(attrs, pos) <- _parse_dict content 4;;
  child_node_id <- unpack_I (slice content pos (pos + 4));;
  let pos := pos + 4 in
  let pos := pos + 4 in
  let pos := pos + 4 in
  num_frames <- unpack_I (slice content pos (pos + 4));;
  let pos := pos + 4 in
  '(frame_attrs, pos) <-
    (if (0 <? num_frames) && (pos <? len content)
     then _parse_dict content pos
     else OK ([], pos));;
  translation <-
    match dict_get str_eqb frame_attrs (lit "_t") with
    | Some t =>
        match split t with
        | [p0; p1; p2] =>
            x <- int p0;; y <- int p1;; z <- int p2;; OK (x, y, z)
        | _ => OK (0, 0, 0)
        end
    | None => OK (0, 0, 0)
    end;;
  rotation <-
    match dict_get str_eqb frame_attrs (lit "_r") with
    | Some r => int r
    | None => OK 0
    end;;
  let name :=
    match dict_get str_eqb attrs (lit "_name") with
    | Some n => n
    | None => []
    end in
  OK (dict_set Z.eqb transforms node_id
               (child_node_id, translation, rotation, name)).

(** The body of the [nSHP] case. *)
Definition read_nSHP (content : bytes) (shape_nodes : list (Z * Z))
  : result (list (Z * Z)) :=
  node_id <- unpack_I (slice content 0 4);;
  '(attrs, pos) <- _parse_dict content 4;;
  num_models <- unpack_I (slice content pos (pos + 4));;
  let pos := pos + 4 in
  if 0 <? num_models then
    model_id <- unpack_I (slice content pos (pos + 4));;
    OK (dict_set Z.eqb shape_nodes node_id model_id)
  else OK shape_nodes.

(** The second pass over the chunks (scene graph). *)
Fixpoint graph_loop (transforms : list (Z * Transform))
  (shape_nodes : list (Z * Z)) (chunks : list chunk)
  : result (list (Z * Transform) * list (Z * Z)) :=
  match chunks with
  | [] => OK (transforms, shape_nodes)
  | c :: chunks' =>
      if str_eqb (id c) (lit "nTRN") then
        transforms' <- read_nTRN (content c) transforms;;
        graph_loop transforms' shape_nodes chunks'
      else if str_eqb (id c) (lit "nSHP") then
        shape_nodes' <- read_nSHP (content c) shape_nodes;;
        graph_loop transforms shape_nodes' chunks'
      else graph_loop transforms shape_nodes chunks'
  end.

(** [for node_id, (...) in transforms.items()] *)
Fixpoint build_instances (transforms : list (Z * Transform))
  (shape_nodes : list (Z * Z)) (models : list VoxModel) : list Instance_ :=
  match transforms with
  | [] => []
  | (node_id, (child_node_id, translation, rotation, name)) :: rest =>
      match dict_get Z.eqb shape_nodes child_node_id with
      | Some model_id =>
          if model_id <? len models
          then (model_id, translation, rotation, name)
                 :: build_instances rest shape_nodes models
          else build_instances rest shape_nodes models
      | None => build_instances rest shape_nodes models
      end
  end.

(** What [read_vox_scene] does with the chunk list. *)
Definition scene_of_chunks (chunks : list chunk) : result VoxScene :=
  st <- extract_loop extract_init chunks;;
  let models := st_models st in
  let palette := st_palette st in
  '(transforms, shape_nodes) <- graph_loop [] [] chunks;;
  let instances := build_instances transforms shape_nodes models in
  let instances :=
    match instances, models with
    | [], _ :: _ => default_instances models
    | _, _ => instances
    end in
  OK (mkScene models palette instances).

(** [read_vox_scene] on the contents of the file: the versions it warned
    about on standard output, and the outcome. *)
Definition read_vox_scene (data : bytes) : list Z * result VoxScene :=
  let magic := slice data 0 4 in
  if negb (if list_eq_dec Byte.byte_eq_dec magic (list_byte_of_string "VOX ")
           then true else false)
  then ([], Raise ValueError)
  else
    match unpack_I (slice data 4 8) with
    | Raise e => ([], Raise e)
    | OK version =>
        (if negb ((version =? 150) || (version =? 200)) then [version] else [],
         chunks <- parse_chunks data;; scene_of_chunks chunks)
    end.

(** [read_vox_file] *)
Definition read_vox_file (data : bytes) : list Z * result VoxelData :=
  let '(out, r) := read_vox_scene data in
  (out,
   scene <- r;;
   match models scene with
   | [] =>
       OK (mkData 1 1 1 []
             (match palette scene with
              | [] => get_default_palette
              | _ => palette scene
              end))
   | model :: _ =>
       OK (mkData (size_x model) (size_y model) (size_z model)
                  (voxels model) (palette scene))
   end).

End SceneGraph.

(** An [int] for ASCII decimal numerals: optional white space around an
    optional sign and digits, with single underscores between digits. *)
Definition is_digit (c : Z) : bool := (48 <=? c) && (c <=? 57).

Fixpoint strip_left (s : str) : str :=
  match s with
  | [] => []
  | c :: t => if is_space c then strip_left t else s
  end.

Definition strip (s : str) : str := rev (strip_left (rev (strip_left s))).

Fixpoint digits (acc : Z) (after_digit : bool) (s : str) : result Z :=
  match s with
  | [] => if after_digit then OK acc else Raise ValueError
  | c :: t =>
      if is_digit c then digits (10 * acc + (c - 48)) true t
      else if (c =? 95) && after_digit then digits acc false t
      else Raise ValueError
  end.

Definition int_ascii (s : str) : result Z :=
  match strip s with
  | 43 :: t => digits 0 false t
  | 45 :: t => v <- digits 0 false t;; OK (- v)
  | t => digits 0 false t
  end.

(** [get_voxel_color] *)
Definition get_voxel_color (voxel_data : VoxelData) (color_index : Z)
  : result RGBA :=
  if (1 <=? color_index) && (color_index <=? 255)
  then getitem (data_palette voxel_data) (color_index - 1)
  else OK (255, 255, 255, 255).

End Reader.


(** ** vox_exporter.py: colour quantization *)

Module Exporter.

Definition Color : Type := (Z * Z * Z)%type.

Definition red (c : Color) : Z := fst (fst c).
Definition green (c : Color) : Z := snd (fst c).
Definition blue (c : Color) : Z := snd c.

Definition color_eqb (a b : Color) : bool :=
  (red a =? red b) && (green a =? green b) && (blue a =? blue b).

(** [sum((a - b) ** 2 for a, b in zip(c1, c2))], an integer. *)
Definition color_distance_sq (c1 c2 : Color) : Z :=
  (red c1 - red c2) ^ 2 + (green c1 - green c2) ^ 2 + (blue c1 - blue c2) ^ 2.

(** The least integer that is too large for a double: the numbers from
    here on round to 2^1024. *)
Definition float_overflow : Z := 2 ^ 1024 - 2 ^ 970.

(** [float(n)] for an integer that is not negative: the nearest double,
    ties to even. *)
Definition float_of_int (n : Z) : spec_float := binary_normalize 53 1024 n 0 false.

(** [color_distance]: [math.sqrt] converts the sum of the squares to a
    double, which fails with [OverflowError] on an integer too large for
    one, and returns the correctly rounded root. *)
Definition color_distance (c1 c2 : Color) : result spec_float :=
  let s := color_distance_sq c1 c2 in
  if float_overflow <=? s then Raise OverflowError
  else OK (SFsqrt 53 1024 (float_of_int s)).

Definition sum (l : list Z) : Z := fold_right Z.add 0 l.
Definition maximum (l : list Z) : Z := fold_right Z.max (hd 0 l) l.
Definition minimum (l : list Z) : Z := fold_right Z.min (hd 0 l) l.

(** [sorted(box, key=sort_key)]: a stable sort. *)
Fixpoint insert_by (key : Color -> Z) (x : Color) (l : list Color) : list Color :=
  match l with
  | [] => [x]
  | y :: t => if key x <=? key y then x :: y :: t else y :: insert_by key x t
  end.

Definition sorted (key : Color -> Z) (box : list Color) : list Color :=
  fold_right (insert_by key) [] box.

(** The leaf of [median_cut]: the average colour of the box. *)
Definition average (box : list Color) : list Color :=
  match box with
  | [] => [(180, 180, 180)]
  | _ =>
      let r := sum (map red box) / len box in
      let g := sum (map green box) / len box in
      let b := sum (map blue box) / len box in
      [(r, g, b)]
  end.

(** The nested function [median_cut]. *)
Fixpoint median_cut (depth : nat) (box : list Color) : list Color :=
  match depth with
  | O => average box
  | S depth' =>
      if len box <=? 1 then average box
      else
        let r_range := maximum (map red box) - minimum (map red box) in
        let g_range := maximum (map green box) - minimum (map green box) in
        let b_range := maximum (map blue box) - minimum (map blue box) in
        let sort_key :=
          if (g_range <=? r_range) && (b_range <=? r_range) then red
          else if b_range <=? g_range then green
          else blue in
        let sorted_box := sorted sort_key box in
        let mid := len sorted_box / 2 in
        median_cut depth' (firstn (Z.to_nat mid) sorted_box)
          ++ median_cut depth' (skipn (Z.to_nat mid) sorted_box)
  end.

(** [{c: i + 1 for i, c in enumerate(palette)}], from index [i] on. *)
Fixpoint index_colors (i : Z) (palette : list Color)
  (color_to_index : list (Color * Z)) : list (Color * Z) :=
  match palette with
  | [] => color_to_index
  | c :: t => index_colors (i + 1) t (dict_set color_eqb color_to_index c (i + 1))
  end.

(** The search for the closest palette colour; [None] is [float('inf')],
    which every distance is below. *)
Fixpoint closest (color : Color) (i : Z) (palette : list Color)
  (best_idx : Z) (best_dist : option spec_float) : result Z :=
  match palette with
  | [] => OK best_idx
  | pc :: t =>
      dist <- color_distance color pc;;
      let better :=
        match best_dist with
        | None => true
        | Some d => SFltb dist d
        end in
      if better then closest color (i + 1) t i (Some dist)
      else closest color (i + 1) t best_idx best_dist
  end.

Fixpoint map_colors (unique_colors palette : list Color)
  (color_to_index : list (Color * Z)) : result (list (Color * Z)) :=
  match unique_colors with
  | [] => OK color_to_index
  | color :: t =>
      best_idx <- closest color 0 palette 0 None;;
      map_colors t palette (dict_set color_eqb color_to_index color (best_idx + 1))
  end.

(** [quantize_colors].  [set_list colors] is [list(set(colors))]: the
    distinct colours in the order the set yields them, which the language
    leaves open.  [math.log2] fails on a number that is not positive; its
    truncation is the integer logarithm as long as the double holds the
    number and its logarithm apart from the next integer, which is so below
    2^46; with colours of three bytes the median cut is only reached with
    [max_colors] below 2^24. *)
Definition quantize_colors (set_list : list Color -> list Color)
  (colors : list Color) (max_colors : Z)
  : result (list Color * list (Color * Z)) :=
  match colors with
  | [] => OK ([(180, 180, 180)], [((180, 180, 180), 1)])
  | _ =>
      let unique_colors := set_list colors in
      if len unique_colors <=? max_colors then
        let palette := unique_colors in
        OK (palette, index_colors 0 palette [])
      else if max_colors <=? 0 then Raise ValueError
      else
        let depth := Z.to_nat (Z.log2 max_colors) in
        let palette := median_cut depth unique_colors in
        let palette := slice palette 0 max_colors in
        color_to_index <- map_colors unique_colors palette [];;
        OK (palette, color_to_index)
  end.

(** A set order: first occurrences, in the order of the list. *)
Definition color_eq_dec (a b : Color) : {a = b} + {a <> b}.
Proof. repeat decide equality. Defined.

Definition first_seen (colors : list Color) : list Color :=
  rev (nodup color_eq_dec (rev colors)).

End Exporter.

(** ** vox_importer.py: rotation codes *)

Module Importer.

Definition Matrix : Type := list (list Z).

(** The one attribute of the host object that [apply_vox_rotation] assigns.
    The host stores Euler angles computed from the matrix; the object is
    modelled by the matrix its rotation stands for. *)
Record Object_ : Type := mkObject { rotation : Matrix }.

Definition identity : Matrix := [[1; 0; 0]; [0; 1; 0]; [0; 0; 1]].

(** [row[i] = v] on a Python list: a negative index counts from the end. *)
Definition setitem_py (row : list Z) (i : Z) (v : Z) : result (list Z) :=
  let j := if i <? 0 then i + len row else i in
  if (0 <=? j) && (j <? len row)
  then OK (list_set row (Z.to_nat j) v)
  else Raise IndexError.

(** The decoding part of [apply_vox_rotation]: the matrix [mat]. *)
Definition rotation_matrix (rotation_index : Z) : result Matrix :=
  let idx1 := Z.land rotation_index 0x3 in
  let idx2 := Z.land (Z.shiftr rotation_index 2) 0x3 in
  let sign1 := if Z.land (Z.shiftr rotation_index 4) 0x1 =? 0 then 1 else -1 in
  let sign2 := if Z.land (Z.shiftr rotation_index 5) 0x1 =? 0 then 1 else -1 in
  let sign3 := if Z.land (Z.shiftr rotation_index 6) 0x1 =? 0 then 1 else -1 in
  let idx3 := 3 - idx1 - idx2 in
  row0 <- setitem_py [0; 0; 0] idx1 sign1;;
  row1 <- setitem_py [0; 0; 0] idx2 sign2;;
  row2 <- setitem_py [0; 0; 0] idx3 sign3;;
  OK [row0; row1; row2].

(** [apply_vox_rotation]: the object after the call, and the outcome. *)
Definition apply_vox_rotation (obj : Object_) (rotation_index : Z)
  : Object_ * result unit :=
  if rotation_index =? 0 then (obj, OK tt)
  else
    match rotation_matrix rotation_index with
    | OK mat => (mkObject mat, OK tt)
    | Raise e => (obj, Raise e)
    end.

(** Signed permutation matrices of size 3. *)
Definition count_nonzero (l : list Z) : nat :=
  List.length (filter (fun v => negb (v =? 0)) l).

Definition unit_entries (l : list Z) : bool :=
  forallb (fun v => (v =? 0) || (v =? 1) || (v =? -1)) l.

Definition column (m : Matrix) (j : nat) : list Z :=
  map (fun row => nth j row 0) m.

Definition signed_permutation (m : Matrix) : bool :=
  (List.length m =? 3)%nat
  && forallb (fun row => (List.length row =? 3)%nat) m
  && forallb unit_entries m
  && forallb (fun row => (count_nonzero row =? 1)%nat) m
  && forallb (fun j => (count_nonzero (column m j) =? 1)%nat) [0; 1; 2]%nat.

End Importer.

(** ** vox_writer.py: [create_simple_vox] *)

Module Simple.

(** A voxel with its colour: [(x, y, z, (r, g, b))]. *)
Definition ColoredVoxel : Type := (Z * Z * Z * Exporter.Color)%type.

(** The variables of the loop over the voxels; the palette is the one of
    the writer, which [set_color] updates in place. *)
Record build_state : Type := mkBuild {
  color_to_index : list (Exporter.Color * Z);
  next_index : Z;
  palette : Writer.VoxPalette;
  model : Writer.VoxModel
}.

(** The search, once the palette is full, for the closest colour among the
    ones that have an index; [None] is [float('inf')]. *)
Fixpoint closest_index (r g b : Z) (items : list (Exporter.Color * Z))
  (best_index : Z) (best_dist : option Z) : Z :=
  match items with
  | [] => best_index
  | ((cr, cg, cb), idx) :: items' =>
      let dist := (r - cr) ^ 2 + (g - cg) ^ 2 + (b - cb) ^ 2 in
      let closer :=
        match best_dist with
        | None => true
        | Some d => dist <? d
        end in
      if closer then closest_index r g b items' idx (Some dist)
      else closest_index r g b items' best_index best_dist
  end.

(** The part of one turn that finds or makes the index of the colour: the
    state after it, and [color_to_index[color_key]]. *)
Definition index_of_color (st : build_state) (r g b : Z)
  : result (build_state * Z) :=
  let color_key := (r, g, b) in
  match dict_get Exporter.color_eqb (color_to_index st) color_key with
  | Some index => OK (st, index)
  | None =>
      if 255 <? next_index st then
        let best_index := closest_index r g b (color_to_index st) 1 None in
        OK (mkBuild (dict_set Exporter.color_eqb (color_to_index st)
                              color_key best_index)
                    (next_index st) (palette st) (model st),
            best_index)
      else
        match Writer.set_color (palette st) (next_index st) r g b 255 with
        | (palette', OK _) =>
            OK (mkBuild (dict_set Exporter.color_eqb (color_to_index st)
                                  color_key (next_index st))
                        (next_index st + 1) palette' (model st),
                next_index st)
        | (_, Raise e) => Raise e
        end
  end.

(** The loop [for x, y, z, color in voxels]. *)
Fixpoint build_loop (voxels : list ColoredVoxel) (st : build_state)
  : result build_state :=
  match voxels with
  | [] => OK st
  | (x, y, z, (r, g, b)) :: voxels' =>
      '(st1, index) <- index_of_color st r g b;;
      match Writer.add_voxel (model st1) x y z index with
      | (model', OK _) =>
          build_loop voxels'
            (mkBuild (color_to_index st1) (next_index st1) (palette st1) model')
      | (_, Raise e) => Raise e
      end
  end.

Definition xs (voxels : list ColoredVoxel) : list Z :=
  map (fun v => fst (fst (fst v))) voxels.
Definition ys (voxels : list ColoredVoxel) : list Z :=
  map (fun v => snd (fst (fst v))) voxels.
Definition zs (voxels : list ColoredVoxel) : list Z :=
  map (fun v => snd (fst v)) voxels.

(** [create_simple_vox]: the contents of the file, if it was opened, and the
    outcome.  [size] is [None] when the caller leaves it out. *)
Definition create_simple_vox (voxels : list ColoredVoxel)
  (size : option (Z * Z * Z)) : option bytes * result unit :=
  match voxels with
  | [] => (None, Raise ValueError)
  | _ =>
      let '(size_x, size_y, size_z) :=
        match size with
        | Some s => s
        | None =>
            (Exporter.maximum (xs voxels) + 1, Exporter.maximum (ys voxels) + 1,
             Exporter.maximum (zs voxels) + 1)
        end in
      let writer := Writer.new_writer in
      let model0 := Writer.new_model size_x size_y size_z in
      match build_loop voxels (mkBuild [] 1 (Writer.palette writer) model0) with
      | Raise e => (None, Raise e)
      | OK st =>
          let writer :=
            Writer.add_model (Writer.mkWriter (Writer.models writer) (palette st))
                             (model st) in
          let '(file, outcome) := Writer.write writer in
          (Some file, outcome)
      end
  end.

End Simple.

(** ** vox_exporter.py: [VoxExporter.export] *)

Module VoxExporter.
Import Exporter.

(** What a voxel of [all_voxels] carries: the colour index of a voxel kept
    from a VOX file, or the colour of a voxel of a voxelized mesh. *)
Inductive Payload : Type :=
| Index (color_idx : Z)
| Rgb (color : Color).

(** The metadata of an object as far as [export] looks at it: the value of
    ['voxels'] when the key is there, and [metadata.get('palette')]. *)
Record Metadata : Type := mkMetadata {
  meta_voxels : option (list (Z * Z * Z * Z));
  meta_palette : option (list (Z * Z * Z * Z))
}.

(** The exceptions of [export]: the ones of the codec, and the [TypeError] of
    a comparison of a number with a tuple. *)
Inductive raised : Type :=
| Builtin (e : exn)
| TypeError.

(** The variables the loop over the objects sets. *)
Record collected : Type := mkCollected {
  all_voxels : list (Z * Z * Z * Payload);
  original_palette : option (list (Z * Z * Z * Z));
  use_original_indices : bool
}.

(** [metadata and 'voxels' in metadata and metadata.get('palette')] *)
Definition usable (metadata : Metadata)
  : option (list (Z * Z * Z * Z) * list (Z * Z * Z * Z)) :=
  match meta_voxels metadata, meta_palette metadata with
  | Some voxels, Some (c :: palette) => Some (voxels, c :: palette)
  | _, _ => None
  end.

(** [max(0, min(255, n))] *)
Definition clamp (n : Z) : Z := Z.max 0 (Z.min 255 n).

Definition key_eqb (a b : Z * Z * Z) : bool :=
  let '(x1, y1, z1) := a in
  let '(x2, y2, z2) := b in
  (x1 =? x2) && (y1 =? y2) && (z1 =? z2).

(** [key in seen] *)
Definition mem (key : Z * Z * Z) (seen : list (Z * Z * Z)) : bool :=
  existsb (key_eqb key) seen.

(** The loop that sets the original palette. *)
Fixpoint set_original (i : Z) (original_palette : list (Z * Z * Z * Z))
  (palette : Writer.VoxPalette) : result Writer.VoxPalette :=
  match original_palette with
  | [] => OK palette
  | (r, g, b, a) :: rest =>
      if i <? 255 then
        match Writer.set_color palette (i + 1) r g b a with
        | (palette', OK _) => set_original (i + 1) rest palette'
        | (_, Raise e) => Raise e
        end
      else set_original (i + 1) rest palette
  end.

(** The loop that adds the voxels with their original colour indices.  A
    voxel of a voxelized mesh has a colour where the index is looked for,
    and the comparison of 1 with it raises [TypeError]. *)
Fixpoint add_original (min_x min_y min_z : Z)
  (voxels : list (Z * Z * Z * Payload)) (seen : list (Z * Z * Z))
  (model : Writer.VoxModel) : Writer.VoxModel + raised :=
  match voxels with
  | [] => inl model
  | (x, y, z, payload) :: voxels' =>
      let nx := clamp (x - min_x) in
      let ny := clamp (y - min_y) in
      let nz := clamp (z - min_z) in
      let key := (nx, ny, nz) in
      if negb (mem key seen) then
        let seen := key :: seen in
        match payload with
        | Index color_idx =>
            let added :=
              if (1 <=? color_idx) && (color_idx <=? 255)
              then Writer.add_voxel model nx ny nz color_idx
              else Writer.add_voxel model nx ny nz 1 in
            match added with
            | (model', OK _) =>
                add_original min_x min_y min_z voxels' seen model'
            | (_, Raise e) => inr (Builtin e)
            end
        | Rgb _ => inr TypeError
        end
      else add_original min_x min_y min_z voxels' seen model
  end.

(** [normalized_voxels] *)
Definition normalize {A : Type} (min_x min_y min_z : Z)
  (voxels : list (Z * Z * Z * A)) : list (Z * Z * Z * A) :=
  map (fun v : Z * Z * Z * A =>
         let '(x, y, z, color) := v in
         (clamp (x - min_x), clamp (y - min_y), clamp (z - min_z), color))
      voxels.

(** The loop that removes the duplicates: the first voxel of every position
    stays. *)
Fixpoint unique {A : Type} (voxels : list (Z * Z * Z * A))
  (seen : list (Z * Z * Z)) : list (Z * Z * Z * A) :=
  match voxels with
  | [] => []
  | (x, y, z, color) :: voxels' =>
      let key := (x, y, z) in
      if negb (mem key seen)
      then (x, y, z, color) :: unique voxels' (key :: seen)
      else unique voxels' seen
  end.

(** The voxels as voxels with a colour: [None] when one of them carries a
    colour index. *)
Fixpoint colored (voxels : list (Z * Z * Z * Payload))
  : option (list (Z * Z * Z * Color)) :=
  match voxels with
  | [] => Some []
  | (x, y, z, Rgb color) :: voxels' =>
      option_map (cons (x, y, z, color)) (colored voxels')
  | (_, _, _, Index _) :: _ => None
  end.

(** The loop that sets the colours of the quantized palette. *)
Fixpoint set_quantized (i : Z) (palette0 : list Color)
  (palette : Writer.VoxPalette) : result Writer.VoxPalette :=
  match palette0 with
  | [] => OK palette
  | (r, g, b) :: rest =>
      match Writer.set_color palette (i + 1) r g b 255 with
      | (palette', OK _) => set_quantized (i + 1) rest palette'
      | (_, Raise e) => Raise e
      end
  end.

(** The loop that adds the voxels with the indices of their colours. *)
Fixpoint add_quantized (color_map : list (Color * Z))
  (unique_voxels : list (Z * Z * Z * Color)) (model : Writer.VoxModel)
  : result Writer.VoxModel :=
  match unique_voxels with
  | [] => OK model
  | (x, y, z, color) :: rest =>
      let color_index :=
        match dict_get color_eqb color_map color with
        | Some i => i
        | None => 1
        end in
      match Writer.add_voxel model x y z color_index with
      | (model', OK _) => add_quantized color_map rest model'
      | (_, Raise e) => Raise e
      end
  end.

(** [writer.add_model(model)] and [writer.write(filepath)]: the contents of
    the file and the outcome. *)
Definition save (palette : Writer.VoxPalette) (model : Writer.VoxModel)
  : option bytes * (unit + raised) :=
  let writer :=
    Writer.add_model
      (Writer.mkWriter (Writer.models Writer.new_writer) palette) model in
  let '(file, outcome) := Writer.write writer in
  (Some file,
   match outcome with
   | OK _ => inl tt
   | Raise e => inr (Builtin e)
   end).

Section Method.

(** The objects of Blender, and the two functions of [export] that read
    them: [vox_importer.get_vox_metadata] and [self._voxelize_object]. *)
Variable BlenderObject : Type.
Variable get_vox_metadata : BlenderObject -> Metadata.
Variable _voxelize_object : BlenderObject -> list (Z * Z * Z * Color).

(** The order of [list(set(colors))] in [quantize_colors]. *)
Variable set_list : list Color -> list Color.

(** The loop over the objects. *)
Fixpoint collect (preserve_vox_data : bool) (objects : list BlenderObject)
  (st : collected) : collected :=
  match objects with
  | [] => st
  | obj :: objects' =>
      match (if preserve_vox_data then usable (get_vox_metadata obj)
             else None) with
      | Some (voxels, palette) =>
          collect preserve_vox_data objects'
            (mkCollected
               (all_voxels st
                ++ map (fun v : Z * Z * Z * Z =>
                          let '(x, y, z, color_idx) := v in
                          (x, y, z, Index color_idx)) voxels)
               (Some palette) true)
      | None =>
          collect preserve_vox_data objects'
            (mkCollected
               (all_voxels st
                ++ map (fun v : Z * Z * Z * Color =>
                          let '(x, y, z, color) := v in (x, y, z, Rgb color))
                       (_voxelize_object obj))
               (original_palette st) (use_original_indices st))
      end
  end.

(** The part of [export] after the test that there are voxels. *)
Definition write_voxels (st : collected) : option bytes * (unit + raised) :=
  let coord_x := map (fun v : Z * Z * Z * Payload => fst (fst (fst v)))
                     (all_voxels st) in
  let coord_y := map (fun v : Z * Z * Z * Payload => snd (fst (fst v)))
                     (all_voxels st) in
  let coord_z := map (fun v : Z * Z * Z * Payload => snd (fst v))
                     (all_voxels st) in
  let min_x := minimum coord_x in
  let min_y := minimum coord_y in
  let min_z := minimum coord_z in
  let max_x := maximum coord_x in
  let max_y := maximum coord_y in
  let max_z := maximum coord_z in
  let size_x := max_x - min_x + 1 in
  let size_y := max_y - min_y + 1 in
  let size_z := max_z - min_z + 1 in
  let writer := Writer.new_writer in
  let model := Writer.new_model size_x size_y size_z in
  match (if use_original_indices st then original_palette st else None) with
  | Some (c :: palette0) =>
      match set_original 0 (c :: palette0) (Writer.palette writer) with
      | Raise e => (None, inr (Builtin e))
      | OK palette =>
          match add_original min_x min_y min_z (all_voxels st) [] model with
          | inr e => (None, inr e)
          | inl model' => save palette model'
          end
      end
  | _ =>
      let normalized_voxels := normalize min_x min_y min_z (all_voxels st) in
      let unique_voxels := unique normalized_voxels [] in
      match colored unique_voxels with
      | None => (None, inr TypeError)
      | Some unique_voxels =>
          let colors := map snd unique_voxels in
          match quantize_colors set_list colors 255 with
          | Raise e => (None, inr (Builtin e))
          | OK (palette0, color_map) =>
              match set_quantized 0 palette0 (Writer.palette writer) with
              | Raise e => (None, inr (Builtin e))
              | OK palette =>
                  match add_quantized color_map unique_voxels model with
                  | Raise e => (None, inr (Builtin e))
                  | OK model' => save palette model'
                  end
              end
          end
      end
  end.

(** [VoxExporter.export]: the contents of the file, if it was opened, and
    the outcome.  The messages printed on the way are left out.

    On the standard path an index among the colours makes the unpacking of
    the palette, or the median cut, raise [TypeError]. *)
Definition export (preserve_vox_data : bool) (objects : list BlenderObject)
  : option bytes * (unit + raised) :=
  let st := collect preserve_vox_data objects (mkCollected [] None false) in
  match all_voxels st with
  | [] => (None, inr (Builtin ValueError))
  | _ => write_voxels st
  end.

End Method.

End VoxExporter.


(** ** vox_exporter.py: [VoxExporter._get_face_color] *)

Module FaceColor.
Import Exporter.

(** The dict [color_data] as far as [_get_face_color] reads it:
    ['tri_to_orig'] may be missing, ['vertex_colors'] is [None] or a dict
    from polygon indices to the colours of the corners. *)
Record ColorData : Type := mkColorData {
  tri_to_orig : option (list (Z * Z));
  vertex_colors : option (list (Z * list Color));
  material_colors : list (Z * Color);
  face_materials : list Z;
  default_color : Color
}.

(** [l[i]] on a Python list: a negative index counts from the end. *)
Definition getitem_py {A : Type} (l : list A) (i : Z) : result A :=
  let j := if i <? 0 then i + len l else i in
  if (0 <=? j) && (j <? len l) then getitem l j else Raise IndexError.

(** [_get_face_color] *)
Definition _get_face_color (face_idx : Z) (color_data : ColorData)
  : result Color :=
  let orig_face_idx :=
    match tri_to_orig color_data with
    | Some d =>
        match dict_get Z.eqb d face_idx with
        | Some orig => orig
        | None => face_idx
        end
    | None => face_idx
    end in
  let from_material :=
    if orig_face_idx <? len (face_materials color_data) then
      mat_idx <- getitem_py (face_materials color_data) orig_face_idx;;
      match dict_get Z.eqb (material_colors color_data) mat_idx with
      | Some color => OK color
      | None => OK (default_color color_data)
      end
    else OK (default_color color_data) in
  match vertex_colors color_data with
  | Some (entry :: entries) =>
      match dict_get Z.eqb (entry :: entries) orig_face_idx with
      | Some (c :: cs) =>
          let colors := c :: cs in
          let r := sum (map red colors) / len colors in
          let g := sum (map green colors) / len colors in
          let b := sum (map blue colors) / len colors in
          OK (r, g, b)
      | _ => from_material
      end
  | _ => from_material
  end.

End FaceColor.


(** * Properties *)

(** ** [add_voxel] and the chunks of a model (vox_writer.py) *)

Module WriterFacts.
Import Writer.

(** The legal range of a voxel: coordinates 0-255, colour index 1-255. *)
Definition voxel_in_range (x y z color_index : Z) : Prop :=
  0 <= x <= 255 /\ 0 <= y <= 255 /\ 0 <= z <= 255 /\ 1 <= color_index <= 255.

Lemma add_voxel_accepts (self : VoxModel) (x y z c : Z) :
  voxel_in_range x y z c ->
  add_voxel self x y z c
  = (mkModel (size_x self) (size_y self) (size_z self)
             (voxels self ++ [(x, y, z, c)]), OK tt).
Proof.
  intros (Hx & Hy & Hz & Hc). unfold add_voxel.
  replace ((0 <=? x) && (x <? 256) && ((0 <=? y) && (y <? 256))
           && ((0 <=? z) && (z <? 256))) with true
    by (symmetry; repeat (apply andb_true_intro; split); lia).
  replace ((1 <=? c) && (c <=? 255)) with true
    by (symmetry; apply andb_true_intro; split; lia).
  reflexivity.
Qed.

Lemma add_voxel_rejects (self : VoxModel) (x y z c : Z) :
  ~ voxel_in_range x y z c ->
  add_voxel self x y z c = (self, Raise ValueError).
Proof.
  intros Hout. unfold add_voxel.
  destruct ((0 <=? x) && (x <? 256) && ((0 <=? y) && (y <? 256))
            && ((0 <=? z) && (z <? 256))) eqn:Hxyz; [| reflexivity].
  destruct ((1 <=? c) && (c <=? 255)) eqn:Hc; [| reflexivity].
  exfalso. apply Hout. unfold voxel_in_range.
  repeat (apply andb_prop in Hxyz; destruct Hxyz as [Hxyz ?]).
  apply andb_prop in Hc. destruct Hc. lia.
Qed.

(** C2. [add_voxel] raises for every call with a coordinate outside
    [0,255] or a colour index outside [1,255] and then leaves the model
    (and so its voxel list) as it was; it never raises for a call inside
    the ranges, which appends the voxel. *)
Theorem add_voxel_range_check (self : VoxModel) (x y z c : Z) :
  (~ voxel_in_range x y z c ->
     (exists e, snd (add_voxel self x y z c) = Raise e)
     /\ fst (add_voxel self x y z c) = self
     /\ voxels (fst (add_voxel self x y z c)) = voxels self)
  /\ (voxel_in_range x y z c ->
        snd (add_voxel self x y z c) = OK tt
        /\ voxels (fst (add_voxel self x y z c)) = voxels self ++ [(x, y, z, c)]).
Proof.
  split; intros H.
  - rewrite (add_voxel_rejects self x y z c H). simpl. eauto.
  - rewrite (add_voxel_accepts self x y z c H). simpl. auto.
Qed.

Lemma add_voxel_range_check_witness :
  ((exists e, snd (add_voxel (mkModel 2 2 2 [(0, 0, 0, 1)]) 256 0 0 1) = Raise e)
   /\ voxels (fst (add_voxel (mkModel 2 2 2 [(0, 0, 0, 1)]) 256 0 0 1))
      = [(0, 0, 0, 1)])
  /\ (snd (add_voxel (mkModel 2 2 2 [(0, 0, 0, 1)]) 1 1 1 255) = OK tt).
Proof.
  split.
  - destruct (add_voxel_range_check (mkModel 2 2 2 [(0, 0, 0, 1)]) 256 0 0 1)
      as [Hout _].
    destruct Hout as (He & _ & Hv).
    + unfold voxel_in_range. lia.
    + split; [exact He | exact Hv].
  - destruct (add_voxel_range_check (mkModel 2 2 2 [(0, 0, 0, 1)]) 1 1 1 255)
      as [_ Hin].
    destruct Hin as (Hok & _).
    + unfold voxel_in_range. lia.
    + exact Hok.
Defined.

(** C3. For the model of size (2,2,2) with the single voxel (0,0,0,1) the
    SIZE chunk content is 02 00 00 00 02 00 00 00 02 00 00 00 and the XYZI
    chunk content is 01 00 00 00 00 00 00 01. *)
Theorem size_xyzi_example :
  let model := mkModel 2 2 2 [(0, 0, 0, 1)] in
  get_size_chunk model
  = OK (mkChunk (lit "SIZE")
          [Byte.x02; Byte.x00; Byte.x00; Byte.x00;
           Byte.x02; Byte.x00; Byte.x00; Byte.x00;
           Byte.x02; Byte.x00; Byte.x00; Byte.x00] [])
  /\ get_xyzi_chunk model
     = OK (mkChunk (lit "XYZI")
             [Byte.x01; Byte.x00; Byte.x00; Byte.x00;
              Byte.x00; Byte.x00; Byte.x00; Byte.x01] []).
Proof. split; vm_compute; reflexivity. Qed.

End WriterFacts.

(** ** Palette access (vox_writer.py, vox_reader.py) *)

Module PaletteFacts.

Definition index_in_range (index : Z) : Prop := 1 <= index <= 255.

Lemma index_check_false (index : Z) :
  ~ index_in_range index -> (1 <=? index) && (index <=? 255) = false.
Proof.
  unfold index_in_range. intros H.
  destruct ((1 <=? index) && (index <=? 255)) eqn:E; [| reflexivity].
  apply andb_prop in E. destruct E. lia.
Qed.

Lemma set_color_rejects (self : Writer.VoxPalette) (index r g b a : Z) :
  ~ index_in_range index ->
  Writer.set_color self index r g b a = (self, Raise ValueError).
Proof.
  intros H. unfold Writer.set_color.
  rewrite (index_check_false index H). reflexivity.
Qed.

Lemma get_voxel_color_white (voxel_data : Reader.VoxelData) (index : Z) :
  ~ index_in_range index ->
  Reader.get_voxel_color voxel_data index = OK (255, 255, 255, 255).
Proof.
  intros H. unfold Reader.get_voxel_color.
  rewrite (index_check_false index H). reflexivity.
Qed.

(** C8, as the claim states it, fails: reading the colour of index 0 (and
    of index 256) is not an error, it returns opaque white. *)
Lemma get_voxel_color_outside_is_not_an_error :
  let voxel_data := Reader.mkData 1 1 1 [] Reader.get_default_palette in
  Reader.get_voxel_color voxel_data 0 = OK (255, 255, 255, 255)
  /\ Reader.get_voxel_color voxel_data 256 = OK (255, 255, 255, 255)
  /\ ~ (exists e, Reader.get_voxel_color voxel_data 0 = Raise e).
Proof.
  repeat split; try reflexivity.
  intros [e He]. discriminate He.
Qed.

(** C8, amended. [set_color] raises for every index outside [1,255] and
    leaves the palette unchanged; reading the colour of an index outside
    [1,255] with [get_voxel_color] is not an error: it returns opaque white
    (255,255,255,255). *)
Theorem palette_range_checks (index : Z) :
  ~ index_in_range index ->
  (forall (self : Writer.VoxPalette) (r g b a : Z),
      snd (Writer.set_color self index r g b a) = Raise ValueError
      /\ fst (Writer.set_color self index r g b a) = self)
  /\ (forall voxel_data : Reader.VoxelData,
        Reader.get_voxel_color voxel_data index = OK (255, 255, 255, 255)).
Proof.
  intros H. split.
  - intros self r g b a. rewrite (set_color_rejects self index r g b a H).
    split; reflexivity.
  - intros voxel_data. apply get_voxel_color_white. exact H.
Qed.

Lemma palette_range_checks_witness :
  snd (Writer.set_color Writer.new_palette 0 1 2 3 4) = Raise ValueError
  /\ fst (Writer.set_color Writer.new_palette 0 1 2 3 4) = Writer.new_palette
  /\ Reader.get_voxel_color (Reader.mkData 1 1 1 [] Reader.get_default_palette) 0
     = OK (255, 255, 255, 255).
Proof.
  assert (H : ~ index_in_range 0) by (unfold index_in_range; lia).
  destruct (palette_range_checks 0 H) as [Hset Hget].
  destruct (Hset Writer.new_palette 1 2 3 4) as [Hs Hf].
  split; [exact Hs | split; [exact Hf | apply Hget]].
Defined.

End PaletteFacts.

(** ** Rotation codes (vox_importer.py) *)

Module RotationFacts.
Import Importer.

(** The codes whose bits 0-1 and 2-3 name two different columns among
    0, 1, 2. *)
Definition names_two_columns (rotation_index : Z) : bool :=
  let idx1 := Z.land rotation_index 0x3 in
  let idx2 := Z.land (Z.shiftr rotation_index 2) 0x3 in
  (idx1 <? 3) && (idx2 <? 3) && negb (idx1 =? idx2).

Definition decodes_to_signed_permutation (rotation_index : Z) : bool :=
  match rotation_matrix rotation_index with
  | OK mat => signed_permutation mat
  | Raise _ => false
  end.

Lemma land_3_cases (v : Z) :
  Z.land v 3 = 0 \/ Z.land v 3 = 1 \/ Z.land v 3 = 2 \/ Z.land v 3 = 3.
Proof.
  assert (E : Z.land v 3 = v mod 4)
    by (change 3 with (Z.ones 2); apply Z.land_ones; lia).
  pose proof (Z.mod_pos_bound v 4 eq_refl). lia.
Qed.

Lemma land_1_cases (v : Z) : Z.land v 1 = 0 \/ Z.land v 1 = 1.
Proof.
  assert (E : Z.land v 1 = v mod 2)
    by (change 1 with (Z.ones 1); apply Z.land_ones; lia).
  pose proof (Z.mod_pos_bound v 2 eq_refl). lia.
Qed.

Lemma decode_exact (rotation_index : Z) :
  decodes_to_signed_permutation rotation_index
  = names_two_columns rotation_index.
Proof.
  unfold decodes_to_signed_permutation, names_two_columns, rotation_matrix.
  change 0x3 with 3. change 0x1 with 1.
  destruct (land_3_cases rotation_index) as [E1 | [E1 | [E1 | E1]]];
    destruct (land_3_cases (Z.shiftr rotation_index 2)) as [E2 | [E2 | [E2 | E2]]];
    destruct (land_1_cases (Z.shiftr rotation_index 4)) as [S1 | S1];
    destruct (land_1_cases (Z.shiftr rotation_index 5)) as [S2 | S2];
    destruct (land_1_cases (Z.shiftr rotation_index 6)) as [S3 | S3];
    rewrite E1, E2, S1, S2, S3; reflexivity.
Qed.

(** C7, as the claim states it, fails: code 5 is in 0-23, its bits 0-1 and
    2-3 both name column 1, and the decoded matrix has its three nonzero
    entries in that one column; code 3 names column 3 and decoding raises. *)
Lemma rotation_code_5_is_not_a_permutation :
  0 <= 5 <= 23
  /\ rotation_matrix 5 = OK [[0; 1; 0]; [0; 1; 0]; [0; 1; 0]]
  /\ signed_permutation [[0; 1; 0]; [0; 1; 0]; [0; 1; 0]] = false
  /\ rotation_matrix 3 = Raise IndexError.
Proof. repeat split; try reflexivity; lia. Qed.

(** C7, amended. For every rotation code whose bits 0-1 and bits 2-3 name
    two different columns among 0, 1, 2 (of the codes 0-23 these are 1, 2,
    4, 6, 8, 9, 17, 18, 20, 22, and no other code decodes to such a
    matrix), the decoded 3x3 matrix is a signed permutation matrix with
    exactly one entry of +1 or -1 in every row and every column; applying
    code 0 is a no-op that leaves the object's rotation as it was. *)
Theorem rotation_decode (rotation_index : Z) :
  names_two_columns rotation_index = true ->
  (exists mat, rotation_matrix rotation_index = OK mat
               /\ signed_permutation mat = true
               /\ forall obj, apply_vox_rotation obj rotation_index
                              = (mkObject mat, OK tt))
  /\ filter names_two_columns (Writer.range 24)
     = [1; 2; 4; 6; 8; 9; 17; 18; 20; 22]
  /\ filter decodes_to_signed_permutation (Writer.range 24)
     = [1; 2; 4; 6; 8; 9; 17; 18; 20; 22]
  /\ forall obj, apply_vox_rotation obj 0 = (obj, OK tt).
Proof.
  intros Hvalid. split; [| repeat split; reflexivity].
  pose proof (decode_exact rotation_index) as Hd.
  rewrite Hvalid in Hd. unfold decodes_to_signed_permutation in Hd.
  destruct (rotation_matrix rotation_index) as [mat |] eqn:Hm; [| discriminate].
  exists mat. repeat split; trivial.
  intros obj. unfold apply_vox_rotation. rewrite Hm.
  destruct (rotation_index =? 0) eqn:Hz; [| reflexivity].
  apply Z.eqb_eq in Hz. subst. discriminate Hvalid.
Qed.

Lemma rotation_decode_witness :
  exists mat, rotation_matrix 17 = OK mat /\ signed_permutation mat = true.
Proof.
  destruct (rotation_decode 17 eq_refl) as [(mat & Hm & Hs & _) _].
  exists mat. split; assumption.
Defined.

End RotationFacts.

(** ** Quantization without reduction (vox_exporter.py) *)

Module QuantizeFacts.
Import Exporter.

Lemma color_eqb_eq (a b : Color) : color_eqb a b = true <-> a = b.
Proof.
  destruct a as [[r1 g1] b1], b as [[r2 g2] b2].
  unfold color_eqb, red, green, blue. simpl. split.
  - intros H. apply andb_prop in H. destruct H as [H Hb].
    apply andb_prop in H. destruct H as [Hr Hg].
    apply Z.eqb_eq in Hr, Hg, Hb. congruence.
  - intros H. inversion H. subst. rewrite !Z.eqb_refl. reflexivity.
Qed.

Lemma color_eqb_neq (a b : Color) : a <> b -> color_eqb a b = false.
Proof.
  intros H. destruct (color_eqb a b) eqn:E; [| reflexivity].
  apply color_eqb_eq in E. contradiction.
Qed.

Lemma color_eqb_refl (a : Color) : color_eqb a a = true.
Proof. apply color_eqb_eq. reflexivity. Qed.

Lemma dict_get_set_same (d : list (Color * Z)) (c : Color) (v : Z) :
  dict_get color_eqb (dict_set color_eqb d c v) c = Some v.
Proof.
  induction d as [| [k w] d IH]; simpl.
  - rewrite color_eqb_refl. reflexivity.
  - destruct (color_eqb k c) eqn:E; simpl; rewrite E; auto.
Qed.

Lemma dict_get_set_other (d : list (Color * Z)) (c c' : Color) (v : Z) :
  c <> c' ->
  dict_get color_eqb (dict_set color_eqb d c v) c' = dict_get color_eqb d c'.
Proof.
  intros Hne. induction d as [| [k w] d IH]; simpl.
  - rewrite (color_eqb_neq c c' Hne). reflexivity.
  - destruct (color_eqb k c) eqn:E; simpl.
    + apply color_eqb_eq in E. subst k.
      rewrite (color_eqb_neq c c' Hne). reflexivity.
    + destruct (color_eqb k c'); auto.
Qed.

(** Colours that are not in the palette keep what the dictionary held. *)
Lemma index_colors_other (palette : list Color) :
  forall (i : Z) (d : list (Color * Z)) (c : Color),
    ~ In c palette ->
    dict_get color_eqb (index_colors i palette d) c = dict_get color_eqb d c.
Proof.
  induction palette as [| p palette IH]; intros i d c Hnot; simpl.
  - reflexivity.
  - rewrite IH by (intros Hin; apply Hnot; right; exact Hin).
    apply dict_get_set_other. intros ->. apply Hnot. left. reflexivity.
Qed.

(** In a palette without repetition, the colour at position [k] gets the
    index [i + k + 1]. *)
Lemma index_colors_at (palette : list Color) :
  forall (i : Z) (d : list (Color * Z)) (k : nat) (c : Color),
    NoDup palette ->
    nth_error palette k = Some c ->
    dict_get color_eqb (index_colors i palette d) c = Some (i + Z.of_nat k + 1).
Proof.
  induction palette as [| p palette IH]; intros i d k c Hnd Hk.
  - destruct k; discriminate.
  - inversion Hnd as [| ? ? Hnotin Hnd']; subst. destruct k as [| k]; simpl in *.
    + inversion Hk; subst.
      rewrite index_colors_other by exact Hnotin.
      rewrite dict_get_set_same. f_equal. lia.
    + rewrite (IH (i + 1) _ k c Hnd' Hk). f_equal. lia.
Qed.

(** C4, as the claim states it, fails: the empty colour list has no
    distinct colour, which is at most [max_colors], and the palette
    returned is not empty: it is the single gray (180,180,180). *)
Lemma quantize_empty_returns_gray :
  len (first_seen []) <= 255
  /\ quantize_colors first_seen [] 255
     = OK ([(180, 180, 180)], [((180, 180, 180), 1)])
  /\ ~ (forall c, In c [(180, 180, 180)] <-> In c (@nil Color)).
Proof.
  repeat split; try reflexivity.
  - vm_compute. discriminate.
  - intros H. apply (proj1 (H (180, 180, 180))). left. reflexivity.
Qed.

(** C4, amended. For every non-empty colour list whose number of distinct
    colours is at most [max_colors], whatever the order in which the set of
    colours is listed, [quantize_colors] returns a palette that is exactly
    the set of distinct input colours (no repetition, same membership, same
    size), and the mapping sends each input colour [c] to an index [i] in
    [1, palette length] with [palette[i-1] = c]. *)
Theorem quantize_small_input (set_list : list Color -> list Color)
  (colors : list Color) (max_colors : Z) :
  colors <> [] ->
  NoDup (set_list colors) ->
  (forall c, In c (set_list colors) <-> In c colors) ->
  len (set_list colors) <= max_colors ->
  exists palette color_to_index,
    quantize_colors set_list colors max_colors = OK (palette, color_to_index)
    /\ NoDup palette
    /\ (forall c, In c palette <-> In c colors)
    /\ length palette = length (nodup color_eq_dec colors)
    /\ forall c, In c colors ->
         exists i, dict_get color_eqb color_to_index c = Some i
                   /\ 1 <= i <= len palette
                   /\ getitem palette (i - 1) = OK c.
Proof.
  intros Hne Hnd Hmem Hle.
  exists (set_list colors), (index_colors 0 (set_list colors) []).
  split; [| split; [exact Hnd | split; [exact Hmem | split]]].
  - unfold quantize_colors. destruct colors as [| c0 colors']; [contradiction |].
    replace (len (set_list (c0 :: colors')) <=? max_colors) with true
      by (symmetry; apply Z.leb_le; exact Hle).
    reflexivity.
  - apply Nat.le_antisymm; apply NoDup_incl_length; trivial.
    + intros c Hc. apply nodup_In. apply Hmem. exact Hc.
    + apply NoDup_nodup.
    + intros c Hc. apply Hmem. apply nodup_In in Hc. exact Hc.
  - intros c Hc. apply Hmem in Hc.
    destruct (In_nth_error _ _ Hc) as [k Hk].
    exists (0 + Z.of_nat k + 1). split; [| split].
    + apply index_colors_at; assumption.
    + assert (k < length (set_list colors))%nat
        by (apply nth_error_Some; congruence).
      unfold len. lia.
    + unfold getitem. replace (Z.to_nat (0 + Z.of_nat k + 1 - 1)) with k by lia.
      rewrite Hk. reflexivity.
Qed.

Lemma quantize_small_input_witness :
  exists palette color_to_index,
    quantize_colors first_seen [(1, 2, 3); (4, 5, 6); (1, 2, 3)] 255
    = OK (palette, color_to_index)
    /\ length palette = 2%nat
    /\ dict_get color_eqb color_to_index (4, 5, 6) = Some 2.
Proof.
  assert (Hne : [(1, 2, 3); (4, 5, 6); (1, 2, 3)] <> @nil Color) by discriminate.
  assert (Hnd : NoDup (first_seen [(1, 2, 3); (4, 5, 6); (1, 2, 3)])).
  { vm_compute. repeat constructor; simpl; intuition discriminate. }
  assert (Hmem : forall c, In c (first_seen [(1, 2, 3); (4, 5, 6); (1, 2, 3)])
                           <-> In c [(1, 2, 3); (4, 5, 6); (1, 2, 3)]).
  { intros c. vm_compute. tauto. }
  assert (Hle : len (first_seen [(1, 2, 3); (4, 5, 6); (1, 2, 3)]) <= 255).
  { vm_compute. discriminate. }
  destruct (quantize_small_input first_seen _ 255 Hne Hnd Hmem Hle)
    as (palette & color_to_index & Hq & _ & _ & Hlen & _).
  exists palette, color_to_index. split; [exact Hq |].
  vm_compute in Hq. inversion Hq; subst. split; reflexivity.
Defined.

End QuantizeFacts.

(** ** The reader (vox_reader.py) *)

Module ReaderFacts.
Import Reader.

(** *** Slices *)

Lemma len_app {A : Type} (a b : list A) : len (a ++ b) = len a + len b.
Proof. unfold len. rewrite length_app. lia. Qed.

Lemma len_nonneg {A : Type} (a : list A) : 0 <= len a.
Proof. unfold len. lia. Qed.

Lemma slice_app_r {A : Type} (pre l : list A) (lo hi : Z) :
  0 <= lo -> slice (pre ++ l) (len pre + lo) (len pre + hi) = slice l lo hi.
Proof.
  intros Hlo. unfold slice, len.
  replace (Z.of_nat (length pre) + hi - (Z.of_nat (length pre) + lo))
    with (hi - lo) by lia.
  replace (Z.to_nat (Z.of_nat (length pre) + lo))
    with (length pre + Z.to_nat lo)%nat by lia.
  rewrite skipn_app.
  rewrite skipn_all2 by lia.
  replace (length pre + Z.to_nat lo - length pre)%nat with (Z.to_nat lo) by lia.
  reflexivity.
Qed.

Lemma slice_prefix {A : Type} (x post : list A) (hi : Z) :
  hi = len x -> slice (x ++ post) 0 hi = x.
Proof.
  intros ->. unfold slice, len. simpl.
  replace (Z.to_nat (Z.of_nat (length x) - 0)) with (length x + 0)%nat by lia.
  rewrite firstn_app_2. simpl. apply app_nil_r.
Qed.

(** The slice that covers exactly the piece [x] of [pre ++ x ++ post]. *)
Lemma slice_at {A : Type} (pre x post : list A) (lo hi : Z) :
  lo = len pre -> hi = lo + len x -> slice (pre ++ x ++ post) lo hi = x.
Proof.
  intros -> ->.
  replace (len pre) with (len pre + 0) at 1 by lia.
  rewrite slice_app_r by lia. apply slice_prefix. reflexivity.
Qed.

Lemma slice_all {A : Type} (x : list A) (hi : Z) :
  hi = len x -> slice x 0 hi = x.
Proof.
  intros H. rewrite <- (app_nil_r x) at 1. apply slice_prefix. exact H.
Qed.

Lemma unpack_pack_I (v : Z) :
  0 <= v < 2 ^ 32 -> unpack_I (le_split 4 v) = OK v.
Proof.
  intros Hv. unfold unpack_I. rewrite length_le_split. simpl.
  rewrite le_combine_split. f_equal. apply Z.mod_small. exact Hv.
Qed.

Lemma pack_I_ok (v : Z) : 0 <= v < 2 ^ 32 -> pack_I v = OK (le_split 4 v).
Proof.
  intros Hv. unfold pack_I.
  replace ((0 <=? v) && (v <? 2 ^ 32)) with true; [reflexivity |].
  symmetry. apply andb_true_intro. split; [apply Z.leb_le | apply Z.ltb_lt]; lia.
Qed.

Lemma unpack_I_nonneg (b : bytes) (v : Z) : unpack_I b = OK v -> 0 <= v.
Proof.
  unfold unpack_I. destruct (length b =? 4)%nat; [| discriminate].
  intros H. inversion H. pose proof (le_combine_bound b). lia.
Qed.

(** *** The chunk loop *)

(** The loop ends before the fuel does. *)
Lemma parse_loop_terminates (fuel : nat) :
  forall (data : bytes) (pos : Z),
    (Z.to_nat (len data - pos) < fuel)%nat ->
    parse_loop fuel data pos <> None.
Proof.
  induction fuel as [| fuel IH]; intros data pos Hfuel; [lia |].
  simpl. destruct (pos <? len data) eqn:Hlt; [| discriminate].
  destruct (len data <? pos + 12) eqn:Hshort; [discriminate |].
  destruct (unpack_I (slice data (pos + 4) (pos + 8))) as [n |] eqn:Hn;
    [| discriminate].
  apply unpack_I_nonneg in Hn.
  apply Z.ltb_ge in Hshort.
  specialize (IH data (pos + 12 + n) ltac:(lia)).
  destruct (parse_loop fuel data (pos + 12 + n)) as [[chunks | e] |];
    congruence.
Qed.

Lemma parse_chunks_spec (data : bytes) :
  parse_loop (S (length data)) data 8 = Some (parse_chunks data).
Proof.
  unfold parse_chunks.
  destruct (parse_loop (S (length data)) data 8) eqn:E; [reflexivity |].
  exfalso. revert E. apply parse_loop_terminates. unfold len. lia.
Qed.

(** More fuel does not change a result. *)
Lemma parse_loop_more_fuel (fuel : nat) :
  forall (data : bytes) (pos : Z) (r : result (list chunk)) (fuel' : nat),
    parse_loop fuel data pos = Some r -> (fuel <= fuel')%nat ->
    parse_loop fuel' data pos = Some r.
Proof.
  induction fuel as [| fuel IH]; intros data pos r fuel' Hr Hle; [discriminate |].
  destruct fuel' as [| fuel']; [lia |].
  simpl in *. destruct (pos <? len data); [| exact Hr].
  destruct (len data <? pos + 12); [exact Hr |].
  destruct (unpack_I (slice data (pos + 4) (pos + 8))) as [n |]; [| exact Hr].
  destruct (parse_loop fuel data (pos + 12 + n)) as [r0 |] eqn:E; [| discriminate].
  rewrite (IH data (pos + 12 + n) r0 fuel' E ltac:(lia)). exact Hr.
Qed.

(** The bytes of one chunk in the stream: a 4-byte tag, the content size,
    the 4 bytes of the children size, and the content. *)
Record raw_chunk : Type := mkRaw {
  tag : bytes;
  children_size : bytes;
  body : bytes
}.

Definition well_laid (c : raw_chunk) : Prop :=
  length (tag c) = 4%nat /\ length (children_size c) = 4%nat
  /\ len (body c) < 2 ^ 32.

Definition layout (c : raw_chunk) : bytes :=
  tag c ++ le_split 4 (len (body c)) ++ children_size c ++ body c.

Definition parsed (c : raw_chunk) : chunk :=
  mkChunk (decode_ascii_replace (tag c)) (body c).

Lemma len_layout (c : raw_chunk) :
  well_laid c -> len (layout c) = 12 + len (body c).
Proof.
  intros (Ht & Hc & _). unfold layout. rewrite !len_app. unfold len.
  rewrite Ht, Hc, length_le_split. lia.
Qed.

(** A stream of complete chunks followed by fewer than 12 bytes parses to
    these chunks. *)
Lemma parse_loop_layout (cs : list raw_chunk) :
  forall (pre tail : bytes) (fuel : nat),
    Forall well_laid cs -> (length tail < 12)%nat -> (length cs < fuel)%nat ->
    parse_loop fuel (pre ++ flat_map layout cs ++ tail) (len pre)
    = Some (OK (map parsed cs)).
Proof.
  induction cs as [| c cs IH]; intros pre tail fuel Hwf Htail Hfuel.
  - destruct fuel as [| fuel]; [lia |]. simpl.
    rewrite len_app.
    destruct (len pre <? len pre + len tail) eqn:E1; [| reflexivity].
    replace (len pre + len tail <? len pre + 12) with true; [reflexivity |].
    symmetry. apply Z.ltb_lt. unfold len. lia.
  - destruct fuel as [| fuel]; [simpl in Hfuel; lia |].
    inversion Hwf as [| ? ? Hc Hcs]; subst.
    pose proof (len_layout c Hc) as Hlen.
    pose proof (len_nonneg (body c)) as Hbody.
    destruct Hc as (Ht & Hch & Hsz).
    cbn [parse_loop flat_map map].
    set (data := pre ++ (layout c ++ flat_map layout cs) ++ tail).
    assert (Hdata : len data = len pre + (12 + len (body c))
                               + len (flat_map layout cs ++ tail)).
    { unfold data. rewrite <- app_assoc, !len_app. lia. }
    pose proof (len_nonneg (flat_map layout cs ++ tail)) as Hrest.
    replace (len pre <? len data) with true by (symmetry; apply Z.ltb_lt; lia).
    replace (len data <? len pre + 12) with false
      by (symmetry; apply Z.ltb_ge; lia).
    assert (Htag : slice data (len pre) (len pre + 4) = tag c).
    { unfold data, layout. rewrite <- !app_assoc.
      apply slice_at; [reflexivity |]. unfold len. rewrite Ht. lia. }
    assert (Hsize : slice data (len pre + 4) (len pre + 8)
                    = le_split 4 (len (body c))).
    { unfold data, layout. rewrite <- !app_assoc.
      rewrite (app_assoc pre (tag c)).
      apply slice_at.
      - rewrite len_app. unfold len. rewrite Ht. lia.
      - unfold len. rewrite length_le_split. lia. }
    assert (Hbodyslice : slice data (len pre + 12) (len pre + 12 + len (body c))
                         = body c).
    { unfold data, layout. rewrite <- !app_assoc.
      rewrite (app_assoc pre (tag c)).
      rewrite (app_assoc (pre ++ tag c)).
      rewrite (app_assoc ((pre ++ tag c) ++ _)).
      apply slice_at; [| reflexivity].
      rewrite !len_app. unfold len. rewrite Ht, Hch, length_le_split. lia. }
    rewrite Htag, Hsize, unpack_pack_I by lia.
    rewrite Hbodyslice.
    replace (len pre + 12 + len (body c)) with (len (pre ++ layout c))
      by (rewrite len_app; lia).
    replace data with ((pre ++ layout c) ++ flat_map layout cs ++ tail)
      by (unfold data; rewrite <- !app_assoc; reflexivity).
    rewrite (IH (pre ++ layout c) tail fuel Hcs Htail ltac:(simpl in Hfuel; lia)).
    reflexivity.
Qed.

Lemma length_flat_layout (cs : list raw_chunk) :
  Forall well_laid cs -> (length cs <= length (flat_map layout cs))%nat.
Proof.
  induction 1 as [| c cs Hc _ IH]; simpl; [lia |].
  rewrite length_app. pose proof (len_layout c Hc) as Hl.
  pose proof (len_nonneg (body c)). unfold len in *. lia.
Qed.

Definition VOX_MAGIC : bytes := list_byte_of_string "VOX ".

Lemma parse_chunks_layout (header : bytes) (cs : list raw_chunk) (tail : bytes) :
  length header = 8%nat -> Forall well_laid cs -> (length tail < 12)%nat ->
  parse_chunks (header ++ flat_map layout cs ++ tail) = OK (map parsed cs).
Proof.
  intros Hh Hcs Htail.
  pose proof (parse_chunks_spec (header ++ flat_map layout cs ++ tail)) as Hspec.
  replace 8 with (len header) in Hspec by (unfold len; rewrite Hh; reflexivity).
  rewrite parse_loop_layout in Hspec; trivial.
  - inversion Hspec. reflexivity.
  - pose proof (length_flat_layout cs Hcs). rewrite !length_app. lia.
Qed.

(** The versions that [read_vox_scene] prints a warning for. *)
Definition warned (version : Z) : list Z :=
  if negb ((version =? 150) || (version =? 200)) then [version] else [].

Lemma read_vox_scene_header (int : str -> result Z) (v body : bytes) :
  length v = 4%nat ->
  read_vox_scene int (VOX_MAGIC ++ v ++ body)
  = (warned (le_combine v),
     chunks <- parse_chunks (VOX_MAGIC ++ v ++ body);; scene_of_chunks int chunks).
Proof.
  intros Hv. unfold read_vox_scene. cbv zeta.
  replace (slice (VOX_MAGIC ++ v ++ body) 0 4) with VOX_MAGIC
    by (symmetry; apply slice_prefix; reflexivity).
  replace (slice (VOX_MAGIC ++ v ++ body) 4 8) with v
    by (symmetry; apply slice_at; [reflexivity | unfold len; rewrite Hv; lia]).
  destruct (list_eq_dec Byte.byte_eq_dec VOX_MAGIC (list_byte_of_string "VOX "))
    as [_ | Hne]; [| exfalso; apply Hne; reflexivity].
  unfold unpack_I. rewrite Hv. reflexivity.
Qed.

(** Reading a stream of complete chunks, with fewer than 12 bytes left
    after the last one. *)
Lemma read_vox_scene_layout (int : str -> result Z) (v : bytes)
  (cs : list raw_chunk) (tail : bytes) :
  length v = 4%nat -> Forall well_laid cs -> (length tail < 12)%nat ->
  read_vox_scene int (VOX_MAGIC ++ v ++ flat_map layout cs ++ tail)
  = (warned (le_combine v), scene_of_chunks int (map parsed cs)).
Proof.
  intros Hv Hcs Htail. rewrite read_vox_scene_header by exact Hv.
  rewrite (app_assoc VOX_MAGIC v).
  rewrite parse_chunks_layout; trivial.
  rewrite length_app, Hv. reflexivity.
Qed.

Lemma read_vox_scene_bad_magic (int : str -> result Z) (data : bytes) :
  slice data 0 4 <> VOX_MAGIC ->
  read_vox_scene int data = ([], Raise ValueError).
Proof.
  intros Hne. unfold read_vox_scene.
  destruct (list_eq_dec Byte.byte_eq_dec (slice data 0 4)
              (list_byte_of_string "VOX ")) as [E | _]; [| reflexivity].
  exfalso. apply Hne. exact E.
Qed.

(** The chunk loop does not look at the bytes before its position. *)
Lemma parse_loop_header (fuel : nat) :
  forall (h1 h2 body : bytes) (pos : Z),
    length h1 = length h2 -> len h1 <= pos ->
    parse_loop fuel (h1 ++ body) pos = parse_loop fuel (h2 ++ body) pos.
Proof.
  induction fuel as [| fuel IH]; intros h1 h2 body pos Hlen Hpos; [reflexivity |].
  assert (Hl : len h2 = len h1) by (unfold len; rewrite Hlen; reflexivity).
  assert (Hs : forall lo hi, len h1 <= lo ->
               slice (h1 ++ body) lo hi = slice (h2 ++ body) lo hi).
  { intros lo hi Hlo.
    replace lo with (len h1 + (lo - len h1)) at 1 by lia.
    replace hi with (len h1 + (hi - len h1)) at 1 by lia.
    rewrite slice_app_r by lia.
    replace lo with (len h2 + (lo - len h1)) at 2 by lia.
    replace hi with (len h2 + (hi - len h1)) at 2 by lia.
    rewrite slice_app_r by lia. reflexivity. }
  cbn [parse_loop]. rewrite !len_app, Hl.
  destruct (pos <? len h1 + len body); [| reflexivity].
  destruct (len h1 + len body <? pos + 12); [reflexivity |].
  rewrite (Hs pos (pos + 4)), (Hs (pos + 4) (pos + 8)) by lia.
  destruct (unpack_I (slice (h2 ++ body) (pos + 4) (pos + 8))) as [n |] eqn:Hn;
    [| reflexivity].
  apply unpack_I_nonneg in Hn.
  rewrite (Hs (pos + 12) (pos + 12 + n)) by lia.
  rewrite (IH h1 h2 body (pos + 12 + n) Hlen ltac:(lia)). reflexivity.
Qed.

Lemma parse_chunks_header (h1 h2 body : bytes) :
  length h1 = 8%nat -> length h2 = 8%nat ->
  parse_chunks (h1 ++ body) = parse_chunks (h2 ++ body).
Proof.
  intros H1 H2. unfold parse_chunks. rewrite !length_app, H1, H2.
  rewrite (parse_loop_header _ h1 h2 body 8); [reflexivity | lia |].
  unfold len. rewrite H1. lia.
Qed.

(** With the magic in place the version field only decides the warning:
    the outcome is the one the same stream has with version 150, and a
    stream of complete chunks gives the scene of its chunk list. *)
Lemma version_field_only_warns (int : str -> result Z) (version : Z)
  (body : bytes) :
  0 <= version < 2 ^ 32 ->
  (forall data, slice data 0 4 <> VOX_MAGIC ->
                read_vox_scene int data = ([], Raise ValueError))
  /\ read_vox_scene int (VOX_MAGIC ++ le_split 4 version ++ body)
     = (warned version,
        snd (read_vox_scene int (VOX_MAGIC ++ le_split 4 150 ++ body)))
  /\ (version <> 150 -> version <> 200 -> warned version = [version])
  /\ warned 150 = [] /\ warned 200 = [] /\ warned 999 = [999]
  /\ (forall cs tail, Forall well_laid cs -> (length tail < 12)%nat ->
        body = flat_map layout cs ++ tail ->
        snd (read_vox_scene int (VOX_MAGIC ++ le_split 4 version ++ body))
        = scene_of_chunks int (map parsed cs)).
Proof.
  intros Hv. split; [| split; [| split; [| repeat split]]].
  - intros data. apply read_vox_scene_bad_magic.
  - rewrite !read_vox_scene_header by apply length_le_split.
    rewrite le_combine_split. change (Z.of_nat 4 * 8) with 32.
    rewrite Z.mod_small by exact Hv. simpl snd.
    rewrite !(app_assoc VOX_MAGIC).
    rewrite (parse_chunks_header (VOX_MAGIC ++ le_split 4 version)
               (VOX_MAGIC ++ le_split 4 150) body);
      try reflexivity; rewrite length_app, length_le_split; reflexivity.
  - intros H1 H2. unfold warned.
    replace (version =? 150) with false by (symmetry; apply Z.eqb_neq; exact H1).
    replace (version =? 200) with false by (symmetry; apply Z.eqb_neq; exact H2).
    reflexivity.
  - intros cs tail Hcs Htail ->.
    rewrite read_vox_scene_layout; trivial; apply length_le_split.
Qed.

(** *** Short trailing bytes *)

(** The stream of C9's counterexample: header, a SIZE chunk, an XYZI chunk
    and the three bytes "SIZ" of a chunk header cut short. *)
Definition truncated_stream : bytes :=
  list_byte_of_string "VOX " ++ [Byte.x96; Byte.x00; Byte.x00; Byte.x00]
  ++ list_byte_of_string "SIZE"
  ++ [Byte.x0c; Byte.x00; Byte.x00; Byte.x00; Byte.x00; Byte.x00; Byte.x00; Byte.x00;
      Byte.x02; Byte.x00; Byte.x00; Byte.x00; Byte.x02; Byte.x00; Byte.x00; Byte.x00;
      Byte.x02; Byte.x00; Byte.x00; Byte.x00]
  ++ list_byte_of_string "XYZI"
  ++ [Byte.x08; Byte.x00; Byte.x00; Byte.x00; Byte.x00; Byte.x00; Byte.x00; Byte.x00;
      Byte.x01; Byte.x00; Byte.x00; Byte.x00; Byte.x00; Byte.x00; Byte.x00; Byte.x01]
  ++ list_byte_of_string "SIZ".

(** C9, as the claim states it, fails: with three bytes left after the XYZI
    chunk the read does not raise; it returns the scene built from the two
    chunks parsed so far. *)
Lemma short_header_returns_a_scene :
  read_vox_scene int_ascii truncated_stream
  = ([], OK (mkScene [mkModel 2 2 2 [(0, 0, 0, 1)] (0, 0, 0) 0 []]
                     get_default_palette
                     [(0, (0, 0, 0), 0, lit "Model_0")]))
  /\ ~ (exists e, snd (read_vox_scene int_ascii truncated_stream) = Raise e).
Proof.
  assert (E : read_vox_scene int_ascii truncated_stream
              = ([], OK (mkScene [mkModel 2 2 2 [(0, 0, 0, 1)] (0, 0, 0) 0 []]
                                 get_default_palette
                                 [(0, (0, 0, 0), 0, lit "Model_0")])))
    by (vm_compute; reflexivity).
  split; [exact E |]. rewrite E. intros [e He]. discriminate He.
Qed.

(** C9, amended. A truncated or short chunk header is not fatal: for every
    byte stream with valid magic whose remaining bytes after the last
    complete chunk are more than zero but fewer than the 12 bytes of a chunk
    header, the read stops there without an error of its own and returns
    what it returns for the stream without those bytes: the scene built
    from the chunks parsed so far. *)
Theorem short_header_is_ignored (int : str -> result Z) (v : bytes)
  (cs : list raw_chunk) (tail : bytes) :
  length v = 4%nat -> Forall well_laid cs -> (0 < length tail < 12)%nat ->
  read_vox_scene int (VOX_MAGIC ++ v ++ flat_map layout cs ++ tail)
  = read_vox_scene int (VOX_MAGIC ++ v ++ flat_map layout cs)
  /\ snd (read_vox_scene int (VOX_MAGIC ++ v ++ flat_map layout cs ++ tail))
     = scene_of_chunks int (map parsed cs).
Proof.
  intros Hv Hcs [_ Htail].
  rewrite (read_vox_scene_layout int v cs tail Hv Hcs Htail).
  rewrite <- (app_nil_r (flat_map layout cs)).
  rewrite (read_vox_scene_layout int v cs [] Hv Hcs ltac:(simpl; lia)).
  split; reflexivity.
Qed.

Lemma short_header_is_ignored_witness :
  let v := [Byte.x96; Byte.x00; Byte.x00; Byte.x00] in
  let cs := [mkRaw (list_byte_of_string "SIZE")
               [Byte.x00; Byte.x00; Byte.x00; Byte.x00]
               [Byte.x02; Byte.x00; Byte.x00; Byte.x00; Byte.x02; Byte.x00;
                Byte.x00; Byte.x00; Byte.x02; Byte.x00; Byte.x00; Byte.x00]] in
  read_vox_scene int_ascii
    (VOX_MAGIC ++ v ++ flat_map layout cs ++ list_byte_of_string "XYZ")
  = read_vox_scene int_ascii (VOX_MAGIC ++ v ++ flat_map layout cs).
Proof.
  intros v cs.
  refine (proj1 (short_header_is_ignored int_ascii v cs
                   (list_byte_of_string "XYZ") eq_refl _ _)).
  - repeat constructor.
  - simpl. lia.
Defined.

(** *** The first pass: sizes, voxels and palette *)

Definition has_id (s : string) (c : chunk) : bool := str_eqb (id c) (lit s).

(** The last chunk of the list that carries the id [s]. *)
Fixpoint last_with (s : string) (chunks : list chunk) : option chunk :=
  match chunks with
  | [] => None
  | c :: t =>
      match last_with s t with
      | Some c' => Some c'
      | None => if has_id s c then Some c else None
      end
  end.

Lemma str_eqb_eq (a b : str) : str_eqb a b = true <-> a = b.
Proof.
  unfold str_eqb. destruct (list_eq_dec Z.eq_dec a b); split; congruence.
Qed.

Lemma has_id_exclusive (s s' : string) (c : chunk) :
  lit s <> lit s' -> has_id s c = true -> has_id s' c = false.
Proof.
  unfold has_id. intros Hne H. apply str_eqb_eq in H.
  destruct (str_eqb (id c) (lit s')) eqn:E; [| reflexivity].
  apply str_eqb_eq in E. congruence.
Qed.

(** The four ways one turn of the first pass goes. *)
Lemma extract_step_cases (st st' : extract_state) (c : chunk) :
  extract_step st c = OK st' ->
  (has_id "SIZE" c = true /\ has_id "RGBA" c = false
   /\ exists dims, read_SIZE (content c) = OK dims
      /\ st' = mkExtract (st_models st) (Some dims) (st_palette st))
  \/ (has_id "SIZE" c = false /\ has_id "XYZI" c = true /\ has_id "RGBA" c = false
      /\ exists voxels, read_XYZI (content c) = OK voxels
         /\ st' = match st_current_size st with
                  | Some (sx, sy, sz) =>
                      mkExtract
                        (st_models st ++ [mkModel sx sy sz voxels (0, 0, 0) 0 []])
                        (st_current_size st) (st_palette st)
                  | None => st
                  end)
  \/ (has_id "SIZE" c = false /\ has_id "XYZI" c = false /\ has_id "RGBA" c = true
      /\ exists palette, read_RGBA (content c) = OK palette
         /\ st' = mkExtract (st_models st) (st_current_size st) palette)
  \/ (has_id "SIZE" c = false /\ has_id "XYZI" c = false /\ has_id "RGBA" c = false
      /\ st' = st).
Proof.
  unfold extract_step. fold (has_id "SIZE" c) (has_id "XYZI" c) (has_id "RGBA" c).
  destruct (has_id "SIZE" c) eqn:Hs.
  { intros H. left. split; [reflexivity |].
    split; [apply (has_id_exclusive "SIZE" "RGBA" c); [discriminate | exact Hs] |].
    destruct (read_SIZE (content c)) as [[[sx sy] sz] |]; [| discriminate].
    inversion H. eauto. }
  destruct (has_id "XYZI" c) eqn:Hx.
  { intros H. right. left. repeat split.
    - apply (has_id_exclusive "XYZI" "RGBA" c); [discriminate | exact Hx].
    - destruct (read_XYZI (content c)) as [voxels |]; [| discriminate].
      exists voxels. split; [reflexivity |]. simpl in H.
      destruct (st_current_size st) as [[[sx sy] sz] |]; inversion H; reflexivity. }
  destruct (has_id "RGBA" c) eqn:Hr.
  { intros H. right. right. left. repeat split.
    destruct (read_RGBA (content c)) as [palette |]; [| discriminate].
    inversion H. eauto. }
  intros H. right. right. right. inversion H. auto.
Qed.

Lemma extract_loop_app (a b : list chunk) :
  forall st, extract_loop st (a ++ b) = (st' <- extract_loop st a;; extract_loop st' b).
Proof.
  induction a as [| c a IH]; intros st; simpl; [reflexivity |].
  destruct (extract_step st c) as [st1 |]; simpl; [apply IH | reflexivity].
Qed.

(** The palette after the first pass is the one of the last RGBA chunk,
    or the one it started with. *)
Lemma extract_loop_palette (chunks : list chunk) :
  forall st st', extract_loop st chunks = OK st' ->
    match last_with "RGBA" chunks with
    | Some c => read_RGBA (content c)
    | None => OK (st_palette st)
    end = OK (st_palette st').
Proof.
  induction chunks as [| c chunks IH]; intros st st' H; simpl in *.
  - inversion H. reflexivity.
  - destruct (extract_step st c) as [st1 |] eqn:Hstep; [| discriminate].
    simpl in H. specialize (IH st1 st' H).
    destruct (last_with "RGBA" chunks) as [c' |]; [exact IH |].
    destruct (extract_step_cases st st1 c Hstep)
      as [(_ & Hr & dims & _ & ->) | [(_ & _ & Hr & voxels & _ & ->)
         | [(_ & _ & Hr & palette & Hp & ->) | (_ & _ & Hr & ->)]]];
      rewrite Hr; try exact IH.
    + destruct (st_current_size st) as [[[sx sy] sz] |]; exact IH.
    + rewrite Hp. exact IH.
Qed.

Lemma palette_loop_length (n : nat) :
  forall i content p0 p,
    palette_loop n i content p0 = OK p -> length p = (length p0 + n)%nat.
Proof.
  induction n as [| n IH]; intros i content p0 p H; simpl in H.
  - inversion H. lia.
  - destruct (unpack_BBBB (slice content (i * 4) (i * 4 + 4))) as [c |];
      [| discriminate].
    simpl in H. apply IH in H. rewrite length_app in H. simpl in H. lia.
Qed.

(** The palette of the file: the one of its last RGBA chunk, or the
    built-in table. *)
Definition file_palette (chunks : list chunk) : result (list RGBA) :=
  match last_with "RGBA" chunks with
  | Some c => read_RGBA (content c)
  | None => OK get_default_palette
  end.

Lemma file_palette_length (chunks : list chunk) (p : list RGBA) :
  file_palette chunks = OK p -> length p = 256%nat.
Proof.
  unfold file_palette. destruct (last_with "RGBA" chunks) as [c |]; intros H.
  - apply palette_loop_length in H. exact H.
  - inversion H. reflexivity.
Qed.

Lemma scene_of_chunks_inv (int : str -> result Z) (chunks : list chunk)
  (scene : VoxScene) :
  scene_of_chunks int chunks = OK scene ->
  exists st, extract_loop extract_init chunks = OK st
             /\ models scene = st_models st /\ palette scene = st_palette st.
Proof.
  unfold scene_of_chunks. intros H.
  destruct (extract_loop extract_init chunks) as [st |]; [| discriminate].
  simpl in H.
  destruct (graph_loop int [] [] chunks) as [[transforms shape_nodes] |];
    [| discriminate].
  simpl in H. inversion H. exists st. auto.
Qed.

Lemma read_vox_scene_inv (int : str -> result Z) (data : bytes) (out : list Z)
  (scene : VoxScene) :
  read_vox_scene int data = (out, OK scene) ->
  slice data 0 4 = VOX_MAGIC
  /\ exists chunks, parse_chunks data = OK chunks
                    /\ scene_of_chunks int chunks = OK scene.
Proof.
  unfold read_vox_scene. cbv zeta.
  destruct (list_eq_dec Byte.byte_eq_dec (slice data 0 4)
              (list_byte_of_string "VOX ")) as [E | _]; [| discriminate].
  simpl negb. cbv iota.
  destruct (unpack_I (slice data 4 8)) as [version |]; [| discriminate].
  intros H. inversion H as [[Hout Hscene]]. split; [exact E |].
  destruct (parse_chunks data) as [chunks |]; [| discriminate].
  exists chunks. auto.
Qed.

(** C10, as the claim states it, fails: the 4-byte stream 'VOX ' has the
    magic and no SIZE/XYZI pair, and [read_vox_file] raises on it, since
    there is no version field to unpack. *)
Lemma magic_alone_raises :
  slice (list_byte_of_string "VOX ") 0 4 = VOX_MAGIC
  /\ read_vox_file int_ascii (list_byte_of_string "VOX ")
     = ([], Raise StructError).
Proof. split; reflexivity. Qed.

(** What [read_vox_file] returns for a scene that has no model: the
    1x1x1 volume without voxels, with the palette of the scene. *)
Lemma read_vox_file_of_empty_scene (int : str -> result Z) (data : bytes)
  (out : list Z) (scene : VoxScene) :
  read_vox_scene int data = (out, OK scene) ->
  models scene = [] ->
  slice data 0 4 = VOX_MAGIC
  /\ read_vox_file int data = (out, OK (mkData 1 1 1 [] (palette scene)))
  /\ length (palette scene) = 256%nat
  /\ exists chunks, parse_chunks data = OK chunks
                    /\ file_palette chunks = OK (palette scene).
Proof.
  intros Hread Hmodels.
  destruct (read_vox_scene_inv int data out scene Hread)
    as (Hmagic & chunks & Hparse & Hscene).
  destruct (scene_of_chunks_inv int chunks scene Hscene)
    as (st & Hext & _ & Hpal).
  pose proof (extract_loop_palette chunks extract_init st Hext) as Hfile.
  fold (file_palette chunks) in Hfile. rewrite <- Hpal in Hfile.
  pose proof (file_palette_length chunks _ Hfile) as Hlen.
  split; [exact Hmagic |]. split; [| split; [exact Hlen | eauto]].
  unfold read_vox_file. rewrite Hread. simpl. rewrite Hmodels.
  destruct (palette scene); [discriminate Hlen | reflexivity].
Qed.

(** *** Pairing of SIZE and XYZI *)











End ReaderFacts.

(** ** Writing and reading back *)

Module RoundTrip.
Import Reader ReaderFacts.

(** *** Groups of four bytes *)

Abbreviation quad := (Z * Z * Z * Z)%type (only parsing).

Definition byte_range (v : Z) : Prop := 0 <= v <= 255.

Definition quad_bytes (q : quad) : Prop :=
  let '(a, b, c, d) := q in
  byte_range a /\ byte_range b /\ byte_range c /\ byte_range d.

Definition enc_quad (q : quad) : bytes :=
  let '(a, b, c, d) := q in [byte.of_Z a; byte.of_Z b; byte.of_Z c; byte.of_Z d].

Lemma pack_B_ok (v : Z) : byte_range v -> pack_B v = OK (byte.of_Z v).
Proof.
  unfold byte_range, pack_B. intros Hv.
  replace ((0 <=? v) && (v <? 256)) with true; [reflexivity |].
  symmetry. apply andb_true_intro. split; [apply Z.leb_le | apply Z.ltb_lt]; lia.
Qed.

Lemma pack_BBBB_ok (a b c d : Z) :
  quad_bytes (a, b, c, d) -> pack_BBBB a b c d = OK (enc_quad (a, b, c, d)).
Proof.
  intros (Ha & Hb & Hc & Hd). unfold pack_BBBB.
  rewrite !pack_B_ok by assumption. reflexivity.
Qed.

Lemma unsigned_of_Z_small (v : Z) :
  byte_range v -> byte.unsigned (byte.of_Z v) = v.
Proof.
  unfold byte_range. intros Hv. rewrite byte.unsigned_of_Z.
  unfold byte.wrap. apply Z.mod_small. change (2 ^ 8) with 256. lia.
Qed.

Lemma unpack_enc_quad (q : quad) :
  quad_bytes q -> unpack_BBBB (enc_quad q) = OK q.
Proof.
  destruct q as [[[a b] c] d]. intros (Ha & Hb & Hc & Hd). simpl.
  rewrite !unsigned_of_Z_small by assumption. reflexivity.
Qed.

Lemma len_enc_quad (q : quad) : len (enc_quad q) = 4.
Proof. destruct q as [[[a b] c] d]. reflexivity. Qed.

Lemma len_flat_enc (l : list quad) : len (flat_map enc_quad l) = 4 * len l.
Proof.
  induction l as [| q l IH]; [reflexivity |].
  cbn [flat_map]. rewrite len_app, len_enc_quad, IH. unfold len. simpl length. lia.
Qed.

(** The four bytes of the element that follows [done]. *)
Lemma slice_quad (pre : bytes) (done : list quad) (v : quad) (rest : list quad)
  (lo : Z) :
  lo = len pre + 4 * len done ->
  slice (pre ++ flat_map enc_quad (done ++ v :: rest)) lo (lo + 4) = enc_quad v.
Proof.
  intros ->. rewrite flat_map_app. cbn [flat_map].
  rewrite (app_assoc pre).
  apply slice_at.
  - rewrite len_app, len_flat_enc. reflexivity.
  - rewrite len_enc_quad. reflexivity.
Qed.

(** *** The loops of the writer *)

Lemma xyzi_loop_ok (vs : list Voxel) :
  forall content0, Forall quad_bytes vs ->
    Writer.xyzi_loop content0 vs = OK (content0 ++ flat_map enc_quad vs).
Proof.
  induction vs as [| [[[x y] z] c] vs IH]; intros content0 Hvs; simpl.
  - rewrite app_nil_r. reflexivity.
  - inversion Hvs as [| ? ? Hv Hvs']; subst.
    rewrite (pack_BBBB_ok x y z c Hv). cbn [bind].
    rewrite (IH _ Hvs'). rewrite <- app_assoc. reflexivity.
Qed.

(** The colour that [get_rgba_chunk] stores at file position [i]. *)
Definition file_entry (self : Writer.VoxPalette) (i : nat) : RGBA :=
  match nth_error (Writer.colors self) (S i) with
  | Some c => c
  | None => (0, 0, 0, 255)
  end.

Lemma file_entry_bytes (self : Writer.VoxPalette) (i : nat) :
  Forall quad_bytes (Writer.colors self) -> quad_bytes (file_entry self i).
Proof.
  intros Hall. unfold file_entry.
  destruct (nth_error (Writer.colors self) (S i)) as [c |] eqn:E.
  - rewrite Forall_forall in Hall. apply Hall. eapply nth_error_In. exact E.
  - unfold quad_bytes, byte_range. lia.
Qed.

Lemma rgba_entry (self : Writer.VoxPalette) (i : nat) :
  (if Z.of_nat i + 1 <? len (Writer.colors self)
   then getitem (Writer.colors self) (Z.of_nat i + 1)
   else OK (0, 0, 0, 255))
  = OK (file_entry self i).
Proof.
  unfold file_entry, getitem.
  replace (Z.to_nat (Z.of_nat i + 1)) with (S i) by lia.
  destruct (Z.of_nat i + 1 <? len (Writer.colors self)) eqn:E.
  - apply Z.ltb_lt in E.
    destruct (nth_error (Writer.colors self) (S i)) as [c |] eqn:En; [reflexivity |].
    apply nth_error_None in En. unfold len in E. lia.
  - apply Z.ltb_ge in E.
    destruct (nth_error (Writer.colors self) (S i)) as [c |] eqn:En; [| reflexivity].
    assert (S i < length (Writer.colors self))%nat
      by (apply nth_error_Some; congruence).
    unfold len in E. lia.
Qed.

Lemma rgba_loop_ok (self : Writer.VoxPalette) :
  Forall quad_bytes (Writer.colors self) ->
  forall (k s : nat) (content0 : bytes),
    Writer.rgba_loop self content0 (map Z.of_nat (seq s k))
    = OK (content0 ++ flat_map enc_quad (map (file_entry self) (seq s k))).
Proof.
  intros Hall. induction k as [| k IH]; intros s content0.
  - simpl. rewrite app_nil_r. reflexivity.
  - cbn [seq map Writer.rgba_loop flat_map]. cbv zeta.
    rewrite rgba_entry. cbn [bind].
    pose proof (file_entry_bytes self s Hall) as Hq.
    destruct (file_entry self s) as [[[r g] b] a].
    rewrite (pack_BBBB_ok r g b a Hq). cbn [bind].
    rewrite IH, <- app_assoc. reflexivity.
Qed.

(** *** The loops of the reader *)

Lemma voxel_loop_ok (pre : bytes) :
  len pre = 4 ->
  forall (rest done acc : list Voxel),
    Forall quad_bytes rest ->
    voxel_loop (length rest) (len done)
               (pre ++ flat_map enc_quad (done ++ rest)) acc
    = OK (acc ++ rest).
Proof.
  intros Hpre. induction rest as [| v rest IH]; intros done acc Hrest.
  - simpl. rewrite app_nil_r. reflexivity.
  - inversion Hrest as [| ? ? Hv Hrest']; subst.
    cbn [length voxel_loop]. cbv zeta.
    rewrite slice_quad by lia.
    rewrite (unpack_enc_quad v Hv). cbn [bind].
    replace (len done + 1) with (len (done ++ [v]))
      by (rewrite len_app; reflexivity).
    replace (done ++ v :: rest) with ((done ++ [v]) ++ rest)
      by (rewrite <- app_assoc; reflexivity).
    rewrite (IH (done ++ [v]) (acc ++ [v]) Hrest').
    rewrite <- app_assoc. reflexivity.
Qed.

Lemma palette_loop_ok :
  forall (rest done acc : list RGBA),
    Forall quad_bytes rest ->
    palette_loop (length rest) (len done)
                 (flat_map enc_quad (done ++ rest)) acc
    = OK (acc ++ rest).
Proof.
  induction rest as [| v rest IH]; intros done acc Hrest.
  - simpl. rewrite app_nil_r. reflexivity.
  - inversion Hrest as [| ? ? Hv Hrest']; subst.
    cbn [length palette_loop]. cbv zeta.
    rewrite (slice_quad [] done v rest)
      by (change (len (@nil byte)) with 0; lia).
    rewrite (unpack_enc_quad v Hv). cbn [bind].
    replace (len done + 1) with (len (done ++ [v]))
      by (rewrite len_app; reflexivity).
    replace (done ++ v :: rest) with ((done ++ [v]) ++ rest)
      by (rewrite <- app_assoc; reflexivity).
    rewrite (IH (done ++ [v]) (acc ++ [v]) Hrest').
    rewrite <- app_assoc. reflexivity.
Qed.

(** *** The chunks of a written file *)

Definition size_content (M : Writer.VoxModel) : bytes :=
  le_split 4 (Writer.size_x M) ++ le_split 4 (Writer.size_y M)
  ++ le_split 4 (Writer.size_z M).

Definition xyzi_content (M : Writer.VoxModel) : bytes :=
  le_split 4 (len (Writer.voxels M)) ++ flat_map enc_quad (Writer.voxels M).

(** The palette as the file stores it: position [i] holds colour [i + 1],
    the last position holds the filler. *)
Definition stored_palette (P : Writer.VoxPalette) : list RGBA :=
  map (file_entry P) (seq 0 256).

Definition rgba_content (P : Writer.VoxPalette) : bytes :=
  flat_map enc_quad (stored_palette P).

Definition leaf (s : string) (content : bytes) : raw_chunk :=
  mkRaw (list_byte_of_string s) (le_split 4 0) content.

Definition written_children (M : Writer.VoxModel) (P : Writer.VoxPalette)
  : list raw_chunk :=
  [leaf "SIZE" (size_content M); leaf "XYZI" (xyzi_content M);
   leaf "RGBA" (rgba_content P)].

Definition written_chunks (M : Writer.VoxModel) (P : Writer.VoxPalette)
  : list raw_chunk :=
  mkRaw (list_byte_of_string "MAIN")
        (le_split 4 (len (flat_map layout (written_children M P)))) []
  :: written_children M P.

Definition u32 (v : Z) : Prop := 0 <= v < 2 ^ 32.

(** What the codec needs of a model and a palette: sizes and voxel count
    that fit their 32-bit fields, voxels and colours that fit in bytes. *)
Definition writable (M : Writer.VoxModel) (P : Writer.VoxPalette) : Prop :=
  u32 (Writer.size_x M) /\ u32 (Writer.size_y M) /\ u32 (Writer.size_z M)
  /\ len (Writer.voxels M) <= 2 ^ 24
  /\ Forall quad_bytes (Writer.voxels M)
  /\ Forall quad_bytes (Writer.colors P).

Lemma len_size_content (M : Writer.VoxModel) : len (size_content M) = 12.
Proof.
  unfold size_content. rewrite !len_app. unfold len.
  rewrite !length_le_split. reflexivity.
Qed.

Lemma len_xyzi_content (M : Writer.VoxModel) :
  len (xyzi_content M) = 4 + 4 * len (Writer.voxels M).
Proof.
  unfold xyzi_content. rewrite len_app, len_flat_enc. unfold len at 1.
  rewrite length_le_split. reflexivity.
Qed.

Lemma len_stored_palette (P : Writer.VoxPalette) : len (stored_palette P) = 256.
Proof.
  unfold stored_palette, len. rewrite length_map, length_seq. reflexivity.
Qed.

Lemma len_rgba_content (P : Writer.VoxPalette) : len (rgba_content P) = 1024.
Proof.
  unfold rgba_content. rewrite len_flat_enc, len_stored_palette. reflexivity.
Qed.

Lemma len_leaf (s : string) (content : bytes) :
  length (list_byte_of_string s) = 4%nat ->
  len (layout (leaf s content)) = 12 + len content.
Proof.
  intros Hs. unfold layout, leaf. simpl tag. simpl children_size. simpl body.
  rewrite !len_app. unfold len. rewrite Hs, !length_le_split. lia.
Qed.

Lemma len_written_children (M : Writer.VoxModel) (P : Writer.VoxPalette) :
  len (flat_map layout (written_children M P))
  = 1076 + 4 * len (Writer.voxels M).
Proof.
  unfold written_children. cbn [flat_map]. rewrite app_nil_r, !len_app.
  rewrite !len_leaf by reflexivity.
  rewrite len_size_content, len_xyzi_content, len_rgba_content. lia.
Qed.

Lemma to_bytes_ok (s : string) (content children : bytes) :
  encode_ascii (lit s) = OK (list_byte_of_string s) ->
  u32 (len content) -> u32 (len children) ->
  Writer.to_bytes (Writer.mkChunk (lit s) content children)
  = OK (list_byte_of_string s ++ le_split 4 (len content)
          ++ le_split 4 (len children) ++ content ++ children).
Proof.
  intros Hs Hc Hch. unfold Writer.to_bytes. cbn [Writer.chunk_id Writer.content Writer.children].
  rewrite Hs. cbn [bind]. rewrite !pack_I_ok by assumption. reflexivity.
Qed.

Lemma to_bytes_leaf (s : string) (content : bytes) :
  encode_ascii (lit s) = OK (list_byte_of_string s) ->
  u32 (len content) ->
  Writer.to_bytes (Writer.mkChunk (lit s) content []) = OK (layout (leaf s content)).
Proof.
  intros Hs Hc. rewrite to_bytes_ok; trivial.
  - unfold layout, leaf. cbn [tag children_size body]. rewrite app_nil_r.
    reflexivity.
  - unfold u32. change (len (@nil byte)) with 0. split; [lia | reflexivity].
Qed.

(** The bytes that [write] puts in the file. *)
Lemma write_bytes (M : Writer.VoxModel) (P : Writer.VoxPalette) :
  writable M P ->
  Writer.write (Writer.mkWriter [M] P)
  = (VOX_MAGIC ++ le_split 4 150 ++ flat_map layout (written_chunks M P), OK tt).
Proof.
  intros (Hx & Hy & Hz & Hn & Hvox & Hcol).
  pose proof (len_nonneg (Writer.voxels M)) as Hn0.
  assert (H24 : 2 ^ 24 = 16777216) by reflexivity.
  assert (H32 : 2 ^ 32 = 4294967296) by reflexivity.
  assert (Hsize : Writer.get_size_chunk M
                  = OK (Writer.mkChunk (lit "SIZE") (size_content M) [])).
  { unfold Writer.get_size_chunk, pack_III.
    rewrite !pack_I_ok by assumption. reflexivity. }
  assert (Hxyzi : Writer.get_xyzi_chunk M
                  = OK (Writer.mkChunk (lit "XYZI") (xyzi_content M) [])).
  { unfold Writer.get_xyzi_chunk. rewrite pack_I_ok by (unfold u32; lia).
    cbn [bind]. rewrite (xyzi_loop_ok _ _ Hvox). reflexivity. }
  assert (Hrgba : Writer.get_rgba_chunk P
                  = OK (Writer.mkChunk (lit "RGBA") (rgba_content P) [])).
  { unfold Writer.get_rgba_chunk, Writer.range.
    rewrite (rgba_loop_ok P Hcol 256 0 []). reflexivity. }
  assert (Hmain : Writer.main_chunk_bytes (Writer.mkWriter [M] P)
                  = OK (flat_map layout (written_chunks M P))).
  { unfold Writer.main_chunk_bytes. cbn [Writer.models Writer.palette].
    change (1 <? len [M]) with false. cbv iota. cbn [bind Writer.models_loop].
    rewrite Hsize. cbn [bind].
    rewrite (to_bytes_leaf "SIZE") by
      (try reflexivity; rewrite len_size_content; unfold u32; lia).
    cbn [bind]. rewrite Hxyzi. cbn [bind].
    rewrite (to_bytes_leaf "XYZI") by
      (try reflexivity; rewrite len_xyzi_content; unfold u32; lia).
    cbn [bind]. rewrite Hrgba. cbn [bind].
    rewrite (to_bytes_leaf "RGBA") by
      (try reflexivity; rewrite len_rgba_content; unfold u32; lia).
    cbn [bind].
    assert (Hchildren : (([] ++ layout (leaf "SIZE" (size_content M)))
                           ++ layout (leaf "XYZI" (xyzi_content M)))
                        ++ layout (leaf "RGBA" (rgba_content P))
                        = flat_map layout (written_children M P)).
    { unfold written_children. cbn [flat_map].
      rewrite app_nil_r, <- !app_assoc. reflexivity. }
    rewrite Hchildren.
    rewrite to_bytes_ok.
    - unfold written_chunks. cbn [flat_map].
      set (F := flat_map layout (written_children M P)).
      unfold layout. cbn [tag children_size body].
      rewrite <- !app_assoc. reflexivity.
    - reflexivity.
    - unfold u32. change (len (@nil byte)) with 0. lia.
    - unfold u32. rewrite len_written_children. lia. }
  unfold Writer.write. change (pack_I Writer.VOX_VERSION) with (OK (le_split 4 150)).
  rewrite Hmain. unfold Writer.magic, VOX_MAGIC. rewrite <- app_assoc. reflexivity.
Qed.

(** *** Reading the written chunks *)

Lemma combine_split_u32 (v : Z) : u32 v -> le_combine (le_split 4 v) = v.
Proof.
  intros Hv. rewrite le_combine_split. apply Z.mod_small. exact Hv.
Qed.

Lemma read_SIZE_ok (M : Writer.VoxModel) :
  u32 (Writer.size_x M) -> u32 (Writer.size_y M) -> u32 (Writer.size_z M) ->
  read_SIZE (size_content M)
  = OK (Writer.size_x M, Writer.size_y M, Writer.size_z M).
Proof.
  intros Hx Hy Hz. unfold read_SIZE.
  rewrite slice_all by (rewrite len_size_content; reflexivity).
  unfold unpack_III.
  assert (Hl : length (size_content M) = 12%nat).
  { unfold size_content. rewrite !length_app, !length_le_split. reflexivity. }
  rewrite Hl. cbn [Nat.eqb]. unfold size_content.
  rewrite (slice_prefix (le_split 4 (Writer.size_x M))) by reflexivity.
  rewrite (slice_at (le_split 4 (Writer.size_x M)) (le_split 4 (Writer.size_y M)))
    by reflexivity.
  rewrite <- (app_nil_r (le_split 4 (Writer.size_z M))).
  rewrite (app_assoc (le_split 4 (Writer.size_x M))).
  rewrite (slice_at (le_split 4 (Writer.size_x M) ++ le_split 4 (Writer.size_y M))
             (le_split 4 (Writer.size_z M)) []) by reflexivity.
  rewrite !combine_split_u32 by assumption. reflexivity.
Qed.

Lemma read_XYZI_ok (M : Writer.VoxModel) :
  len (Writer.voxels M) <= 2 ^ 24 ->
  Forall quad_bytes (Writer.voxels M) ->
  read_XYZI (xyzi_content M) = OK (Writer.voxels M).
Proof.
  intros Hn Hvox. unfold read_XYZI, xyzi_content.
  rewrite slice_prefix by reflexivity.
  pose proof (len_nonneg (Writer.voxels M)) as Hn0.
  assert (H24 : 2 ^ 24 = 16777216) by reflexivity.
  assert (H32 : 2 ^ 32 = 4294967296) by reflexivity.
  rewrite unpack_pack_I by lia. cbn [bind].
  replace (Z.to_nat (len (Writer.voxels M))) with (length (Writer.voxels M))
    by (unfold len; lia).
  exact (voxel_loop_ok (le_split 4 (len (Writer.voxels M))) eq_refl
           (Writer.voxels M) [] [] Hvox).
Qed.

Lemma stored_palette_bytes (P : Writer.VoxPalette) :
  Forall quad_bytes (Writer.colors P) -> Forall quad_bytes (stored_palette P).
Proof.
  intros Hcol. unfold stored_palette. apply Forall_forall. intros c Hc.
  apply in_map_iff in Hc. destruct Hc as (i & <- & _).
  apply file_entry_bytes. exact Hcol.
Qed.

Lemma read_RGBA_ok (P : Writer.VoxPalette) :
  Forall quad_bytes (Writer.colors P) ->
  read_RGBA (rgba_content P) = OK (stored_palette P).
Proof.
  intros Hcol. unfold read_RGBA, rgba_content.
  assert (Hl : length (stored_palette P) = 256%nat)
    by (unfold stored_palette; rewrite length_map, length_seq; reflexivity).
  rewrite <- Hl at 1.
  exact (palette_loop_ok (stored_palette P) [] [] (stored_palette_bytes P Hcol)).
Qed.

(** The colour the reader finds for an index is the writer's colour of
    that index. *)
Lemma stored_palette_index (P : Writer.VoxPalette) (index : Z) :
  length (Writer.colors P) = 256%nat -> 1 <= index <= 255 ->
  exists color, getitem (Writer.colors P) index = OK color
                /\ getitem (stored_palette P) (index - 1) = OK color.
Proof.
  intros Hlen Hi. unfold getitem, stored_palette.
  destruct (nth_error (Writer.colors P) (Z.to_nat index)) as [c |] eqn:E.
  - exists c. split; [reflexivity |].
    rewrite nth_error_map.
    rewrite nth_error_seq.
    replace (Z.to_nat (index - 1) <? 256)%nat with true
      by (symmetry; apply Nat.ltb_lt; lia).
    cbn [option_map]. unfold file_entry.
    replace (S (0 + Z.to_nat (index - 1))) with (Z.to_nat index) by lia.
    rewrite E. reflexivity.
  - apply nth_error_None in E. lia.
Qed.

Lemma written_chunks_well_laid (M : Writer.VoxModel) (P : Writer.VoxPalette) :
  len (Writer.voxels M) <= 2 ^ 24 -> Forall well_laid (written_chunks M P).
Proof.
  intros Hn. pose proof (len_nonneg (Writer.voxels M)) as Hn0.
  assert (H24 : 2 ^ 24 = 16777216) by reflexivity.
  assert (H32 : 2 ^ 32 = 4294967296) by reflexivity.
  unfold written_chunks, written_children, leaf, well_laid.
  repeat constructor; cbn [tag children_size body];
    try apply length_le_split;
    rewrite ?len_size_content, ?len_xyzi_content, ?len_rgba_content; lia.
Qed.

Lemma scene_of_written (int : str -> result Z) (M : Writer.VoxModel)
  (P : Writer.VoxPalette) :
  writable M P ->
  scene_of_chunks int (map parsed (written_chunks M P))
  = OK (mkScene
          [mkModel (Writer.size_x M) (Writer.size_y M) (Writer.size_z M)
                   (Writer.voxels M) (0, 0, 0) 0 []]
          (stored_palette P)
          [(0, (0, 0, 0), 0, lit "Model_0")]).
Proof.
  intros (Hx & Hy & Hz & Hn & Hvox & Hcol).
  unfold written_chunks, written_children, leaf. cbn [map]. unfold parsed.
  cbn [tag body].
  change (decode_ascii_replace (list_byte_of_string "MAIN")) with (lit "MAIN").
  change (decode_ascii_replace (list_byte_of_string "SIZE")) with (lit "SIZE").
  change (decode_ascii_replace (list_byte_of_string "XYZI")) with (lit "XYZI").
  change (decode_ascii_replace (list_byte_of_string "RGBA")) with (lit "RGBA").
  unfold scene_of_chunks.
  assert (Hext : extract_loop extract_init
                   [mkChunk (lit "MAIN") []; mkChunk (lit "SIZE") (size_content M);
                    mkChunk (lit "XYZI") (xyzi_content M);
                    mkChunk (lit "RGBA") (rgba_content P)]
                 = OK (mkExtract
                         [mkModel (Writer.size_x M) (Writer.size_y M)
                                  (Writer.size_z M) (Writer.voxels M) (0, 0, 0) 0 []]
                         (Some (Writer.size_x M, Writer.size_y M, Writer.size_z M))
                         (stored_palette P))).
  { cbn [extract_loop].
    change (extract_step extract_init (mkChunk (lit "MAIN") []))
      with (OK extract_init).
    cbn [bind].
    change (extract_step extract_init (mkChunk (lit "SIZE") (size_content M)))
      with ('(sx, sy, sz) <- read_SIZE (size_content M);;
            OK (mkExtract [] (Some (sx, sy, sz)) get_default_palette)).
    rewrite (read_SIZE_ok M Hx Hy Hz). cbn [bind].
    match goal with
    | |- context [extract_step ?st (mkChunk (lit "XYZI") ?c)] =>
        change (extract_step st (mkChunk (lit "XYZI") c))
          with (voxels <- read_XYZI c;;
                OK (mkExtract
                      ([] ++ [mkModel (Writer.size_x M) (Writer.size_y M)
                                      (Writer.size_z M) voxels (0, 0, 0) 0 []])
                      (Some (Writer.size_x M, Writer.size_y M, Writer.size_z M))
                      get_default_palette))
    end.
    rewrite (read_XYZI_ok M Hn Hvox). cbn [bind app].
    match goal with
    | |- context [extract_step ?st (mkChunk (lit "RGBA") ?c)] =>
        change (extract_step st (mkChunk (lit "RGBA") c))
          with (palette <- read_RGBA c;;
                OK (mkExtract (st_models st) (st_current_size st) palette))
    end.
    rewrite (read_RGBA_ok P Hcol). reflexivity. }
  rewrite Hext. reflexivity.
Qed.

(** *** Models and palettes of the data model *)

Definition valid_voxel (v : Voxel) : Prop :=
  let '(x, y, z, color_index) := v in
  WriterFacts.voxel_in_range x y z color_index.

Definition position (v : Voxel) : Z * Z * Z :=
  let '(x, y, z, _) := v in (x, y, z).

(** A VoxelModel: dimensions that fit the 32-bit fields of the SIZE chunk
    (the data model has them between 1 and 256), voxels in range, at most
    one voxel per position. *)
Definition valid_model (M : Writer.VoxModel) : Prop :=
  u32 (Writer.size_x M) /\ u32 (Writer.size_y M) /\ u32 (Writer.size_z M)
  /\ Forall valid_voxel (Writer.voxels M)
  /\ NoDup (map position (Writer.voxels M)).

(** A Palette: 256 entries, every channel between 0 and 255. *)
Definition valid_palette (P : Writer.VoxPalette) : Prop :=
  length (Writer.colors P) = 256%nat /\ Forall quad_bytes (Writer.colors P).

Lemma valid_voxel_bytes (v : Voxel) : valid_voxel v -> quad_bytes v.
Proof.
  destruct v as [[[x y] z] c]. unfold valid_voxel, WriterFacts.voxel_in_range.
  unfold quad_bytes, byte_range. lia.
Qed.

(** The number of the grid cell of a position. *)
Definition cell (p : Z * Z * Z) : nat :=
  let '(x, y, z) := p in Z.to_nat (x + 256 * y + 65536 * z).

(** A model has no more voxels than the grid has cells. *)
Lemma voxel_count (vs : list Voxel) :
  Forall valid_voxel vs -> NoDup (map position vs) -> len vs <= 2 ^ 24.
Proof.
  intros Hvalid Hnd.
  assert (H24 : 2 ^ 24 = 16777216) by reflexivity.
  assert (Hpos : forall p, In p (map position vs) ->
                   let '(x, y, z) := p in
                   0 <= x <= 255 /\ 0 <= y <= 255 /\ 0 <= z <= 255).
  { intros p Hp. apply in_map_iff in Hp. destruct Hp as (v & <- & Hv).
    rewrite Forall_forall in Hvalid. specialize (Hvalid v Hv).
    destruct v as [[[x y] z] c]. simpl. destruct Hvalid as (? & ? & ? & _). auto. }
  assert (Hcells : NoDup (map cell (map position vs))).
  { apply Injective_map_NoDup_in; [| exact Hnd].
    intros [[x1 y1] z1] [[x2 y2] z2] H1 H2 Heq.
    apply Hpos in H1, H2. unfold cell in Heq.
    assert (x1 = x2 /\ y1 = y2 /\ z1 = z2) as (-> & -> & ->) by lia.
    reflexivity. }
  set (N := Z.to_nat (2 ^ 24)).
  assert (Hincl : incl (map cell (map position vs)) (seq 0 N)).
  { intros c Hc. apply in_map_iff in Hc. destruct Hc as ([[x y] z] & <- & Hp).
    apply Hpos in Hp. apply in_seq. unfold cell, N. lia. }
  pose proof (NoDup_incl_length Hcells Hincl) as Hle.
  rewrite !length_map, length_seq in Hle. unfold len, N in *. lia.
Qed.

Lemma valid_writable (M : Writer.VoxModel) (P : Writer.VoxPalette) :
  valid_model M -> valid_palette P -> writable M P.
Proof.
  intros (Hx & Hy & Hz & Hvox & Hnd) (_ & Hcol).
  repeat split; try assumption; try apply Hx; try apply Hy; try apply Hz.
  - apply voxel_count; assumption.
  - eapply Forall_impl; [| exact Hvox]. apply valid_voxel_bytes.
Qed.

(** Writing one model and reading the file back, for every model and
    palette the codec can write. *)
Lemma write_then_read (int : str -> result Z) (M : Writer.VoxModel)
  (P : Writer.VoxPalette) :
  writable M P ->
  exists data,
    Writer.write (Writer.mkWriter [M] P) = (data, OK tt)
    /\ read_vox_scene int data
       = ([], OK (mkScene
                    [mkModel (Writer.size_x M) (Writer.size_y M) (Writer.size_z M)
                             (Writer.voxels M) (0, 0, 0) 0 []]
                    (stored_palette P)
                    [(0, (0, 0, 0), 0, lit "Model_0")])).
Proof.
  intros Hw. eexists. split; [apply write_bytes; exact Hw |].
  rewrite <- (app_nil_r (flat_map layout (written_chunks M P))).
  rewrite read_vox_scene_layout.
  - rewrite (scene_of_written int M P Hw). reflexivity.
  - apply length_le_split.
  - apply written_chunks_well_laid. apply Hw.
  - simpl. lia.
Qed.

(** C1. Round trip through the codec: for every VoxelModel [M] (voxels
    with coordinates in [0,255] and colour indices in [1,255], at most one
    per position) and every Palette [P] (256 colours with channels in
    [0,255]), [VoxWriter.write] succeeds, and [read_vox_scene] on the bytes
    written returns, without a warning, a scene whose single model has the
    size of [M] and the voxels of [M] (the same list, hence the same set),
    and whose palette gives every index 1-255 the colour [P] has for that
    index. *)
Theorem write_read_round_trip (int : str -> result Z) (M : Writer.VoxModel)
  (P : Writer.VoxPalette) :
  valid_model M -> valid_palette P ->
  exists data scene model,
    Writer.write (Writer.mkWriter [M] P) = (data, OK tt)
    /\ read_vox_scene int data = ([], OK scene)
    /\ models scene = [model]
    /\ (size_x model, size_y model, size_z model)
       = (Writer.size_x M, Writer.size_y M, Writer.size_z M)
    /\ voxels model = Writer.voxels M
    /\ (forall v, In v (voxels model) <-> In v (Writer.voxels M))
    /\ read_vox_file int data
       = ([], OK (mkData (size_x model) (size_y model) (size_z model)
                         (voxels model) (palette scene)))
    /\ forall index, 1 <= index <= 255 ->
         exists color,
           getitem (Writer.colors P) index = OK color
           /\ get_voxel_color
                (mkData (size_x model) (size_y model) (size_z model)
                        (voxels model) (palette scene)) index
              = OK color.
Proof.
  intros HM HP.
  destruct (write_then_read int M P (valid_writable M P HM HP))
    as (data & Hwrite & Hread).
  eexists data, _, _. split; [exact Hwrite |]. split; [exact Hread |].
  cbn [models size_x size_y size_z voxels palette].
  split; [reflexivity |]. split; [reflexivity |]. split; [reflexivity |].
  split; [intros v; reflexivity |]. split.
  - unfold read_vox_file. rewrite Hread. reflexivity.
  - intros index Hi. destruct HP as (Hlen & _).
    destruct (stored_palette_index P index Hlen Hi) as (color & Hc & Hs).
    exists color. split; [exact Hc |].
    unfold get_voxel_color. cbn [data_palette].
    replace ((1 <=? index) && (index <=? 255)) with true; [exact Hs |].
    symmetry. apply andb_true_intro. split; apply Z.leb_le; lia.
Qed.

Definition quad_bytes_b (q : quad) : bool :=
  let '(a, b, c, d) := q in
  (0 <=? a) && (a <=? 255) && ((0 <=? b) && (b <=? 255))
  && ((0 <=? c) && (c <=? 255)) && ((0 <=? d) && (d <=? 255)).

Lemma quad_bytes_b_ok (l : list quad) :
  forallb quad_bytes_b l = true -> Forall quad_bytes l.
Proof.
  intros H. apply Forall_forall. intros [[[a b] c] d] Hin.
  rewrite forallb_forall in H. specialize (H _ Hin). unfold quad_bytes_b in H.
  repeat (apply andb_prop in H; destruct H as [H ?]).
  unfold quad_bytes, byte_range. lia.
Qed.

Lemma default_palette_valid : valid_palette Writer.new_palette.
Proof.
  split; [reflexivity |]. apply quad_bytes_b_ok. vm_compute. reflexivity.
Qed.

Lemma write_read_round_trip_witness :
  exists data scene,
    Writer.write (Writer.mkWriter
                    [Writer.mkModel 2 2 2 [(0, 0, 0, 1); (1, 1, 1, 5)]]
                    Writer.new_palette) = (data, OK tt)
    /\ read_vox_scene int_ascii data = ([], OK scene)
    /\ map voxels (models scene) = [[(0, 0, 0, 1); (1, 1, 1, 5)]].
Proof.
  assert (HM : valid_model (Writer.mkModel 2 2 2 [(0, 0, 0, 1); (1, 1, 1, 5)])).
  { unfold valid_model, u32. cbn [Writer.size_x Writer.size_y Writer.size_z Writer.voxels].
    assert (H32 : 2 ^ 32 = 4294967296) by reflexivity.
    repeat split; try lia.
    - repeat constructor; lia.
    - repeat constructor; simpl; intuition congruence. }
  destruct (write_read_round_trip int_ascii _ _ HM default_palette_valid)
    as (data & scene & model & Hw & Hr & Hm & _ & Hv & _).
  exists data, scene. split; [exact Hw |]. split; [exact Hr |].
  rewrite Hm. simpl. rewrite Hv. reflexivity.
Defined.

End RoundTrip.

(** ** More on the scene reader (vox_reader.py) *)

Module SceneFacts.
Import Reader ReaderFacts.

(** The chunk ids that [read_vox_scene] looks for. *)
Definition recognised (c : chunk) : bool :=
  has_id "SIZE" c || has_id "XYZI" c || has_id "RGBA" c
  || has_id "nTRN" c || has_id "nSHP" c.

Lemma recognised_false (c : chunk) :
  recognised c = false ->
  has_id "SIZE" c = false /\ has_id "XYZI" c = false /\ has_id "RGBA" c = false
  /\ has_id "nTRN" c = false /\ has_id "nSHP" c = false.
Proof.
  unfold recognised. intros H.
  repeat (apply orb_false_elim in H; destruct H as [H ?]). auto.
Qed.

Lemma extract_step_unknown (st : extract_state) (c : chunk) :
  recognised c = false -> extract_step st c = OK st.
Proof.
  intros H. destruct (recognised_false c H) as (Hs & Hx & Hr & _).
  unfold extract_step. fold (has_id "SIZE" c) (has_id "XYZI" c) (has_id "RGBA" c).
  rewrite Hs, Hx, Hr. reflexivity.
Qed.

Lemma graph_loop_app (int : str -> result Z) (a b : list chunk) :
  forall transforms shape_nodes,
    graph_loop int transforms shape_nodes (a ++ b)
    = ('(t, s) <- graph_loop int transforms shape_nodes a;; graph_loop int t s b).
Proof.
  induction a as [| c a IH]; intros transforms shape_nodes; [reflexivity |].
  cbn [app graph_loop].
  destruct (str_eqb (id c) (lit "nTRN")).
  - destruct (read_nTRN int (content c) transforms) as [t |]; [apply IH | reflexivity].
  - destruct (str_eqb (id c) (lit "nSHP")).
    + destruct (read_nSHP (content c) shape_nodes) as [s |]; [apply IH | reflexivity].
    + apply IH.
Qed.

Lemma graph_loop_unknown (int : str -> result Z) (c : chunk) (rest : list chunk)
  transforms shape_nodes :
  has_id "nTRN" c = false -> has_id "nSHP" c = false ->
  graph_loop int transforms shape_nodes (c :: rest)
  = graph_loop int transforms shape_nodes rest.
Proof.
  intros Ht Hs. cbn [graph_loop]. fold (has_id "nTRN" c) (has_id "nSHP" c).
  rewrite Ht, Hs. reflexivity.
Qed.

(** A chunk with an id the reader does not look for changes nothing: the
    scene is the one of the chunk list without it. *)
Theorem unknown_chunk_is_skipped (int : str -> result Z) (pre post : list chunk)
  (c : chunk) :
  recognised c = false ->
  scene_of_chunks int (pre ++ c :: post) = scene_of_chunks int (pre ++ post).
Proof.
  intros H. destruct (recognised_false c H) as (_ & _ & _ & Ht & Hs).
  unfold scene_of_chunks.
  rewrite !extract_loop_app. cbn [extract_loop].
  rewrite !graph_loop_app.
  assert (He : forall st, (st' <- extract_step st c;; extract_loop st' post)
                          = extract_loop st post).
  { intros st. rewrite (extract_step_unknown st c H). reflexivity. }
  destruct (extract_loop extract_init pre) as [st |]; [| reflexivity].
  cbn [bind]. rewrite He.
  destruct (extract_loop st post) as [st' |]; [| reflexivity].
  cbn [bind].
  destruct (graph_loop int [] [] pre) as [[t s] |]; [| reflexivity].
  cbn [bind]. rewrite (graph_loop_unknown int c post t s Ht Hs). reflexivity.
Qed.

Lemma unknown_chunk_is_skipped_witness :
  scene_of_chunks int_ascii
    ([mkChunk (lit "SIZE")
        [Byte.x02; Byte.x00; Byte.x00; Byte.x00; Byte.x02; Byte.x00;
         Byte.x00; Byte.x00; Byte.x02; Byte.x00; Byte.x00; Byte.x00]]
     ++ mkChunk (lit "NOTE") [Byte.x01] :: [])
  = scene_of_chunks int_ascii
      ([mkChunk (lit "SIZE")
          [Byte.x02; Byte.x00; Byte.x00; Byte.x00; Byte.x02; Byte.x00;
           Byte.x00; Byte.x00; Byte.x02; Byte.x00; Byte.x00; Byte.x00]] ++ []).
Proof.
  exact (unknown_chunk_is_skipped int_ascii _ [] (mkChunk (lit "NOTE") [Byte.x01])
           eq_refl).
Defined.

(** The children size of a chunk header is never looked at: two streams of
    complete chunks that differ only in these fields read the same. *)
Theorem children_size_is_ignored (int : str -> result Z) (v : bytes)
  (cs cs' : list raw_chunk) :
  length v = 4%nat -> Forall well_laid cs -> Forall well_laid cs' ->
  map tag cs = map tag cs' -> map body cs = map body cs' ->
  read_vox_scene int (VOX_MAGIC ++ v ++ flat_map layout cs)
  = read_vox_scene int (VOX_MAGIC ++ v ++ flat_map layout cs').
Proof.
  intros Hv Hcs Hcs' Htag Hbody.
  rewrite <- (app_nil_r (flat_map layout cs)), <- (app_nil_r (flat_map layout cs')).
  rewrite !read_vox_scene_layout by (trivial; simpl; lia).
  assert (Hp : map parsed cs = map parsed cs').
  { clear Hcs Hcs'. revert cs' Htag Hbody.
    induction cs as [| c cs IH]; intros [| c' cs'] Htag Hbody;
      try discriminate; [reflexivity |].
    simpl in *. inversion Htag. inversion Hbody.
    unfold parsed at 1 3. f_equal; [congruence | apply IH; assumption]. }
  rewrite Hp. reflexivity.
Qed.

Lemma children_size_is_ignored_witness :
  read_vox_scene int_ascii
    (VOX_MAGIC ++ [Byte.x96; Byte.x00; Byte.x00; Byte.x00]
       ++ flat_map layout
            [mkRaw (list_byte_of_string "MAIN")
               [Byte.x00; Byte.x00; Byte.x00; Byte.x00] []])
  = read_vox_scene int_ascii
      (VOX_MAGIC ++ [Byte.x96; Byte.x00; Byte.x00; Byte.x00]
         ++ flat_map layout
              [mkRaw (list_byte_of_string "MAIN")
                 [Byte.xff; Byte.x00; Byte.x00; Byte.x00] []]).
Proof.
  apply (children_size_is_ignored int_ascii); try reflexivity;
    repeat constructor.
Defined.

(** *** Instances *)

Definition model_id (inst : Instance_) : Z := fst (fst (fst inst)).

(** The instance list that [read_vox_scene] settles on. *)
Definition final_instances (built : list Instance_) (models : list VoxModel)
  : list Instance_ :=
  match built, models with
  | [], _ :: _ => default_instances models
  | _, _ => built
  end.

Lemma scene_of_chunks_parts (int : str -> result Z) (chunks : list chunk)
  (scene : VoxScene) :
  scene_of_chunks int chunks = OK scene ->
  exists st transforms shape_nodes,
    extract_loop extract_init chunks = OK st
    /\ graph_loop int [] [] chunks = OK (transforms, shape_nodes)
    /\ scene = mkScene (st_models st) (st_palette st)
                 (final_instances
                    (build_instances transforms shape_nodes (st_models st))
                    (st_models st)).
Proof.
  unfold scene_of_chunks. intros H.
  destruct (extract_loop extract_init chunks) as [st |]; [| discriminate].
  cbn [bind] in H.
  destruct (graph_loop int [] [] chunks) as [[transforms shape_nodes] |];
    [| discriminate].
  cbn [bind] in H. inversion H. exists st, transforms, shape_nodes. auto.
Qed.

Lemma graph_loop_no_nTRN (int : str -> result Z) (chunks : list chunk) :
  Forall (fun c => has_id "nTRN" c = false) chunks ->
  forall t s t' s', graph_loop int t s chunks = OK (t', s') -> t' = t.
Proof.
  induction 1 as [| c chunks Hc _ IH]; intros t s t' s' H; cbn [graph_loop] in H.
  - inversion H. reflexivity.
  - fold (has_id "nTRN" c) in H. rewrite Hc in H.
    destruct (str_eqb (id c) (lit "nSHP")).
    + destruct (read_nSHP (content c) s) as [s1 |]; [| discriminate].
      cbn [bind] in H. eapply IH. exact H.
    + eapply IH. exact H.
Qed.

Lemma default_instances_nth (models : list VoxModel) (i : nat) :
  (i < length models)%nat ->
  nth_error (default_instances models) i
  = Some (Z.of_nat i, (0, 0, 0), 0, model_name i).
Proof.
  intros Hi. unfold default_instances.
  rewrite nth_error_map, nth_error_seq.
  replace (i <? length models)%nat with true by (symmetry; apply Nat.ltb_lt; exact Hi).
  reflexivity.
Qed.

(** Without transform nodes every model gets one instance, in order: model
    [i] at the origin, with rotation 0 and the name "Model_i". *)
Theorem no_scene_graph_instances (int : str -> result Z) (chunks : list chunk)
  (scene : VoxScene) :
  scene_of_chunks int chunks = OK scene ->
  Forall (fun c => has_id "nTRN" c = false) chunks ->
  length (instances scene) = length (models scene)
  /\ forall i, (i < length (models scene))%nat ->
       nth_error (instances scene) i
       = Some (Z.of_nat i, (0, 0, 0), 0, model_name i).
Proof.
  intros Hscene Hno.
  destruct (scene_of_chunks_parts int chunks scene Hscene)
    as (st & t & s & _ & Hg & ->).
  rewrite (graph_loop_no_nTRN int chunks Hno _ _ _ _ Hg).
  cbn [instances models build_instances final_instances].
  destruct (st_models st) as [| m ms] eqn:Hm.
  - split; [reflexivity |]. intros i Hi. simpl in Hi. lia.
  - rewrite <- Hm. split.
    + unfold default_instances. rewrite length_map, length_seq. reflexivity.
    + intros i Hi. apply default_instances_nth. exact Hi.
Qed.

Lemma no_scene_graph_instances_witness :
  nth_error
    (instances
       (mkScene [mkModel 2 2 2 [] (0, 0, 0) 0 []] get_default_palette
                [(0, (0, 0, 0), 0, lit "Model_0")])) 0
  = Some (0, (0, 0, 0), 0, lit "Model_0").
Proof.
  refine (proj2 (no_scene_graph_instances int_ascii
            [mkChunk (lit "SIZE")
               [Byte.x02; Byte.x00; Byte.x00; Byte.x00; Byte.x02; Byte.x00;
                Byte.x00; Byte.x00; Byte.x02; Byte.x00; Byte.x00; Byte.x00];
             mkChunk (lit "XYZI") [Byte.x00; Byte.x00; Byte.x00; Byte.x00]]
            _ eq_refl _) 0%nat _).
  - repeat constructor.
  - simpl. lia.
Defined.

Lemma dict_set_Forall {V : Type} (P : Z * V -> Prop) (d : list (Z * V))
  (k : Z) (v : V) :
  Forall P d -> (forall k', P (k', v)) -> Forall P (dict_set Z.eqb d k v).
Proof.
  intros Hd Hv. induction Hd as [| [k0 v0] d H0 Hd IH]; simpl.
  - constructor; [apply Hv | constructor].
  - destruct (k0 =? k); constructor; trivial; apply Hv.
Qed.

Lemma dict_get_In {V : Type} (d : list (Z * V)) (k : Z) (v : V) :
  dict_get Z.eqb d k = Some v -> exists k', In (k', v) d.
Proof.
  induction d as [| [k0 v0] d IH]; simpl; [discriminate |].
  destruct (k0 =? k).
  - intros H. inversion H; subst. exists k0. left. reflexivity.
  - intros H. destruct (IH H) as [k' Hin]. exists k'. right. exact Hin.
Qed.

Lemma read_nSHP_nonneg (content : bytes) (s s' : list (Z * Z)) :
  Forall (fun kv => 0 <= snd kv) s ->
  read_nSHP content s = OK s' -> Forall (fun kv => 0 <= snd kv) s'.
Proof.
  intros Hs. unfold read_nSHP.
  destruct (unpack_I (slice content 0 4)) as [node_id |]; [| discriminate].
  cbn [bind].
  destruct (_parse_dict content 4) as [[attrs pos] |]; [| discriminate].
  cbn [bind].
  destruct (unpack_I (slice content pos (pos + 4))) as [num_models |];
    [| discriminate].
  cbn [bind]. cbv zeta.
  destruct (0 <? num_models).
  - destruct (unpack_I (slice content (pos + 4) (pos + 4 + 4))) as [mid |] eqn:E;
      [| discriminate].
    cbn [bind]. intros H. inversion H; subst.
    apply dict_set_Forall; [exact Hs |]. intros k'. simpl.
    eapply unpack_I_nonneg. exact E.
  - intros H. inversion H; subst. exact Hs.
Qed.

Lemma graph_loop_nonneg (int : str -> result Z) (chunks : list chunk) :
  forall t s t' s',
    Forall (fun kv => 0 <= snd kv) s ->
    graph_loop int t s chunks = OK (t', s') ->
    Forall (fun kv : Z * Z => 0 <= snd kv) s'.
Proof.
  induction chunks as [| c chunks IH]; intros t s t' s' Hs H; cbn [graph_loop] in H.
  - inversion H; subst. exact Hs.
  - destruct (str_eqb (id c) (lit "nTRN")).
    + destruct (read_nTRN int (content c) t) as [t1 |]; [| discriminate].
      cbn [bind] in H. eapply IH; eassumption.
    + destruct (str_eqb (id c) (lit "nSHP")).
      * destruct (read_nSHP (content c) s) as [s1 |] eqn:E; [| discriminate].
        cbn [bind] in H. eapply IH; [| exact H].
        eapply read_nSHP_nonneg; eassumption.
      * eapply IH; eassumption.
Qed.

Lemma build_instances_bound (t : list (Z * Transform)) (s : list (Z * Z))
  (models : list VoxModel) :
  Forall (fun kv => 0 <= snd kv) s ->
  Forall (fun inst => 0 <= model_id inst < len models)
         (build_instances t s models).
Proof.
  intros Hs. induction t as [| [node [[[child tr] rot] nm]] t IH]; simpl.
  - constructor.
  - destruct (dict_get Z.eqb s child) as [mid |] eqn:E; [| exact IH].
    destruct (mid <? len models) eqn:Hlt; [| exact IH].
    constructor; [| exact IH]. unfold model_id. simpl.
    apply Z.ltb_lt in Hlt. destruct (dict_get_In s child mid E) as [k' Hin].
    rewrite Forall_forall in Hs. specialize (Hs _ Hin). simpl in Hs. lia.
Qed.

(** Every instance of a scene that was read refers to a model of the scene:
    indexing [models] with its model id never fails. *)
Theorem instances_refer_to_models (int : str -> result Z) (chunks : list chunk)
  (scene : VoxScene) :
  scene_of_chunks int chunks = OK scene ->
  Forall (fun inst => 0 <= model_id inst < len (models scene)
                      /\ exists m, getitem (models scene) (model_id inst) = OK m)
         (instances scene).
Proof.
  intros Hscene.
  destruct (scene_of_chunks_parts int chunks scene Hscene)
    as (st & t & s & _ & Hg & ->).
  cbn [instances models].
  assert (Hs : Forall (fun kv : Z * Z => 0 <= snd kv) s)
    by (eapply graph_loop_nonneg; [constructor | exact Hg]).
  assert (Hb : Forall (fun inst => 0 <= model_id inst < len (st_models st))
                 (final_instances (build_instances t s (st_models st))
                                  (st_models st))).
  { pose proof (build_instances_bound t s (st_models st) Hs) as Hbuilt.
    unfold final_instances.
    destruct (build_instances t s (st_models st)) as [| i0 is0];
      [| exact Hbuilt].
    destruct (st_models st) as [| m ms] eqn:Hm; [constructor |].
    rewrite <- Hm. apply Forall_forall. intros inst Hin.
    unfold default_instances in Hin. apply in_map_iff in Hin.
    destruct Hin as (i & <- & Hi). apply in_seq in Hi.
    unfold model_id, len. simpl. lia. }
  eapply Forall_impl; [| exact Hb]. intros inst Hi. split; [exact Hi |].
  unfold getitem.
  destruct (nth_error (st_models st) (Z.to_nat (model_id inst))) as [m |] eqn:E;
    [eauto |].
  apply nth_error_None in E. unfold len in Hi. lia.
Qed.

Lemma instances_refer_to_models_witness :
  Forall (fun inst => 0 <= model_id inst < 1
                      /\ exists m, getitem [mkModel 2 2 2 [] (0, 0, 0) 0 []]
                                     (model_id inst) = OK m)
         [(0, (0, 0, 0), 0, lit "Model_0")].
Proof.
  exact (instances_refer_to_models int_ascii
           [mkChunk (lit "SIZE")
              [Byte.x02; Byte.x00; Byte.x00; Byte.x00; Byte.x02; Byte.x00;
               Byte.x00; Byte.x00; Byte.x02; Byte.x00; Byte.x00; Byte.x00];
            mkChunk (lit "XYZI") [Byte.x00; Byte.x00; Byte.x00; Byte.x00]]
           _ eq_refl).
Defined.

(** *** The palette of what was read *)

Lemma scene_palette_length (int : str -> result Z) (chunks : list chunk)
  (scene : VoxScene) :
  scene_of_chunks int chunks = OK scene -> length (palette scene) = 256%nat.
Proof.
  intros Hscene.
  destruct (scene_of_chunks_inv int chunks scene Hscene) as (st & Hext & _ & Hpal).
  pose proof (extract_loop_palette chunks extract_init st Hext) as Hfile.
  fold (file_palette chunks) in Hfile. rewrite <- Hpal in Hfile.
  exact (file_palette_length chunks _ Hfile).
Qed.

(** Whatever [read_vox_file] returns has a palette of 256 entries, and
    [get_voxel_color] on it never raises, for any index at all. *)
Theorem read_data_colors_never_fail (int : str -> result Z) (data : bytes)
  (out : list Z) (voxel_data : VoxelData) :
  read_vox_file int data = (out, OK voxel_data) ->
  length (data_palette voxel_data) = 256%nat
  /\ forall color_index, exists color,
       get_voxel_color voxel_data color_index = OK color.
Proof.
  intros Hread.
  assert (Hlen : length (data_palette voxel_data) = 256%nat).
  { unfold read_vox_file in Hread.
    destruct (read_vox_scene int data) as [out' r] eqn:Hscene.
    inversion Hread as [[Hout Hr]]. subst out'.
    destruct r as [scene |]; [| discriminate].
    destruct (read_vox_scene_inv int data out scene Hscene)
      as (_ & chunks & _ & Hsc).
    pose proof (scene_palette_length int chunks scene Hsc) as Hp.
    cbn [bind] in Hr.
    destruct (models scene) as [| m ms]; inversion Hr; subst; cbn [data_palette].
    - destruct (palette scene); [discriminate Hp | exact Hp].
    - exact Hp. }
  split; [exact Hlen |].
  intros color_index. unfold get_voxel_color.
  destruct ((1 <=? color_index) && (color_index <=? 255)) eqn:E; [| eauto].
  apply andb_prop in E. destruct E as [E1 E2].
  apply Z.leb_le in E1, E2. unfold getitem.
  destruct (nth_error (data_palette voxel_data) (Z.to_nat (color_index - 1)))
    as [c |] eqn:En; [eauto |].
  apply nth_error_None in En. lia.
Qed.

Lemma read_data_colors_never_fail_witness :
  exists color,
    get_voxel_color (mkData 1 1 1 [] get_default_palette) 300 = OK color.
Proof.
  exact (proj2 (read_data_colors_never_fail int_ascii
                  (list_byte_of_string "VOX "
                     ++ [Byte.x96; Byte.x00; Byte.x00; Byte.x00])
                  [] (mkData 1 1 1 [] get_default_palette) eq_refl) 300).
Defined.

End SceneFacts.

(** ** Attribute dictionaries (vox_reader.py) *)

Module DictFacts.
Import Reader ReaderFacts.

(** The bytes of one entry: the key and the value, each after its length. *)
Definition entry_bytes (e : bytes * bytes) : bytes :=
  le_split 4 (len (fst e)) ++ fst e ++ le_split 4 (len (snd e)) ++ snd e.

(** The bytes of a dictionary: the number of entries, then the entries. *)
Definition dict_bytes (entries : list (bytes * bytes)) : bytes :=
  le_split 4 (len entries) ++ flat_map entry_bytes entries.

Definition entry_fits (e : bytes * bytes) : Prop :=
  len (fst e) < 2 ^ 32 /\ len (snd e) < 2 ^ 32.

(** The entries as text, assigned in order. *)
Definition assign_all (attrs : list (str * str)) (entries : list (bytes * bytes))
  : list (str * str) :=
  fold_left (fun d e => dict_set str_eqb d (decode_ascii_replace (fst e))
                                 (decode_ascii_replace (snd e)))
            entries attrs.

Lemma len_entry_bytes (e : bytes * bytes) :
  len (entry_bytes e) = 8 + len (fst e) + len (snd e).
Proof.
  unfold entry_bytes. rewrite !len_app. unfold len.
  rewrite !length_le_split. lia.
Qed.

(** The four slices that one turn of the loop takes of an entry. *)
Lemma entry_slices (pre k v rest : bytes) :
  let data := pre ++ le_split 4 (len k) ++ k ++ le_split 4 (len v) ++ v ++ rest in
  slice data (len pre) (len pre + 4) = le_split 4 (len k)
  /\ slice data (len pre + 4) (len pre + 4 + len k) = k
  /\ slice data (len pre + 4 + len k) (len pre + 4 + len k + 4)
     = le_split 4 (len v)
  /\ slice data (len pre + 4 + len k + 4) (len pre + 4 + len k + 4 + len v) = v
  /\ data = ((((pre ++ le_split 4 (len k)) ++ k) ++ le_split 4 (len v)) ++ v)
              ++ rest
  /\ len ((((pre ++ le_split 4 (len k)) ++ k) ++ le_split 4 (len v)) ++ v)
     = len pre + 4 + len k + 4 + len v.
Proof.
  intros data. unfold data.
  assert (H4 : forall z, len (le_split 4 z) = 4)
    by (intros z; unfold len; rewrite length_le_split; reflexivity).
  repeat split.
  - apply slice_at; [reflexivity | rewrite H4; reflexivity].
  - rewrite (app_assoc pre). apply slice_at; [| reflexivity].
    rewrite len_app, H4. reflexivity.
  - rewrite (app_assoc pre), (app_assoc (pre ++ _)).
    apply slice_at; [| rewrite H4; reflexivity].
    rewrite !len_app, H4. reflexivity.
  - rewrite (app_assoc pre), (app_assoc (pre ++ _)), (app_assoc ((pre ++ _) ++ _)).
    apply slice_at; [| reflexivity].
    rewrite !len_app, !H4. reflexivity.
  - rewrite <- !app_assoc. reflexivity.
  - rewrite !len_app, !H4. reflexivity.
Qed.

Lemma parse_dict_loop_layout (entries : list (bytes * bytes)) :
  forall (pre post : bytes) (attrs : list (str * str)),
    Forall entry_fits entries ->
    parse_dict_loop (length entries)
                    (pre ++ flat_map entry_bytes entries ++ post) (len pre) attrs
    = OK (assign_all attrs entries,
          len pre + len (flat_map entry_bytes entries)).
Proof.
  induction entries as [| [k v] entries IH]; intros pre post attrs Hfit.
  - simpl. f_equal. f_equal. change (len (@nil byte)) with 0. lia.
  - inversion Hfit as [| ? ? [Hk Hv] Hfit']; subst. simpl in Hk, Hv.
    pose proof (len_nonneg k) as Hk0. pose proof (len_nonneg v) as Hv0.
    cbn [length parse_dict_loop flat_map]. cbv zeta.
    set (rest := flat_map entry_bytes entries ++ post).
    destruct (entry_slices pre k v rest) as (S1 & S2 & S3 & S4 & Hassoc & Hlen).
    replace (pre ++ (entry_bytes (k, v) ++ flat_map entry_bytes entries) ++ post)
      with (pre ++ le_split 4 (len k) ++ k ++ le_split 4 (len v) ++ v ++ rest)
      by (unfold entry_bytes, rest; cbn [fst snd]; rewrite <- !app_assoc;
          reflexivity).
    rewrite S1, unpack_pack_I by lia. cbn [bind].
    rewrite S2, S3, unpack_pack_I by lia. cbn [bind].
    rewrite S4, Hassoc, <- Hlen.
    unfold rest. rewrite (IH _ post _ Hfit').
    f_equal. f_equal.
    rewrite Hlen, len_app, len_entry_bytes. cbn [fst snd]. lia.
Qed.

(** [_parse_dict] on the bytes of a dictionary that sits anywhere in a
    content returns the entries as text (a repeated key keeps its first place
    and its last value) and the position just after the dictionary. *)
Theorem parse_dict_layout (pre post : bytes) (entries : list (bytes * bytes)) :
  len entries < 2 ^ 32 -> Forall entry_fits entries ->
  _parse_dict (pre ++ dict_bytes entries ++ post) (len pre)
  = OK (assign_all [] entries, len pre + len (dict_bytes entries)).
Proof.
  intros Hn Hfit. pose proof (len_nonneg entries) as Hn0.
  unfold _parse_dict, dict_bytes. cbv zeta.
  rewrite <- app_assoc.
  rewrite (slice_at pre (le_split 4 (len entries))) by reflexivity.
  rewrite unpack_pack_I by lia. cbn [bind].
  replace (Z.to_nat (len entries)) with (length entries) by (unfold len; lia).
  rewrite (app_assoc pre).
  replace (len pre + 4) with (len (pre ++ le_split 4 (len entries)))
    by (rewrite len_app; unfold len; rewrite length_le_split; lia).
  rewrite (parse_dict_loop_layout entries _ post [] Hfit).
  f_equal. f_equal. rewrite !len_app. unfold len. lia.
Qed.

Lemma parse_dict_layout_witness :
  _parse_dict
    ([Byte.x07] ++ dict_bytes [(list_byte_of_string "_r", list_byte_of_string "4")]
       ++ [Byte.x09]) 1
  = OK ([(lit "_r", lit "4")], 16).
Proof.
  refine (parse_dict_layout [Byte.x07] [Byte.x09]
            [(list_byte_of_string "_r", list_byte_of_string "4")] _ _).
  - reflexivity.
  - repeat constructor.
Defined.

Lemma slice_at_end {A : Type} (l : list A) (hi : Z) :
  slice l (len l) hi = [].
Proof.
  unfold slice, len. rewrite Nat2Z.id, skipn_all. apply firstn_nil.
Qed.

Lemma parse_dict_loop_short (entries : list (bytes * bytes)) :
  forall (n : nat) (pre : bytes) (attrs : list (str * str)),
    Forall entry_fits entries -> (length entries < n)%nat ->
    parse_dict_loop n (pre ++ flat_map entry_bytes entries) (len pre) attrs
    = Raise StructError.
Proof.
  induction entries as [| [k v] entries IH]; intros n pre attrs Hfit Hn.
  - destruct n as [| n]; [simpl in Hn; lia |].
    cbn [parse_dict_loop flat_map]. rewrite app_nil_r, slice_at_end. reflexivity.
  - destruct n as [| n]; [simpl in Hn; lia |].
    inversion Hfit as [| ? ? [Hk Hv] Hfit']; subst. simpl in Hk, Hv.
    pose proof (len_nonneg k) as Hk0. pose proof (len_nonneg v) as Hv0.
    cbn [parse_dict_loop flat_map]. cbv zeta.
    set (rest := flat_map entry_bytes entries).
    destruct (entry_slices pre k v rest) as (S1 & S2 & S3 & S4 & Hassoc & Hlen).
    replace (pre ++ entry_bytes (k, v) ++ rest)
      with (pre ++ le_split 4 (len k) ++ k ++ le_split 4 (len v) ++ v ++ rest)
      by (unfold entry_bytes; cbn [fst snd]; rewrite <- !app_assoc; reflexivity).
    rewrite S1, unpack_pack_I by lia. cbn [bind].
    rewrite S2, S3, unpack_pack_I by lia. cbn [bind].
    rewrite S4, Hassoc, <- Hlen.
    unfold rest. apply IH; [exact Hfit' | simpl in Hn; lia].
Qed.

(** *** A dictionary cut short *)

Lemma parse_dict_loop_add (a b : nat) (content : bytes) :
  forall pos attrs,
    parse_dict_loop (a + b) content pos attrs
    = (r <- parse_dict_loop a content pos attrs;;
       parse_dict_loop b content (snd r) (fst r)).
Proof.
  induction a as [| a IH]; intros pos attrs; [reflexivity |].
  cbn [Nat.add parse_dict_loop].
  destruct (unpack_I (slice content pos (pos + 4))) as [key_len |];
    [| reflexivity].
  cbn [bind]. cbv zeta.
  destruct (unpack_I _) as [val_len |]; [| reflexivity].
  cbn [bind]. apply IH.
Qed.

Lemma slice_beyond {A : Type} (l : list A) (lo hi : Z) :
  len l <= lo -> slice l lo hi = [].
Proof.
  intros H. unfold slice, len in *. rewrite skipn_all2 by lia. apply firstn_nil.
Qed.

Lemma slice_to_end {A : Type} (pre x : list A) (hi : Z) :
  len pre + len x <= hi -> slice (pre ++ x) (len pre) hi = x.
Proof.
  intros H. replace (len pre) with (len pre + 0) at 1 by lia.
  replace hi with (len pre + (hi - len pre)) by lia.
  rewrite slice_app_r by lia. unfold slice, len in *. simpl skipn.
  apply firstn_all2. lia.
Qed.

Lemma unpack_I_short (b : bytes) :
  (length b < 4)%nat -> unpack_I b = Raise StructError.
Proof.
  intros H. unfold unpack_I.
  replace (length b =? 4)%nat with false
    by (symmetry; apply Nat.eqb_neq; lia).
  reflexivity.
Qed.

(** A turn that starts at the end of the content, or beyond it. *)
Lemma turn_beyond_end (m : nat) (content : bytes) (pos : Z)
  (attrs : list (str * str)) :
  len content <= pos ->
  parse_dict_loop (S m) content pos attrs = Raise StructError.
Proof.
  intros H. cbn [parse_dict_loop]. rewrite slice_beyond by exact H. reflexivity.
Qed.

(** What is left of the content holds no complete pair of length fields. *)
Definition lacks_length_field (partial : bytes) : Prop :=
  len partial < 4
  \/ exists key_len rest,
       partial = le_split 4 key_len ++ rest
       /\ 0 <= key_len < 2 ^ 32 /\ len rest < key_len + 4.

Lemma turn_lacks_length_field (m : nat) (head partial : bytes)
  (attrs : list (str * str)) :
  lacks_length_field partial ->
  parse_dict_loop (S m) (head ++ partial) (len head) attrs = Raise StructError.
Proof.
  intros [Hshort | (key_len & rest & -> & Hk & Hrest)]; cbn [parse_dict_loop].
  - replace (len head) with (len head + 0) at 1 by lia.
    rewrite slice_app_r by lia.
    rewrite unpack_I_short; [reflexivity |].
    unfold slice, len in *. rewrite length_firstn, length_skipn. lia.
  - rewrite (slice_at head (le_split 4 key_len) rest) by reflexivity.
    rewrite unpack_pack_I by exact Hk. cbn [bind]. cbv zeta.
    rewrite app_assoc.
    assert (Hlen : len (head ++ le_split 4 key_len) = len head + 4)
      by (rewrite len_app; unfold len; rewrite length_le_split; lia).
    assert (Hs : slice ((head ++ le_split 4 key_len) ++ rest)
                       (len head + 4 + key_len) (len head + 4 + key_len + 4)
                 = slice rest key_len (key_len + 4)).
    { replace (len head + 4 + key_len + 4)
        with (len (head ++ le_split 4 key_len) + (key_len + 4)) by lia.
      replace (len head + 4 + key_len)
        with (len (head ++ le_split 4 key_len) + key_len) by lia.
      apply slice_app_r. lia. }
    rewrite Hs.
    rewrite unpack_I_short; [reflexivity |].
    pose proof (len_nonneg rest) as Hr0.
    unfold slice, len in *. rewrite length_firstn, length_skipn. lia.
Qed.

(** A turn on an entry whose value is cut: the value is what is there, and
    the position goes on by the length that was announced. *)
Lemma turn_cut_value (m : nat) (head k v_part : bytes) (val_len : Z)
  (attrs : list (str * str)) :
  len k < 2 ^ 32 -> 0 <= val_len < 2 ^ 32 -> len v_part <= val_len ->
  parse_dict_loop (S m)
    (head ++ le_split 4 (len k) ++ k ++ le_split 4 val_len ++ v_part)
    (len head) attrs
  = parse_dict_loop m
      (head ++ le_split 4 (len k) ++ k ++ le_split 4 val_len ++ v_part)
      (len head + 4 + len k + 4 + val_len)
      (dict_set str_eqb attrs (decode_ascii_replace k)
                (decode_ascii_replace v_part)).
Proof.
  intros Hk Hv Hpart. pose proof (len_nonneg k) as Hk0.
  assert (H4 : forall z, len (le_split 4 z) = 4)
    by (intros z; unfold len; rewrite length_le_split; reflexivity).
  cbn [parse_dict_loop].
  set (data := head ++ le_split 4 (len k) ++ k ++ le_split 4 val_len ++ v_part).
  assert (S1 : slice data (len head) (len head + 4) = le_split 4 (len k)).
  { unfold data. apply slice_at; [reflexivity | rewrite H4; reflexivity]. }
  assert (S2 : slice data (len head + 4) (len head + 4 + len k) = k).
  { unfold data. rewrite (app_assoc head). apply slice_at; [| reflexivity].
    rewrite len_app, H4. reflexivity. }
  assert (S3 : slice data (len head + 4 + len k) (len head + 4 + len k + 4)
               = le_split 4 val_len).
  { unfold data. rewrite (app_assoc head), (app_assoc (head ++ _)).
    apply slice_at; [| rewrite H4; reflexivity].
    rewrite !len_app, H4. reflexivity. }
  assert (S4 : slice data (len head + 4 + len k + 4)
                     (len head + 4 + len k + 4 + val_len) = v_part).
  { unfold data.
    rewrite (app_assoc head), (app_assoc (head ++ _)),
      (app_assoc ((head ++ _) ++ _)).
    replace (len head + 4 + len k + 4)
      with (len (((head ++ le_split 4 (len k)) ++ k) ++ le_split 4 val_len))
      by (rewrite !len_app, !H4; lia).
    apply slice_to_end. rewrite !len_app, !H4. lia. }
  rewrite S1, unpack_pack_I by lia. cbn [bind]. cbv zeta.
  rewrite S2, S3, unpack_pack_I by lia. cbn [bind].
  rewrite S4. reflexivity.
Qed.

Lemma assign_all_snoc (attrs : list (str * str)) (entries : list (bytes * bytes))
  (k v : bytes) :
  assign_all attrs (entries ++ [(k, v)])
  = dict_set str_eqb (assign_all attrs entries) (decode_ascii_replace k)
             (decode_ascii_replace v).
Proof. unfold assign_all. rewrite fold_left_app. reflexivity. Qed.

(** The turns of the loop that the complete entries feed. *)
Lemma parse_dict_after_entries (pre partial : bytes)
  (entries : list (bytes * bytes)) (count : Z) :
  len entries <= count < 2 ^ 32 -> Forall entry_fits entries ->
  _parse_dict (pre ++ le_split 4 count ++ flat_map entry_bytes entries ++ partial)
              (len pre)
  = parse_dict_loop (Z.to_nat count - length entries)
      ((pre ++ le_split 4 count ++ flat_map entry_bytes entries) ++ partial)
      (len (pre ++ le_split 4 count ++ flat_map entry_bytes entries))
      (assign_all [] entries).
Proof.
  intros Hcount Hfit. pose proof (len_nonneg entries) as Hn0.
  unfold _parse_dict. cbv zeta.
  rewrite (slice_at pre (le_split 4 count)) by reflexivity.
  rewrite unpack_pack_I by lia. cbn [bind].
  replace (Z.to_nat count)
    with (length entries + (Z.to_nat count - length entries))%nat
    by (unfold len in Hcount; lia).
  rewrite parse_dict_loop_add.
  rewrite (app_assoc pre).
  replace (len pre + 4) with (len (pre ++ le_split 4 count))
    by (rewrite len_app; unfold len; rewrite length_le_split; lia).
  rewrite (parse_dict_loop_layout entries _ partial [] Hfit). cbn [bind fst snd].
  replace (length entries + (Z.to_nat count - length entries) - length entries)%nat
    with (Z.to_nat count - length entries)%nat by lia.
  rewrite <- !app_assoc. f_equal. rewrite !len_app. lia.
Qed.

(** A dictionary cut short.  When the content ends after fewer complete
    entries than the count announces, [_parse_dict] raises a [struct] error
    if what is left holds no complete pair of length fields: nothing, a part
    of a key length, a part of a key, or a part of a value length.  It does
    not raise when the cut falls inside the value of the last entry that
    was announced: that value is returned as far as it goes, with a
    position beyond the end of the content.  When the cut falls inside the
    value of an earlier entry, the next turn finds no key length and
    raises. *)
Theorem parse_dict_truncated (pre : bytes) (entries : list (bytes * bytes))
  (count : Z) :
  len entries < count < 2 ^ 32 -> Forall entry_fits entries ->
  (forall partial, lacks_length_field partial ->
     _parse_dict
       (pre ++ le_split 4 count ++ flat_map entry_bytes entries ++ partial)
       (len pre)
     = Raise StructError)
  /\ (forall k v_part val_len,
        len k < 2 ^ 32 -> len v_part <= val_len < 2 ^ 32 ->
        _parse_dict
          (pre ++ le_split 4 count ++ flat_map entry_bytes entries
               ++ le_split 4 (len k) ++ k ++ le_split 4 val_len ++ v_part)
          (len pre)
        = if count =? len entries + 1
          then OK (assign_all [] (entries ++ [(k, v_part)]),
                   len pre + 4 + len (flat_map entry_bytes entries)
                   + 4 + len k + 4 + val_len)
          else Raise StructError).
Proof.
  intros Hcount Hfit. pose proof (len_nonneg entries) as Hn0.
  assert (Hturns : exists m, (Z.to_nat count - length entries)%nat = S m).
  { exists (Z.to_nat count - length entries - 1)%nat. unfold len in Hcount. lia. }
  destruct Hturns as (m & Hm).
  assert (Hhead : len (pre ++ le_split 4 count ++ flat_map entry_bytes entries)
                  = len pre + 4 + len (flat_map entry_bytes entries)).
  { rewrite !len_app. unfold len. rewrite length_le_split. lia. }
  split.
  - intros partial Hpartial.
    rewrite parse_dict_after_entries by (try exact Hfit; lia).
    rewrite Hm. apply turn_lacks_length_field. exact Hpartial.
  - intros k v_part val_len Hk Hv.
    pose proof (len_nonneg k) as Hk0. pose proof (len_nonneg v_part) as Hv0.
    rewrite parse_dict_after_entries by (try exact Hfit; lia).
    rewrite Hm.
    rewrite turn_cut_value by lia.
    rewrite assign_all_snoc, Hhead.
    destruct (count =? len entries + 1) eqn:E.
    + apply Z.eqb_eq in E.
      assert (m = 0%nat) by (unfold len in E; lia). subst m.
      cbn [parse_dict_loop]. reflexivity.
    + apply Z.eqb_neq in E.
      destruct m as [| m]; [unfold len in *; lia |].
      apply turn_beyond_end.
      rewrite !len_app. unfold len. rewrite !length_le_split. unfold len in *.
      lia.
Qed.

Lemma parse_dict_truncated_witness :
  _parse_dict
    ([] ++ le_split 4 2
        ++ flat_map entry_bytes [(list_byte_of_string "_r", list_byte_of_string "4")]
        ++ [])
    0
  = Raise StructError
  /\ _parse_dict
       ([] ++ le_split 4 1 ++ flat_map entry_bytes []
           ++ le_split 4 (len (list_byte_of_string "_r"))
           ++ list_byte_of_string "_r" ++ le_split 4 4 ++ list_byte_of_string "4")
       0
     = OK ([(lit "_r", lit "4")], 18).
Proof.
  split.
  - refine (proj1 (parse_dict_truncated []
                     [(list_byte_of_string "_r", list_byte_of_string "4")] 2 _ _)
                  [] _).
    + split; reflexivity.
    + repeat constructor.
    + left. reflexivity.
  - refine (proj2 (parse_dict_truncated [] [] 1 _ _)
                  (list_byte_of_string "_r") (list_byte_of_string "4") 4 _ _).
    + split; reflexivity.
    + constructor.
    + reflexivity.
    + split; [unfold len; simpl; lia | reflexivity].
Defined.

End DictFacts.

(** ** More on the writer (vox_writer.py) *)

Module WriterMore.
Import Reader ReaderFacts RoundTrip.

(** *** [set_color] inside the range *)

Lemma length_list_set {A : Type} (l : list A) :
  forall (i : nat) (v : A), length (list_set l i v) = length l.
Proof.
  induction l as [| h t IH]; intros [| i] v; simpl; auto.
Qed.

Lemma nth_error_list_set_same {A : Type} (l : list A) :
  forall (i : nat) (v : A),
    (i < length l)%nat -> nth_error (list_set l i v) i = Some v.
Proof.
  induction l as [| h t IH]; intros [| i] v Hi; simpl in *; try lia; auto.
  apply IH. lia.
Qed.

Lemma nth_error_list_set_other {A : Type} (l : list A) :
  forall (i j : nat) (v : A),
    i <> j -> nth_error (list_set l i v) j = nth_error l j.
Proof.
  induction l as [| h t IH]; intros [| i] [| j] v Hij; simpl; auto; try lia.
Qed.

Lemma set_color_ok (self : Writer.VoxPalette) (index r g b a : Z) :
  1 <= index <= 255 -> index < len (Writer.colors self) ->
  Writer.set_color self index r g b a
  = (Writer.mkPalette (list_set (Writer.colors self) (Z.to_nat index) (r, g, b, a)),
     OK tt).
Proof.
  intros Hi Hlen. unfold Writer.set_color, setitem.
  replace ((1 <=? index) && (index <=? 255)) with true
    by (symmetry; apply andb_true_intro; split; apply Z.leb_le; lia).
  replace (index <? len (Writer.colors self)) with true
    by (symmetry; apply Z.ltb_lt; exact Hlen).
  reflexivity.
Qed.

(** [set_color] with an index in 1-255: on a palette that has that entry the
    call succeeds, the entry holds the new colour, every other entry and the
    length are as before; on a palette too short for the index the call
    raises [IndexError] and changes nothing. *)
Theorem set_color_stores (self : Writer.VoxPalette) (index r g b a : Z) :
  1 <= index <= 255 ->
  (index < len (Writer.colors self) ->
     snd (Writer.set_color self index r g b a) = OK tt
     /\ getitem (Writer.colors (fst (Writer.set_color self index r g b a))) index
        = OK (r, g, b, a)
     /\ length (Writer.colors (fst (Writer.set_color self index r g b a)))
        = length (Writer.colors self)
     /\ forall j, j <> index -> 0 <= j ->
          getitem (Writer.colors (fst (Writer.set_color self index r g b a))) j
          = getitem (Writer.colors self) j)
  /\ (len (Writer.colors self) <= index ->
        Writer.set_color self index r g b a = (self, Raise IndexError)).
Proof.
  intros Hi. unfold Writer.set_color, setitem.
  replace ((1 <=? index) && (index <=? 255)) with true
    by (symmetry; apply andb_true_intro; split; apply Z.leb_le; lia).
  cbn [negb]. split; intros Hlen.
  - replace (index <? len (Writer.colors self)) with true
      by (symmetry; apply Z.ltb_lt; exact Hlen).
    cbn [fst snd Writer.colors]. unfold getitem, len in *.
    split; [reflexivity |]. split; [| split].
    + rewrite nth_error_list_set_same by lia. reflexivity.
    + apply length_list_set.
    + intros j Hj Hj0. rewrite nth_error_list_set_other by lia. reflexivity.
  - replace (index <? len (Writer.colors self)) with false
      by (symmetry; apply Z.ltb_ge; exact Hlen).
    reflexivity.
Qed.

Lemma set_color_stores_witness :
  getitem (Writer.colors (fst (Writer.set_color Writer.new_palette 7 1 2 3 4))) 7
  = OK (1, 2, 3, 4).
Proof.
  assert (Hi : 1 <= 7 <= 255) by lia.
  destruct (set_color_stores Writer.new_palette 7 1 2 3 4 Hi) as [Hin _].
  destruct Hin as (_ & Hget & _).
  - vm_compute. reflexivity.
  - exact Hget.
Defined.

Lemma list_set_Forall {A : Type} (P : A -> Prop) (l : list A) :
  forall (i : nat) (v : A), Forall P l -> P v -> Forall P (list_set l i v).
Proof.
  induction l as [| h t IH]; intros [| i] v Hl Hv; simpl; trivial;
    inversion Hl; subst; constructor; auto.
Qed.

(** A colour set with [set_color] comes back from the file: after
    [set_color(index, r, g, b, a)] on a palette, writing a model and reading
    the file gives that colour for [index] and the palette's former colours
    for every other index of 1-255. *)
Theorem set_color_then_round_trip (int : str -> result Z) (M : Writer.VoxModel)
  (P : Writer.VoxPalette) (index r g b a : Z) :
  valid_model M -> valid_palette P -> 1 <= index <= 255 ->
  quad_bytes (r, g, b, a) ->
  exists data scene,
    Writer.write (Writer.mkWriter [M] (fst (Writer.set_color P index r g b a)))
    = (data, OK tt)
    /\ read_vox_scene int data = ([], OK scene)
    /\ get_voxel_color (mkData 1 1 1 [] (palette scene)) index = OK (r, g, b, a)
    /\ forall j, 1 <= j <= 255 -> j <> index ->
         get_voxel_color (mkData 1 1 1 [] (palette scene)) j
         = getitem (Writer.colors P) j.
Proof.
  intros HM (Hlen & Hcol) Hi Hq.
  assert (Hlt : index < len (Writer.colors P)) by (unfold len; lia).
  rewrite (set_color_ok P index r g b a Hi Hlt). cbn [fst].
  set (P' := Writer.mkPalette
               (list_set (Writer.colors P) (Z.to_nat index) (r, g, b, a))).
  assert (Hget : getitem (Writer.colors P') index = OK (r, g, b, a)).
  { unfold getitem, P'. cbn [Writer.colors].
    rewrite nth_error_list_set_same by lia. reflexivity. }
  assert (Hother : forall j, j <> index -> 0 <= j ->
            getitem (Writer.colors P') j = getitem (Writer.colors P) j).
  { intros j Hj Hj0. unfold getitem, P'. cbn [Writer.colors].
    rewrite nth_error_list_set_other by lia. reflexivity. }
  assert (HP' : valid_palette P').
  { unfold P'. split; cbn [Writer.colors].
    - rewrite length_list_set. exact Hlen.
    - apply list_set_Forall; assumption. }
  destruct (write_then_read int M P' (valid_writable M P' HM HP'))
    as (data & Hw & Hr).
  eexists data, _. split; [exact Hw |]. split; [exact Hr |].
  cbn [palette].
  assert (Hcolor : forall j, 1 <= j <= 255 ->
            get_voxel_color (mkData 1 1 1 [] (stored_palette P')) j
            = getitem (Writer.colors P') j).
  { intros j Hj. unfold get_voxel_color. cbn [data_palette].
    replace ((1 <=? j) && (j <=? 255)) with true
      by (symmetry; apply andb_true_intro; split; apply Z.leb_le; lia).
    destruct (stored_palette_index P' j (proj1 HP') Hj) as (c & Hc & Hs).
    rewrite Hs, Hc. reflexivity. }
  split.
  - rewrite (Hcolor index Hi). exact Hget.
  - intros j Hj Hne. rewrite (Hcolor j Hj). apply Hother; lia.
Qed.

Lemma set_color_then_round_trip_witness :
  exists data scene,
    Writer.write (Writer.mkWriter [Writer.mkModel 1 1 1 [(0, 0, 0, 7)]]
                    (fst (Writer.set_color Writer.new_palette 7 1 2 3 4)))
    = (data, OK tt)
    /\ read_vox_scene int_ascii data = ([], OK scene)
    /\ get_voxel_color (mkData 1 1 1 [] (palette scene)) 7 = OK (1, 2, 3, 4).
Proof.
  assert (HM : valid_model (Writer.mkModel 1 1 1 [(0, 0, 0, 7)])).
  { unfold valid_model, u32.
    cbn [Writer.size_x Writer.size_y Writer.size_z Writer.voxels].
    assert (H32 : 2 ^ 32 = 4294967296) by reflexivity.
    repeat split; try lia.
    - repeat constructor; lia.
    - repeat constructor; simpl; intuition congruence. }
  assert (Hi : 1 <= 7 <= 255) by lia.
  assert (Hq : quad_bytes (1, 2, 3, 4)) by (unfold quad_bytes, byte_range; lia).
  destruct (set_color_then_round_trip int_ascii _ Writer.new_palette 7 1 2 3 4
              HM default_palette_valid Hi Hq)
    as (data & scene & Hw & Hr & Hc & _).
  exists data, scene. auto.
Defined.

(** *** Sequences of [add_voxel] calls *)

(** The model after a sequence of calls of [add_voxel], whatever the
    outcome of each call: a call that raises leaves the model as it was. *)
Definition add_each (self : Writer.VoxModel) (calls : list Voxel)
  : Writer.VoxModel :=
  fold_left (fun m v => let '(x, y, z, c) := v in fst (Writer.add_voxel m x y z c))
            calls self.

(** The test of the two range checks of [add_voxel]. *)
Definition accepted (v : Voxel) : bool :=
  let '(x, y, z, c) := v in
  (0 <=? x) && (x <=? 255) && ((0 <=? y) && (y <=? 255))
  && ((0 <=? z) && (z <=? 255)) && ((1 <=? c) && (c <=? 255)).

Lemma accepted_iff (x y z c : Z) :
  accepted (x, y, z, c) = true <-> WriterFacts.voxel_in_range x y z c.
Proof.
  unfold accepted, WriterFacts.voxel_in_range. split.
  - intros H. repeat (apply andb_prop in H; destruct H as [H ?]). lia.
  - intros H. repeat (apply andb_true_intro; split); lia.
Qed.

Lemma add_each_voxels (calls : list Voxel) :
  forall self,
    Writer.voxels (add_each self calls)
    = Writer.voxels self ++ filter accepted calls
    /\ Writer.size_x (add_each self calls) = Writer.size_x self
    /\ Writer.size_y (add_each self calls) = Writer.size_y self
    /\ Writer.size_z (add_each self calls) = Writer.size_z self.
Proof.
  induction calls as [| [[[x y] z] c] calls IH]; intros self.
  - simpl. rewrite app_nil_r. auto.
  - unfold add_each. cbn [fold_left filter]. fold (add_each
      (fst (Writer.add_voxel self x y z c)) calls).
    destruct (IH (fst (Writer.add_voxel self x y z c))) as (Hv & Hx & Hy & Hz).
    rewrite Hv, Hx, Hy, Hz.
    destruct (accepted (x, y, z, c)) eqn:E.
    + apply accepted_iff in E.
      rewrite (WriterFacts.add_voxel_accepts self x y z c E). simpl.
      rewrite <- app_assoc. auto.
    + assert (Hn : ~ WriterFacts.voxel_in_range x y z c)
        by (intros Hin; apply accepted_iff in Hin; congruence).
      rewrite (WriterFacts.add_voxel_rejects self x y z c Hn). auto.
Qed.

(** A model that is filled only through [add_voxel] holds exactly the calls
    that were in range, in the order they were made, and its XYZI chunk always
    serialises: the count and four bytes for each voxel. *)
Theorem add_voxel_builds_a_writable_model (sx sy sz : Z) (calls : list Voxel) :
  len calls < 2 ^ 32 ->
  Writer.voxels (add_each (Writer.new_model sx sy sz) calls)
  = filter accepted calls
  /\ Forall valid_voxel (Writer.voxels (add_each (Writer.new_model sx sy sz) calls))
  /\ Writer.get_xyzi_chunk (add_each (Writer.new_model sx sy sz) calls)
     = OK (Writer.mkChunk (lit "XYZI")
             (le_split 4 (len (filter accepted calls))
                ++ flat_map enc_quad (filter accepted calls)) []).
Proof.
  intros Hn.
  destruct (add_each_voxels calls (Writer.new_model sx sy sz)) as (Hv & _).
  cbn [Writer.new_model Writer.voxels app] in Hv.
  assert (Hvalid : Forall valid_voxel (filter accepted calls)).
  { apply Forall_forall. intros [[[x y] z] c] Hin.
    apply filter_In in Hin. destruct Hin as [_ Hin].
    apply accepted_iff in Hin. exact Hin. }
  rewrite Hv. split; [reflexivity |]. split; [exact Hvalid |].
  unfold Writer.get_xyzi_chunk. rewrite Hv.
  assert (Hle : (length (filter accepted calls) <= length calls)%nat)
    by apply filter_length_le.
  rewrite pack_I_ok by (unfold len in *; lia). cbn [bind].
  rewrite xyzi_loop_ok; [reflexivity |].
  eapply Forall_impl; [| exact Hvalid]. apply valid_voxel_bytes.
Qed.

Lemma add_voxel_builds_a_writable_model_witness :
  Writer.voxels (add_each (Writer.new_model 2 2 2)
                   [(0, 0, 0, 1); (256, 0, 0, 1); (1, 1, 1, 0); (1, 0, 1, 255)])
  = [(0, 0, 0, 1); (1, 0, 1, 255)].
Proof.
  refine (proj1 (add_voxel_builds_a_writable_model 2 2 2
            [(0, 0, 0, 1); (256, 0, 0, 1); (1, 1, 1, 0); (1, 0, 1, 255)] _)).
  reflexivity.
Defined.

(** *** Files with several models *)

(** The model as the reader returns it. *)
Definition as_read (M : Writer.VoxModel) : VoxModel :=
  mkModel (Writer.size_x M) (Writer.size_y M) (Writer.size_z M)
          (Writer.voxels M) (0, 0, 0) 0 [].

Definition model_chunks (M : Writer.VoxModel) : list raw_chunk :=
  [leaf "SIZE" (size_content M); leaf "XYZI" (xyzi_content M)].

Definition pack_chunks (Ms : list Writer.VoxModel) : list raw_chunk :=
  if 1 <? len Ms then [leaf "PACK" (le_split 4 (len Ms))] else [].

Definition children_of (Ms : list Writer.VoxModel) (P : Writer.VoxPalette)
  : list raw_chunk :=
  pack_chunks Ms ++ flat_map model_chunks Ms ++ [leaf "RGBA" (rgba_content P)].

Definition chunks_of (Ms : list Writer.VoxModel) (P : Writer.VoxPalette)
  : list raw_chunk :=
  mkRaw (list_byte_of_string "MAIN")
        (le_split 4 (len (flat_map layout (children_of Ms P)))) []
  :: children_of Ms P.

Definition model_fits (M : Writer.VoxModel) : Prop :=
  u32 (Writer.size_x M) /\ u32 (Writer.size_y M) /\ u32 (Writer.size_z M)
  /\ len (Writer.voxels M) <= 2 ^ 24
  /\ Forall quad_bytes (Writer.voxels M).

(** The number of bytes of the chunks of the models, with room for the PACK
    and RGBA chunks. *)
Definition models_size (Ms : list Writer.VoxModel) : Z :=
  fold_right (fun M n => 40 + 4 * len (Writer.voxels M) + n) 0 Ms.

Lemma get_size_chunk_ok (M : Writer.VoxModel) :
  model_fits M ->
  Writer.get_size_chunk M = OK (Writer.mkChunk (lit "SIZE") (size_content M) []).
Proof.
  intros (Hx & Hy & Hz & _). unfold Writer.get_size_chunk, pack_III.
  rewrite !pack_I_ok by assumption. reflexivity.
Qed.

Lemma get_xyzi_chunk_ok (M : Writer.VoxModel) :
  model_fits M ->
  Writer.get_xyzi_chunk M = OK (Writer.mkChunk (lit "XYZI") (xyzi_content M) []).
Proof.
  intros (_ & _ & _ & Hn & Hvox). pose proof (len_nonneg (Writer.voxels M)).
  assert (H24 : 2 ^ 24 = 16777216) by reflexivity.
  assert (H32 : 2 ^ 32 = 4294967296) by reflexivity.
  unfold Writer.get_xyzi_chunk. rewrite pack_I_ok by lia.
  cbn [bind]. rewrite (xyzi_loop_ok _ _ Hvox). reflexivity.
Qed.

Lemma get_rgba_chunk_ok (P : Writer.VoxPalette) :
  Forall quad_bytes (Writer.colors P) ->
  Writer.get_rgba_chunk P = OK (Writer.mkChunk (lit "RGBA") (rgba_content P) []).
Proof.
  intros Hcol. unfold Writer.get_rgba_chunk, Writer.range.
  rewrite (rgba_loop_ok P Hcol 256 0 []). reflexivity.
Qed.

Lemma model_chunks_fit (M : Writer.VoxModel) :
  model_fits M ->
  u32 (len (size_content M)) /\ u32 (len (xyzi_content M)).
Proof.
  intros (_ & _ & _ & Hn & _). pose proof (len_nonneg (Writer.voxels M)).
  assert (H24 : 2 ^ 24 = 16777216) by reflexivity.
  assert (H32 : 2 ^ 32 = 4294967296) by reflexivity.
  rewrite len_size_content, len_xyzi_content. unfold u32. lia.
Qed.

Lemma models_loop_ok (Ms : list Writer.VoxModel) :
  forall children_data,
    Forall model_fits Ms ->
    Writer.models_loop children_data Ms
    = OK (children_data ++ flat_map layout (flat_map model_chunks Ms)).
Proof.
  induction Ms as [| M Ms IH]; intros cd Hfit.
  - simpl. rewrite app_nil_r. reflexivity.
  - inversion Hfit as [| ? ? HM Hfit']; subst.
    destruct (model_chunks_fit M HM) as [Hs Hx].
    cbn [Writer.models_loop]. rewrite (get_size_chunk_ok M HM). cbn [bind].
    rewrite (to_bytes_leaf "SIZE") by (trivial; reflexivity). cbn [bind].
    rewrite (get_xyzi_chunk_ok M HM). cbn [bind].
    rewrite (to_bytes_leaf "XYZI") by (trivial; reflexivity). cbn [bind].
    rewrite (IH _ Hfit'). cbn [flat_map model_chunks app].
    rewrite <- !app_assoc. reflexivity.
Qed.

Lemma len_model_layout (Ms : list Writer.VoxModel) :
  len (flat_map layout (flat_map model_chunks Ms)) = models_size Ms.
Proof.
  induction Ms as [| M Ms IH]; [reflexivity |].
  cbn [flat_map model_chunks app models_size fold_right].
  rewrite !len_app, !len_leaf by reflexivity.
  rewrite len_size_content, len_xyzi_content.
  fold (models_size Ms). rewrite <- IH. lia.
Qed.

Lemma len_children_of (Ms : list Writer.VoxModel) (P : Writer.VoxPalette) :
  len (flat_map layout (children_of Ms P))
  = (if 1 <? len Ms then 16 else 0) + models_size Ms + 1036.
Proof.
  unfold children_of, pack_chunks. rewrite !flat_map_app, !len_app.
  rewrite len_model_layout. cbn [flat_map]. rewrite app_nil_r.
  rewrite len_leaf by reflexivity. rewrite len_rgba_content.
  destruct (1 <? len Ms).
  - cbn [flat_map]. rewrite app_nil_r, len_leaf by reflexivity.
    unfold len at 1. rewrite length_le_split. lia.
  - reflexivity.
Qed.

Lemma models_size_bounds (Ms : list Writer.VoxModel) :
  0 <= models_size Ms /\ 40 * len Ms <= models_size Ms.
Proof.
  induction Ms as [| M Ms IH]; [unfold len; simpl; lia |].
  cbn [models_size fold_right]. fold (models_size Ms).
  pose proof (len_nonneg (Writer.voxels M)).
  unfold len in *. simpl length. lia.
Qed.

(** The bytes that [write] puts in the file, for any number of models. *)
Lemma write_models_bytes (Ms : list Writer.VoxModel) (P : Writer.VoxPalette) :
  Forall model_fits Ms -> Forall quad_bytes (Writer.colors P) ->
  models_size Ms + 1052 < 2 ^ 32 ->
  Writer.write (Writer.mkWriter Ms P)
  = (VOX_MAGIC ++ le_split 4 150 ++ flat_map layout (chunks_of Ms P), OK tt).
Proof.
  intros Hfit Hcol Hsize.
  destruct (models_size_bounds Ms) as [Hs0 Hs40].
  pose proof (len_nonneg Ms) as Hn0.
  assert (H32 : 2 ^ 32 = 4294967296) by reflexivity.
  assert (Hmain : Writer.main_chunk_bytes (Writer.mkWriter Ms P)
                  = OK (flat_map layout (chunks_of Ms P))).
  { unfold Writer.main_chunk_bytes. cbn [Writer.models Writer.palette].
    assert (Hpack : (if 1 <? len Ms
                     then (pack_content <- pack_I (len Ms);;
                           pb <- Writer.to_bytes
                                   (Writer.mkChunk (lit "PACK") pack_content []);;
                           OK ([] ++ pb))
                     else OK [])
                    = OK (flat_map layout (pack_chunks Ms))).
    { unfold pack_chunks. destruct (1 <? len Ms); [| reflexivity].
      rewrite pack_I_ok by (unfold u32; lia). cbn [bind].
      rewrite (to_bytes_leaf "PACK"); [| reflexivity |].
      - cbn [bind flat_map app]. rewrite app_nil_r. reflexivity.
      - unfold len at 1. rewrite length_le_split. unfold u32. simpl. lia. }
    rewrite Hpack. cbn [bind].
    rewrite (models_loop_ok Ms _ Hfit). cbn [bind].
    rewrite (get_rgba_chunk_ok P Hcol). cbn [bind].
    rewrite (to_bytes_leaf "RGBA")
      by (try reflexivity; rewrite len_rgba_content; unfold u32; lia).
    cbn [bind].
    assert (Hchildren : (flat_map layout (pack_chunks Ms)
                           ++ flat_map layout (flat_map model_chunks Ms))
                          ++ layout (leaf "RGBA" (rgba_content P))
                        = flat_map layout (children_of Ms P)).
    { unfold children_of. rewrite !flat_map_app. cbn [flat_map].
      rewrite app_nil_r, <- !app_assoc. reflexivity. }
    rewrite Hchildren. rewrite to_bytes_ok.
    - unfold chunks_of. cbn [flat_map].
      set (F := flat_map layout (children_of Ms P)).
      unfold layout. cbn [tag children_size body].
      rewrite <- !app_assoc. reflexivity.
    - reflexivity.
    - unfold u32. change (len (@nil byte)) with 0. lia.
    - unfold u32. rewrite len_children_of. destruct (1 <? len Ms); lia. }
  unfold Writer.write. change (pack_I Writer.VOX_VERSION) with (OK (le_split 4 150)).
  rewrite Hmain. unfold Writer.magic, VOX_MAGIC. rewrite <- app_assoc. reflexivity.
Qed.

(** The pending size after the chunks of the models. *)
Definition size_after (Ms : list Writer.VoxModel) (current : option (Z * Z * Z))
  : option (Z * Z * Z) :=
  fold_left (fun _ M => Some (Writer.size_x M, Writer.size_y M, Writer.size_z M))
            Ms current.

Lemma extract_models_ok (Ms : list Writer.VoxModel) :
  forall st,
    Forall model_fits Ms ->
    extract_loop st (map parsed (flat_map model_chunks Ms))
    = OK (mkExtract (st_models st ++ map as_read Ms)
                    (size_after Ms (st_current_size st)) (st_palette st)).
Proof.
  induction Ms as [| M Ms IH]; intros st Hfit.
  - simpl. rewrite app_nil_r. destruct st. reflexivity.
  - inversion Hfit as [| ? ? HM Hfit']; subst.
    destruct HM as (Hx & Hy & Hz & Hn & Hvox).
    cbn [flat_map model_chunks app map]. unfold parsed at 1 2, leaf.
    cbn [tag body].
    change (decode_ascii_replace (list_byte_of_string "SIZE")) with (lit "SIZE").
    change (decode_ascii_replace (list_byte_of_string "XYZI")) with (lit "XYZI").
    cbn [extract_loop].
    change (extract_step st (mkChunk (lit "SIZE") (size_content M)))
      with ('(sx, sy, sz) <- read_SIZE (size_content M);;
            OK (mkExtract (st_models st) (Some (sx, sy, sz)) (st_palette st))).
    rewrite (read_SIZE_ok M Hx Hy Hz). cbn [bind].
    match goal with
    | |- context [extract_step ?st1 (mkChunk (lit "XYZI") ?c)] =>
        change (extract_step st1 (mkChunk (lit "XYZI") c))
          with (voxels <- read_XYZI c;;
                OK (mkExtract
                      (st_models st
                         ++ [mkModel (Writer.size_x M) (Writer.size_y M)
                                     (Writer.size_z M) voxels (0, 0, 0) 0 []])
                      (Some (Writer.size_x M, Writer.size_y M, Writer.size_z M))
                      (st_palette st)))
    end.
    rewrite (read_XYZI_ok M Hn Hvox). cbn [bind].
    rewrite (IH _ Hfit'). cbn [st_models st_current_size st_palette].
    cbn [map size_after fold_left]. unfold as_read at 2.
    rewrite <- app_assoc. reflexivity.
Qed.

Lemma graph_loop_none (int : str -> result Z) (chunks : list chunk) :
  Forall (fun c => has_id "nTRN" c = false /\ has_id "nSHP" c = false) chunks ->
  forall t s, graph_loop int t s chunks = OK (t, s).
Proof.
  induction 1 as [| c chunks [Ht Hs] _ IH]; intros t s; [reflexivity |].
  rewrite SceneFacts.graph_loop_unknown by assumption. apply IH.
Qed.

Lemma written_ids_no_graph (Ms : list Writer.VoxModel) (P : Writer.VoxPalette) :
  Forall (fun c => has_id "nTRN" c = false /\ has_id "nSHP" c = false)
         (map parsed (chunks_of Ms P)).
Proof.
  unfold chunks_of, children_of, pack_chunks. cbn [map].
  constructor; [split; reflexivity |].
  rewrite !map_app. apply Forall_app. split; [| apply Forall_app; split].
  - destruct (1 <? len Ms); repeat constructor.
  - induction Ms as [| M Ms IH]; [constructor |].
    cbn [flat_map model_chunks app map]. repeat constructor. exact IH.
  - repeat constructor.
Qed.

Lemma scene_of_models (int : str -> result Z) (Ms : list Writer.VoxModel)
  (P : Writer.VoxPalette) :
  Forall model_fits Ms -> Forall quad_bytes (Writer.colors P) ->
  scene_of_chunks int (map parsed (chunks_of Ms P))
  = OK (mkScene (map as_read Ms) (stored_palette P)
                (default_instances (map as_read Ms))).
Proof.
  intros Hfit Hcol. unfold scene_of_chunks.
  rewrite (graph_loop_none int _ (written_ids_no_graph Ms P)).
  assert (Hext : extract_loop extract_init (map parsed (chunks_of Ms P))
                 = OK (mkExtract (map as_read Ms) (size_after Ms None)
                                 (stored_palette P))).
  { unfold chunks_of, children_of. cbn [map].
    cbn [extract_loop].
    rewrite SceneFacts.extract_step_unknown by reflexivity. cbn [bind].
    rewrite !map_app, !extract_loop_app.
    assert (Hpack : extract_loop extract_init (map parsed (pack_chunks Ms))
                    = OK extract_init).
    { unfold pack_chunks. destruct (1 <? len Ms); [| reflexivity].
      cbn [map extract_loop].
      rewrite SceneFacts.extract_step_unknown by reflexivity. reflexivity. }
    rewrite Hpack. cbn [bind]. rewrite extract_loop_app.
    rewrite (extract_models_ok Ms extract_init Hfit). cbn [bind].
    cbn [map extract_loop]. unfold parsed, leaf. cbn [tag body].
    change (decode_ascii_replace (list_byte_of_string "RGBA")) with (lit "RGBA").
    match goal with
    | |- context [extract_step ?st (mkChunk (lit "RGBA") ?c)] =>
        change (extract_step st (mkChunk (lit "RGBA") c))
          with (palette <- read_RGBA c;;
                OK (mkExtract (st_models st) (st_current_size st) palette))
    end.
    rewrite (read_RGBA_ok P Hcol). reflexivity. }
  rewrite Hext. cbn [bind st_models st_palette build_instances].
  destruct (map as_read Ms); reflexivity.
Qed.

Lemma chunks_of_well_laid (Ms : list Writer.VoxModel) (P : Writer.VoxPalette) :
  Forall model_fits Ms -> models_size Ms + 1052 < 2 ^ 32 ->
  Forall well_laid (chunks_of Ms P).
Proof.
  intros Hfit Hsize.
  assert (H32 : 2 ^ 32 = 4294967296) by reflexivity.
  assert (Hleaf : forall s content,
            length (list_byte_of_string s) = 4%nat -> len content < 2 ^ 32 ->
            well_laid (leaf s content)).
  { intros s content Hs Hc. unfold well_laid, leaf. cbn [tag children_size body].
    repeat split; trivial. }
  unfold chunks_of, children_of, pack_chunks. constructor.
  - unfold well_laid. cbn [tag children_size body].
    repeat split; try apply length_le_split.
  - apply Forall_app. split; [| apply Forall_app; split].
    + destruct (1 <? len Ms); repeat constructor; try reflexivity.
    + clear Hsize. induction Hfit as [| M Ms HM _ IH]; [constructor |].
      destruct (model_chunks_fit M HM) as [Hs Hx].
      cbn [flat_map model_chunks app].
      constructor; [apply Hleaf; [reflexivity | apply Hs] |].
      constructor; [apply Hleaf; [reflexivity | apply Hx] | exact IH].
    + constructor; [| constructor]. apply Hleaf; [reflexivity |].
      rewrite len_rgba_content. lia.
Qed.

(** Writing any number of models and reading the file back: the scene has
    the models in the order they were added, each with its size and its
    voxels, one instance per model, and the palette as stored; the legacy
    [read_vox_file] returns the first model, or the 1x1x1 empty model when
    there is none. *)
Theorem write_read_models (int : str -> result Z) (Ms : list Writer.VoxModel)
  (P : Writer.VoxPalette) :
  Forall model_fits Ms -> Forall quad_bytes (Writer.colors P) ->
  models_size Ms + 1052 < 2 ^ 32 ->
  exists data,
    Writer.write (Writer.mkWriter Ms P) = (data, OK tt)
    /\ read_vox_scene int data
       = ([], OK (mkScene (map as_read Ms) (stored_palette P)
                          (default_instances (map as_read Ms))))
    /\ read_vox_file int data
       = ([], OK (match Ms with
                  | [] => mkData 1 1 1 [] (stored_palette P)
                  | M :: _ =>
                      mkData (Writer.size_x M) (Writer.size_y M) (Writer.size_z M)
                             (Writer.voxels M) (stored_palette P)
                  end)).
Proof.
  intros Hfit Hcol Hsize. eexists.
  split; [apply write_models_bytes; assumption |].
  assert (Hread : read_vox_scene int
                    (VOX_MAGIC ++ le_split 4 150 ++ flat_map layout (chunks_of Ms P))
                  = ([], OK (mkScene (map as_read Ms) (stored_palette P)
                                     (default_instances (map as_read Ms))))).
  { rewrite <- (app_nil_r (flat_map layout (chunks_of Ms P))).
    rewrite read_vox_scene_layout.
    - rewrite (scene_of_models int Ms P Hfit Hcol). reflexivity.
    - apply length_le_split.
    - apply chunks_of_well_laid; assumption.
    - simpl. lia. }
  split; [exact Hread |].
  unfold read_vox_file. rewrite Hread. cbn [bind models palette].
  destruct Ms as [| M Ms]; cbn [map]; [| reflexivity].
  assert (Hl : length (stored_palette P) = 256%nat)
    by (unfold stored_palette; rewrite length_map, length_seq; reflexivity).
  destruct (stored_palette P); [discriminate Hl | reflexivity].
Qed.

Lemma write_read_models_witness :
  exists data,
    Writer.write (Writer.mkWriter
                    [Writer.mkModel 2 2 2 [(0, 0, 0, 1)];
                     Writer.mkModel 3 1 1 [(2, 0, 0, 9)]]
                    Writer.new_palette) = (data, OK tt)
    /\ fst (read_vox_scene int_ascii data) = []
    /\ option_map (fun scene => map voxels (models scene))
         (match snd (read_vox_scene int_ascii data) with
          | OK scene => Some scene
          | Raise _ => None
          end)
       = Some [[(0, 0, 0, 1)]; [(2, 0, 0, 9)]].
Proof.
  assert (H32 : 2 ^ 32 = 4294967296) by reflexivity.
  assert (H24 : 2 ^ 24 = 16777216) by reflexivity.
  assert (Hfit : Forall model_fits
                   [Writer.mkModel 2 2 2 [(0, 0, 0, 1)];
                    Writer.mkModel 3 1 1 [(2, 0, 0, 9)]]).
  { repeat constructor; cbn; unfold byte_range; try lia. }
  destruct (write_read_models int_ascii _ Writer.new_palette Hfit
              (proj2 default_palette_valid))
    as (data & Hw & Hr & _).
  - vm_compute. reflexivity.
  - exists data. split; [exact Hw |]. rewrite Hr. repeat split.
Defined.

End WriterMore.

(** ** The version field and the scene (vox_reader.py) *)

Module VersionFacts.
Import Reader ReaderFacts RoundTrip WriterMore.



End VersionFacts.

(** ** Streams without a model (vox_reader.py) *)

Module NoModelFacts.
Import Reader ReaderFacts RoundTrip WriterMore.

(** The SIZE/XYZI pairs of a chunk list: the XYZI chunks that come after a
    SIZE chunk.  [pending] says that a SIZE chunk came before the list. *)
Fixpoint model_pairs (pending : bool) (chunks : list chunk) : nat :=
  match chunks with
  | [] => 0
  | c :: rest =>
      if has_id "SIZE" c then model_pairs true rest
      else if has_id "XYZI" c
           then (if pending then S (model_pairs pending rest)
                 else model_pairs pending rest)
           else model_pairs pending rest
  end.

(** A chunk the two passes decode without an error: a SIZE chunk holds its
    12 bytes, an XYZI chunk its count and the 4 bytes of every voxel it
    announces, an RGBA chunk its 1024 bytes, and the chunk is no node of the
    scene graph. *)
Definition decodable (c : chunk) : Prop :=
  (has_id "SIZE" c = true -> 12 <= len (content c))
  /\ (has_id "XYZI" c = true ->
      4 <= len (content c)
      /\ 4 + 4 * le_combine (slice (content c) 0 4) <= len (content c))
  /\ (has_id "RGBA" c = true -> 1024 <= len (content c))
  /\ has_id "nTRN" c = false /\ has_id "nSHP" c = false.

Definition size_pending (st : extract_state) : bool :=
  match st_current_size st with Some _ => true | None => false end.

Lemma length_slice_inside {A : Type} (l : list A) (lo n : Z) :
  0 <= lo -> 0 <= n -> lo + n <= len l ->
  length (slice l lo (lo + n)) = Z.to_nat n.
Proof.
  intros Hlo Hn Hle. unfold slice, len in *.
  rewrite length_firstn, length_skipn. lia.
Qed.

Lemma unpack_BBBB_total (b : bytes) :
  length b = 4%nat -> exists v, unpack_BBBB b = OK v.
Proof.
  destruct b as [| x [| y [| z [| w [| u b]]]]]; try discriminate.
  intros _. simpl. eauto.
Qed.

Lemma voxel_loop_total (content : bytes) (n : nat) :
  forall i acc, 0 <= i -> 4 + 4 * (i + Z.of_nat n) <= len content ->
    exists vs, voxel_loop n i content acc = OK vs.
Proof.
  induction n as [| n IH]; intros i acc Hi Hle; cbn [voxel_loop]; cbv zeta.
  - eauto.
  - destruct (unpack_BBBB_total (slice content (4 + i * 4) (4 + i * 4 + 4)))
      as [v Hv].
    { apply (length_slice_inside content (4 + i * 4) 4); lia. }
    rewrite Hv. cbn [bind]. apply IH; lia.
Qed.

Lemma palette_loop_total (content : bytes) (n : nat) :
  forall i acc, 0 <= i -> 4 * (i + Z.of_nat n) <= len content ->
    exists p, palette_loop n i content acc = OK p.
Proof.
  induction n as [| n IH]; intros i acc Hi Hle; cbn [palette_loop]; cbv zeta.
  - eauto.
  - destruct (unpack_BBBB_total (slice content (i * 4) (i * 4 + 4)))
      as [v Hv].
    { apply (length_slice_inside content (i * 4) 4); lia. }
    rewrite Hv. cbn [bind]. apply IH; lia.
Qed.

Lemma read_SIZE_total (content : bytes) :
  12 <= len content -> exists dims, read_SIZE content = OK dims.
Proof.
  intros Hle. unfold read_SIZE, unpack_III.
  assert (E : length (slice content 0 12) = 12%nat)
    by (apply (length_slice_inside content 0 12); lia).
  rewrite E. simpl. eauto.
Qed.

Lemma read_XYZI_total (content : bytes) :
  4 <= len content -> 4 + 4 * le_combine (slice content 0 4) <= len content ->
  exists voxels, read_XYZI content = OK voxels.
Proof.
  intros H4 Hle. unfold read_XYZI, unpack_I.
  assert (E : length (slice content 0 4) = 4%nat)
    by (apply (length_slice_inside content 0 4); lia).
  rewrite E. cbn [Nat.eqb bind].
  apply voxel_loop_total; lia.
Qed.

Lemma read_RGBA_total (content : bytes) :
  1024 <= len content -> exists palette, read_RGBA content = OK palette.
Proof.
  intros Hle. unfold read_RGBA. apply palette_loop_total; [lia |].
  change (Z.of_nat 256) with 256. lia.
Qed.

Lemma extract_step_total (c : chunk) :
  decodable c -> forall st, exists st', extract_step st c = OK st'.
Proof.
  intros (Hs & Hx & Hr & _) st. unfold extract_step.
  fold (has_id "SIZE" c) (has_id "XYZI" c) (has_id "RGBA" c).
  destruct (has_id "SIZE" c).
  { destruct (read_SIZE_total _ (Hs eq_refl)) as [[[sx sy] sz] E].
    rewrite E. cbn. eauto. }
  destruct (has_id "XYZI" c).
  { destruct (Hx eq_refl) as [H4 Hle].
    destruct (read_XYZI_total _ H4 Hle) as [voxels E].
    rewrite E. cbn [bind].
    destruct (st_current_size st) as [[[sx sy] sz] |]; eauto. }
  destruct (has_id "RGBA" c).
  { destruct (read_RGBA_total _ (Hr eq_refl)) as [palette E].
    rewrite E. cbn. eauto. }
  eauto.
Qed.

Lemma extract_loop_total (chunks : list chunk) :
  Forall decodable chunks ->
  forall st, exists st', extract_loop st chunks = OK st'.
Proof.
  induction 1 as [| c chunks Hc _ IH]; intros st; cbn [extract_loop].
  - eauto.
  - destruct (extract_step_total c Hc st) as [st1 E]. rewrite E. cbn [bind].
    apply IH.
Qed.

(** The first pass builds one model for every SIZE/XYZI pair. *)
Lemma extract_loop_counts (chunks : list chunk) :
  forall st st', extract_loop st chunks = OK st' ->
    length (st_models st')
    = (length (st_models st) + model_pairs (size_pending st) chunks)%nat.
Proof.
  induction chunks as [| c chunks IH]; intros st st' H;
    cbn [extract_loop model_pairs] in *.
  - inversion H. lia.
  - destruct (extract_step st c) as [st1 |] eqn:Hstep; [| discriminate].
    cbn [bind] in H. specialize (IH st1 st' H). rewrite IH.
    destruct (extract_step_cases st st1 c Hstep)
      as [(Hs & _ & dims & _ & E) | [(Hs & Hx & _ & voxels & _ & E)
         | [(Hs & Hx & _ & palette & _ & E) | (Hs & Hx & _ & E)]]];
      rewrite Hs; try rewrite Hx; rewrite E; unfold size_pending;
      destruct (st_current_size st) as [[[sx sy] sz] |] eqn:Ecur;
      cbn [st_models st_current_size]; rewrite ?Ecur, ?length_app; simpl; lia.
Qed.

(** The scene of a chunk list that decodes and holds no pair: no model,
    no instance, the palette of the file. *)
Lemma scene_without_models (int : str -> result Z) (chunks : list chunk) :
  Forall decodable chunks -> model_pairs false chunks = 0%nat ->
  exists palette, scene_of_chunks int chunks = OK (mkScene [] palette [])
                  /\ file_palette chunks = OK palette.
Proof.
  intros Hdec Hnone.
  destruct (extract_loop_total chunks Hdec extract_init) as [st Hext].
  pose proof (extract_loop_counts chunks _ _ Hext) as Hcount.
  change (size_pending extract_init) with false in Hcount.
  rewrite Hnone in Hcount. cbn in Hcount.
  pose proof (extract_loop_palette chunks _ _ Hext) as Hpal.
  fold (file_palette chunks) in Hpal.
  exists (st_palette st). split; [| exact Hpal].
  unfold scene_of_chunks. rewrite Hext. cbn [bind].
  rewrite (graph_loop_none int chunks).
  - destruct (st_models st); [reflexivity | discriminate Hcount].
  - apply Forall_forall. intros c Hin.
    rewrite Forall_forall in Hdec.
    destruct (Hdec c Hin) as (_ & _ & _ & Ht & Hs). split; assumption.
Qed.

(** C10, amended. Take a byte stream with the 'VOX ' magic, the 4 bytes of
    a version, complete chunks and fewer than 12 bytes after the last one,
    that contains no SIZE/XYZI pair: no XYZI chunk comes after a SIZE chunk.
    Whenever [read_vox_scene] returns a scene for it, that scene has no
    model and [read_vox_file] returns a [VoxelData] with
    [size_x = size_y = size_z = 1], an empty voxel list and a palette of 256
    entries: the one of the file's last RGBA chunk if there is one,
    otherwise the built-in default.  When moreover every SIZE, XYZI and RGBA
    chunk of the stream is long enough to be decoded and the stream has no
    nTRN and no nSHP chunk, [read_vox_file] does not raise and returns that
    [VoxelData].  For every stream that is read, the scene has as many
    models as the parsed chunks have SIZE/XYZI pairs. *)
Theorem read_vox_file_without_models (int : str -> result Z) (v : bytes)
  (cs : list raw_chunk) (tail : bytes) :
  length v = 4%nat -> Forall well_laid cs -> (length tail < 12)%nat ->
  model_pairs false (map parsed cs) = 0%nat ->
  (forall out scene,
      read_vox_scene int (VOX_MAGIC ++ v ++ flat_map layout cs ++ tail)
      = (out, OK scene) ->
      models scene = []
      /\ read_vox_file int (VOX_MAGIC ++ v ++ flat_map layout cs ++ tail)
         = (out, OK (mkData 1 1 1 [] (palette scene)))
      /\ length (palette scene) = 256%nat
      /\ file_palette (map parsed cs) = OK (palette scene))
  /\ (Forall decodable (map parsed cs) ->
      exists palette,
        read_vox_file int (VOX_MAGIC ++ v ++ flat_map layout cs ++ tail)
        = (warned (le_combine v), OK (mkData 1 1 1 [] palette))
        /\ length palette = 256%nat
        /\ file_palette (map parsed cs) = OK palette)
  /\ (forall data out scene,
        read_vox_scene int data = (out, OK scene) ->
        slice data 0 4 = VOX_MAGIC
        /\ exists chunks, parse_chunks data = OK chunks
             /\ length (models scene) = model_pairs false chunks).
Proof.
  intros Hv Hcs Htail Hnone.
  pose proof (read_vox_scene_layout int v cs tail Hv Hcs Htail) as Hread.
  split; [| split].
  - intros out scene H. rewrite Hread in H. inversion H as [[Hout Hscene]].
    destruct (scene_of_chunks_inv int _ scene Hscene) as (st & Hext & Hm & Hp).
    pose proof (extract_loop_counts _ _ _ Hext) as Hcount.
    change (size_pending extract_init) with false in Hcount.
    rewrite Hnone in Hcount. cbn in Hcount.
    assert (Hmodels : models scene = []).
    { rewrite Hm. destruct (st_models st); [reflexivity | discriminate Hcount]. }
    pose proof (extract_loop_palette _ _ _ Hext) as Hfile.
    fold (file_palette (map parsed cs)) in Hfile. rewrite <- Hp in Hfile.
    pose proof (file_palette_length _ _ Hfile) as Hlen.
    split; [exact Hmodels |]. split; [| split; [exact Hlen | exact Hfile]].
    unfold read_vox_file. rewrite Hread. rewrite Hscene. cbn [bind].
    rewrite Hmodels.
    destruct (palette scene); [discriminate Hlen | reflexivity].
  - intros Hdec.
    destruct (scene_without_models int _ Hdec Hnone) as (p & Hscene & Hfile).
    pose proof (file_palette_length _ _ Hfile) as Hlen.
    exists p. split; [| split; [exact Hlen | exact Hfile]].
    unfold read_vox_file. rewrite Hread. rewrite Hscene.
    cbn [bind models palette].
    destruct p; [discriminate Hlen | reflexivity].
  - intros data out scene H.
    destruct (read_vox_scene_inv int data out scene H)
      as (Hmagic & chunks & Hparse & Hscene).
    split; [exact Hmagic |]. exists chunks. split; [exact Hparse |].
    destruct (scene_of_chunks_inv int chunks scene Hscene)
      as (st & Hext & Hm & _).
    rewrite Hm. apply (extract_loop_counts _ _ _ Hext).
Qed.

Lemma read_vox_file_without_models_witness :
  read_vox_file int_ascii
    (VOX_MAGIC ++ le_split 4 150
       ++ flat_map layout
            [mkRaw (list_byte_of_string "XYZI") (le_split 4 0)
                   (le_split 4 1 ++ [Byte.x00; Byte.x01; Byte.x00; Byte.x07]);
             mkRaw (list_byte_of_string "SIZE") (le_split 4 0)
                   (le_split 4 2 ++ le_split 4 2 ++ le_split 4 2)]
       ++ [Byte.x00; Byte.x00; Byte.x00])
  = ([], OK (mkData 1 1 1 [] get_default_palette)).
Proof.
  assert (H32 : 2 ^ 32 = 4294967296) by reflexivity.
  assert (Hcs : Forall well_laid
                  [mkRaw (list_byte_of_string "XYZI") (le_split 4 0)
                     (le_split 4 1 ++ [Byte.x00; Byte.x01; Byte.x00; Byte.x07]);
                   mkRaw (list_byte_of_string "SIZE") (le_split 4 0)
                     (le_split 4 2 ++ le_split 4 2 ++ le_split 4 2)]).
  { repeat constructor; cbn; lia. }
  assert (Htail : (length [Byte.x00; Byte.x00; Byte.x00] < 12)%nat)
    by (simpl; lia).
  assert (Hdec : Forall decodable
                   (map parsed
                      [mkRaw (list_byte_of_string "XYZI") (le_split 4 0)
                         (le_split 4 1
                            ++ [Byte.x00; Byte.x01; Byte.x00; Byte.x07]);
                       mkRaw (list_byte_of_string "SIZE") (le_split 4 0)
                         (le_split 4 2 ++ le_split 4 2 ++ le_split 4 2)])).
  { repeat constructor; intros; try discriminate; vm_compute; discriminate. }
  destruct (proj1 (proj2 (read_vox_file_without_models int_ascii
                            (le_split 4 150) _ _ eq_refl Hcs Htail eq_refl))
              Hdec) as (p & Hread & _ & Hfile).
  injection Hfile as <-. exact Hread.
Defined.

End NoModelFacts.

(** ** Quantization in general (vox_exporter.py) *)

Module QuantizeMore.
Import Exporter QuantizeFacts.

Lemma len_pos_cons {A : Type} (a : A) (l : list A) : 1 <= len (a :: l).
Proof. unfold len. simpl length. lia. Qed.

Lemma average_length (box : list Color) : length (average box) = 1%nat.
Proof. destruct box; reflexivity. Qed.

(** [median_cut] always returns at least one colour. *)
Lemma median_cut_nonempty (depth : nat) :
  forall box, (1 <= length (median_cut depth box))%nat.
Proof.
  induction depth as [| depth IH]; intros box; cbn [median_cut].
  - rewrite average_length. lia.
  - destruct (len box <=? 1); [rewrite average_length; lia |].
    cbv zeta. rewrite length_app.
    match goal with
    | |- (1 <= length (median_cut depth ?a) + _)%nat => specialize (IH a)
    end.
    lia.
Qed.

(** The search returns the index it started with or a position of the
    palette. *)
Lemma closest_range (color : Color) (palette : list Color) :
  forall i best_idx best_dist r,
    closest color i palette best_idx best_dist = OK r ->
    r = best_idx \/ i <= r < i + len palette.
Proof.
  induction palette as [| pc palette IH]; intros i best_idx best_dist r H.
  - cbn [closest] in H. inversion H. left. reflexivity.
  - cbn [closest] in H.
    destruct (color_distance color pc) as [dist |]; [| discriminate].
    cbn [bind] in H. cbv zeta in H.
    pose proof (ReaderFacts.len_nonneg palette) as Hp.
    assert (Hl : len (pc :: palette) = 1 + len palette)
      by (unfold len; simpl length; lia).
    rewrite Hl.
    destruct (match best_dist with None => true | Some d => _ end).
    + destruct (IH _ _ _ _ H) as [E | E]; right; lia.
    + destruct (IH _ _ _ _ H) as [E | E]; [left; exact E |]. right. lia.
Qed.

Lemma closest_in_palette (color : Color) (palette : list Color) (r : Z) :
  palette <> [] ->
  closest color 0 palette 0 None = OK r ->
  0 <= r < len palette.
Proof.
  destruct palette as [| pc palette]; [contradiction |]. intros _ H.
  cbn [closest] in H.
  destruct (color_distance color pc) as [dist |]; [| discriminate].
  cbn [bind] in H.
  pose proof (ReaderFacts.len_nonneg palette) as Hp.
  assert (Hl : len (pc :: palette) = 1 + len palette)
    by (unfold len; simpl length; lia).
  destruct (closest_range color palette _ _ _ _ H) as [E | E]; lia.
Qed.

Lemma map_colors_get (unique_colors palette : list Color) :
  forall (d m : list (Color * Z)) (c : Color),
    map_colors unique_colors palette d = OK m ->
    In c unique_colors ->
    exists r, closest c 0 palette 0 None = OK r
              /\ dict_get color_eqb m c = Some (r + 1).
Proof.
  assert (Hkeep : forall l d' m' c, ~ In c l ->
            map_colors l palette d' = OK m' ->
            dict_get color_eqb m' c = dict_get color_eqb d' c).
  { induction l as [| x l IHl]; intros d' m' c Hnot H.
    - cbn [map_colors] in H. inversion H. reflexivity.
    - cbn [map_colors] in H.
      destruct (closest x 0 palette 0 None) as [r |]; [| discriminate].
      cbn [bind] in H.
      rewrite (IHl _ _ c (fun Hc => Hnot (or_intror Hc)) H).
      apply dict_get_set_other. intros ->. apply Hnot. left. reflexivity. }
  induction unique_colors as [| u rest IH]; intros d m c H Hin; [contradiction |].
  cbn [map_colors] in H.
  destruct (closest u 0 palette 0 None) as [r |] eqn:Er; [| discriminate].
  cbn [bind] in H.
  destruct (in_dec color_eq_dec c rest) as [Hrest | Hrest].
  - apply (IH _ _ c H Hrest).
  - destruct Hin as [-> | Hin]; [| contradiction].
    exists r. split; [exact Er |].
    rewrite (Hkeep _ _ _ _ Hrest H). apply dict_get_set_same.
Qed.

Lemma index_colors_range (palette : list Color) :
  forall (i : Z) (d : list (Color * Z)) (c : Color),
    In c palette ->
    exists j, dict_get color_eqb (index_colors i palette d) c = Some j
              /\ i + 1 <= j <= i + len palette.
Proof.
  induction palette as [| p palette IH]; intros i d c Hin; [contradiction |].
  cbn [index_colors].
  assert (Hl : len (p :: palette) = 1 + len palette)
    by (unfold len; simpl length; lia).
  pose proof (ReaderFacts.len_nonneg palette) as Hp.
  destruct (in_dec color_eq_dec c palette) as [Hrest | Hrest].
  - destruct (IH (i + 1) (dict_set color_eqb d p (i + 1)) c Hrest) as (j & Hj & Hr).
    exists j. split; [exact Hj | lia].
  - destruct Hin as [-> | Hin]; [| contradiction].
    exists (i + 1). split; [| lia].
    rewrite index_colors_other by exact Hrest. apply dict_get_set_same.
Qed.

Lemma len_slice_le {A : Type} (l : list A) (hi : Z) :
  0 <= hi -> len (slice l 0 hi) <= hi /\ len (slice l 0 hi) <= len l.
Proof.
  intros Hhi. unfold slice, len. simpl skipn. rewrite length_firstn. lia.
Qed.

(** *** Channels stay bytes *)

Definition byte_color (c : Color) : Prop :=
  0 <= red c <= 255 /\ 0 <= green c <= 255 /\ 0 <= blue c <= 255.

Lemma sum_bounds (l : list Z) :
  Forall (fun v => 0 <= v <= 255) l -> 0 <= sum l <= 255 * len l.
Proof.
  induction 1 as [| v l Hv _ IH]; unfold len, sum in *;
    cbn [fold_right length]; [lia |].
  rewrite Nat2Z.inj_succ. lia.
Qed.

Lemma mean_bounds (l : list Z) :
  l <> [] -> Forall (fun v => 0 <= v <= 255) l ->
  0 <= sum l / len l <= 255.
Proof.
  intros Hne Hl. pose proof (sum_bounds l Hl) as Hs.
  assert (Hpos : 0 < len l) by (destruct l; [contradiction | unfold len; simpl; lia]).
  split.
  - apply Z.div_pos; lia.
  - apply Z.div_le_upper_bound; lia.
Qed.

Lemma average_bytes (box : list Color) :
  Forall byte_color box -> Forall byte_color (average box).
Proof.
  intros Hbox. destruct box as [| c rest].
  - change (average []) with [(180, 180, 180) : Color].
    constructor; [| constructor].
    unfold byte_color, red, green, blue. cbn [fst snd]. lia.
  - set (box := c :: rest) in *.
    change (average box)
      with [(sum (map red box) / len box, sum (map green box) / len box,
             sum (map blue box) / len box)].
    assert (Hne : forall f : Color -> Z, map f box <> [])
      by (intros f; discriminate).
    assert (Hlen : forall f : Color -> Z, len (map f box) = len box)
      by (intros f; unfold len; rewrite length_map; reflexivity).
    assert (Hmean : forall f : Color -> Z,
              (forall a, byte_color a -> 0 <= f a <= 255) ->
              0 <= sum (map f box) / len box <= 255).
    { intros f Hf. rewrite <- (Hlen f). apply mean_bounds; [apply Hne |].
      apply Forall_map. eapply Forall_impl; [| exact Hbox]. exact Hf. }
    pose proof (Hmean red ltac:(intros a (Hr & _); exact Hr)) as Hr.
    pose proof (Hmean green ltac:(intros a (_ & Hg & _); exact Hg)) as Hg.
    pose proof (Hmean blue ltac:(intros a (_ & _ & Hb); exact Hb)) as Hb.
    constructor; [| constructor].
    split; [exact Hr | split; [exact Hg | exact Hb]].
Qed.

Lemma insert_by_Forall (P : Color -> Prop) (key : Color -> Z) (x : Color)
  (l : list Color) :
  P x -> Forall P l -> Forall P (insert_by key x l).
Proof.
  intros Hx. induction 1 as [| y l Hy Hl IH]; simpl.
  - constructor; [exact Hx | constructor].
  - destruct (key x <=? key y); repeat constructor; assumption.
Qed.

Lemma sorted_Forall (P : Color -> Prop) (key : Color -> Z) (box : list Color) :
  Forall P box -> Forall P (sorted key box).
Proof.
  induction 1 as [| x l Hx Hl IH]; simpl; [constructor |].
  apply insert_by_Forall; assumption.
Qed.

Lemma firstn_Forall {A : Type} (P : A -> Prop) (n : nat) :
  forall l, Forall P l -> Forall P (firstn n l).
Proof.
  induction n as [| n IH]; intros l Hl; [constructor |].
  destruct Hl; simpl; constructor; auto.
Qed.

Lemma skipn_Forall {A : Type} (P : A -> Prop) (n : nat) :
  forall l, Forall P l -> Forall P (skipn n l).
Proof.
  induction n as [| n IH]; intros l Hl; [exact Hl |].
  destruct Hl; simpl; [constructor | auto].
Qed.

Lemma median_cut_bytes (depth : nat) :
  forall box, Forall byte_color box -> Forall byte_color (median_cut depth box).
Proof.
  induction depth as [| depth IH]; intros box Hbox; cbn [median_cut].
  - apply average_bytes. exact Hbox.
  - destruct (len box <=? 1); [apply average_bytes; exact Hbox |].
    cbv zeta. apply Forall_app. split; apply IH.
    + apply firstn_Forall, sorted_Forall. exact Hbox.
    + apply skipn_Forall, sorted_Forall. exact Hbox.
Qed.

(** When every input colour has its channels in 0-255, so has every colour
    of the palette that [quantize_colors] returns, reduced or not: the
    averages of the median cut never leave the range of a byte. *)
Theorem quantize_palette_is_bytes (set_list : list Color -> list Color)
  (colors : list Color) (max_colors : Z) (palette : list Color)
  (color_to_index : list (Color * Z)) :
  Forall byte_color colors ->
  (forall c, In c (set_list colors) -> In c colors) ->
  quantize_colors set_list colors max_colors = OK (palette, color_to_index) ->
  Forall byte_color palette.
Proof.
  intros Hbytes Hsub. unfold quantize_colors.
  destruct colors as [| c1 colors1].
  { intros H. inversion H; subst. constructor; [| constructor].
    unfold byte_color, red, green, blue. cbn [fst snd]. lia. }
  set (cs := c1 :: colors1) in *.
  assert (Hset : Forall byte_color (set_list cs)).
  { apply Forall_forall. intros c Hc. rewrite Forall_forall in Hbytes.
    apply Hbytes, Hsub, Hc. }
  destruct (len (set_list cs) <=? max_colors).
  - intros H. inversion H; subst. exact Hset.
  - destruct (max_colors <=? 0); [discriminate |].
    cbv zeta. intros H.
    destruct (map_colors _ _ _) as [m |]; [| discriminate].
    cbn [bind] in H. inversion H; subst.
    unfold slice. simpl skipn. apply firstn_Forall, median_cut_bytes. exact Hset.
Qed.

Lemma quantize_palette_is_bytes_witness :
  Forall byte_color [(1, 2, 3); (5, 6, 6)].
Proof.
  refine (quantize_palette_is_bytes first_seen
            [(1, 2, 3); (4, 5, 6); (1, 2, 3); (7, 7, 7)] 2 _
            [((1, 2, 3), 1); ((4, 5, 6), 2); ((7, 7, 7), 2)] _ _ eq_refl).
  - repeat constructor; unfold red, green, blue; cbn [fst snd]; lia.
  - intros c. vm_compute. tauto.
Defined.

(** *** The distances of byte colours *)

Lemma square_bound (a b : Z) :
  0 <= a <= 255 -> 0 <= b <= 255 -> 0 <= (a - b) ^ 2 <= 65025.
Proof.
  intros Ha Hb. set (d := a - b).
  assert (Hd : -255 <= d <= 255) by (unfold d; lia).
  assert (H1 : 0 <= (255 - d) * (255 + d)) by (apply Z.mul_nonneg_nonneg; lia).
  assert (H2 : (255 - d) * (255 + d) = 65025 - d ^ 2) by ring.
  pose proof (Z.pow_even_nonneg d 2 ltac:(exists 1; reflexivity)). lia.
Qed.

(** Between byte colours the sum of the squares is far from the range of a
    double, and [color_distance] returns. *)
Lemma color_distance_bytes (c1 c2 : Color) :
  byte_color c1 -> byte_color c2 ->
  exists d, color_distance c1 c2 = OK d.
Proof.
  intros (Hr1 & Hg1 & Hb1) (Hr2 & Hg2 & Hb2). unfold color_distance.
  cbv zeta.
  assert (Hs : color_distance_sq c1 c2 <= 195075).
  { unfold color_distance_sq.
    pose proof (square_bound _ _ Hr1 Hr2). pose proof (square_bound _ _ Hg1 Hg2).
    pose proof (square_bound _ _ Hb1 Hb2). lia. }
  assert (Hfar : 195075 < float_overflow) by reflexivity.
  replace (float_overflow <=? color_distance_sq c1 c2) with false
    by (symmetry; apply Z.leb_gt; lia).
  eexists. reflexivity.
Qed.

(** The threshold is the one of the conversion: the integer just below it
    is rounded to the largest double, the threshold itself to infinity. *)
Lemma float_overflow_threshold :
  float_of_int (float_overflow - 1)
  = S754_finite false 9007199254740991 971
  /\ float_of_int float_overflow = S754_infinity false.
Proof. split; vm_compute; reflexivity. Qed.

Lemma closest_bytes (color : Color) (palette : list Color) :
  byte_color color -> Forall byte_color palette ->
  forall i best_idx best_dist,
    exists r, closest color i palette best_idx best_dist = OK r.
Proof.
  intros Hc Hp. induction Hp as [| pc palette Hpc _ IH];
    intros i best_idx best_dist; cbn [closest].
  - eexists. reflexivity.
  - destruct (color_distance_bytes color pc Hc Hpc) as (d & ->). cbn [bind].
    destruct (match best_dist with None => true | Some d0 => _ end); apply IH.
Qed.

Lemma map_colors_bytes (unique_colors palette : list Color) :
  Forall byte_color unique_colors -> Forall byte_color palette ->
  forall d, exists m, map_colors unique_colors palette d = OK m.
Proof.
  intros Hu Hp. induction Hu as [| u rest Hbu _ IH]; intros d; cbn [map_colors].
  - eexists. reflexivity.
  - destruct (closest_bytes u palette Hbu Hp 0 0 None) as (r & ->). cbn [bind].
    apply IH.
Qed.

(** For every list of colours with channels in 0-255 and every
    [max_colors >= 1], whatever the order of the set, [quantize_colors]
    returns: the palette has at least one and at most [max_colors] colours,
    and the mapping gives every input colour an index between 1 and the
    palette length.  The bound on the channels is needed: with a channel too
    large for a double the call raises [OverflowError] in
    [color_distance]. *)
Theorem quantize_indices_are_valid (set_list : list Color -> list Color)
  (colors : list Color) (max_colors : Z) :
  1 <= max_colors ->
  Forall byte_color colors ->
  (forall c, In c (set_list colors) <-> In c colors) ->
  (exists palette color_to_index,
     quantize_colors set_list colors max_colors = OK (palette, color_to_index)
     /\ 1 <= len palette <= max_colors
     /\ forall c, In c colors ->
          exists i, dict_get color_eqb color_to_index c = Some i
                    /\ 1 <= i <= len palette)
  /\ quantize_colors first_seen [(0, 0, 0); (10 ^ 200, 0, 0)] 1
     = Raise OverflowError.
Proof.
  intros Hmax Hbytes Hset. split; [| vm_compute; reflexivity].
  unfold quantize_colors.
  destruct colors as [| c1 colors1].
  { eexists _, _. split; [reflexivity |]. split.
    - unfold len. simpl. lia.
    - intros c []. }
  assert (Hne : set_list (c1 :: colors1) <> []).
  { intros E. assert (Hin : In c1 (set_list (c1 :: colors1)))
      by (apply Hset; left; reflexivity).
    rewrite E in Hin. exact Hin. }
  set (cs := c1 :: colors1) in *.
  assert (Hunique : Forall byte_color (set_list cs)).
  { apply Forall_forall. intros c Hc. rewrite Forall_forall in Hbytes.
    apply Hbytes, Hset, Hc. }
  destruct (len (set_list cs) <=? max_colors) eqn:Hsmall.
  - apply Z.leb_le in Hsmall. eexists _, _. split; [reflexivity |]. split.
    + destruct (set_list cs) as [| u us]; [contradiction |].
      pose proof (len_pos_cons u us). lia.
    + intros c Hc. apply Hset in Hc.
      destruct (index_colors_range (set_list cs) 0 [] c Hc) as (j & Hj & Hr).
      exists j. split; [exact Hj | lia].
  - replace (max_colors <=? 0) with false by (symmetry; apply Z.leb_gt; lia).
    cbv zeta.
    set (full := median_cut (Z.to_nat (Z.log2 max_colors)) (set_list cs)).
    pose proof (median_cut_nonempty (Z.to_nat (Z.log2 max_colors)) (set_list cs))
      as Hfull. fold full in Hfull.
    assert (Hpal : Forall byte_color (slice full 0 max_colors)).
    { unfold slice. simpl skipn. apply firstn_Forall, median_cut_bytes.
      exact Hunique. }
    destruct (map_colors_bytes (set_list cs) (slice full 0 max_colors)
                Hunique Hpal []) as (m & Hm).
    rewrite Hm. cbn [bind]. eexists _, _. split; [reflexivity |].
    destruct (len_slice_le full max_colors ltac:(lia)) as [Hle _].
    assert (Hpos : 1 <= len (slice full 0 max_colors)).
    { unfold slice, len. simpl skipn. rewrite length_firstn. lia. }
    split; [lia |].
    intros c Hc. apply Hset in Hc.
    destruct (map_colors_get _ _ _ _ c Hm Hc) as (r & Hr & Hget).
    exists (r + 1). split; [exact Hget |].
    assert (Hnonempty : slice full 0 max_colors <> []).
    { intros E. rewrite E in Hpos. unfold len in Hpos. simpl in Hpos. lia. }
    pose proof (closest_in_palette c _ r Hnonempty Hr). lia.
Qed.

Lemma quantize_indices_are_valid_witness :
  exists palette color_to_index,
    quantize_colors first_seen [(1, 2, 3); (4, 5, 6); (1, 2, 3); (7, 7, 7)] 2
    = OK (palette, color_to_index)
    /\ 1 <= len palette <= 2.
Proof.
  assert (Hmax : 1 <= 2) by lia.
  assert (Hbytes : Forall byte_color [(1, 2, 3); (4, 5, 6); (1, 2, 3); (7, 7, 7)]).
  { repeat constructor; unfold red, green, blue; cbn [fst snd]; lia. }
  assert (Hset : forall c,
            In c (first_seen [(1, 2, 3); (4, 5, 6); (1, 2, 3); (7, 7, 7)])
            <-> In c [(1, 2, 3); (4, 5, 6); (1, 2, 3); (7, 7, 7)]).
  { intros c. vm_compute. tauto. }
  destruct (quantize_indices_are_valid first_seen _ 2 Hmax Hbytes Hset)
    as ((palette & color_to_index & Hq & Hlen & _) & _).
  exists palette, color_to_index. split; assumption.
Defined.

End QuantizeMore.

(** ** [create_simple_vox] (vox_writer.py) *)

Module SimpleFacts.
Import Exporter Simple.

(** *** The dictionary of colours *)

Lemma color_index_In (d : list (Color * Z)) (c : Color) (i : Z) :
  dict_get color_eqb d c = Some i -> In (c, i) d.
Proof.
  induction d as [| [k w] d IH]; simpl; [discriminate |].
  destruct (color_eqb k c) eqn:E.
  - apply QuantizeFacts.color_eqb_eq in E. intros H. left. congruence.
  - intros H. right. auto.
Qed.

Lemma dict_get_absent (d : list (Color * Z)) (c : Color) :
  dict_get color_eqb d c = None -> ~ In c (map fst d).
Proof.
  induction d as [| [k w] d IH]; simpl; [tauto |].
  destruct (color_eqb k c) eqn:E; [discriminate |].
  intros H [Hk | Hin]; [| exact (IH H Hin)].
  subst k. rewrite QuantizeFacts.color_eqb_refl in E. discriminate.
Qed.

Lemma dict_set_absent (d : list (Color * Z)) (c : Color) (v : Z) :
  dict_get color_eqb d c = None ->
  dict_set color_eqb d c v = d ++ [(c, v)].
Proof.
  induction d as [| [k w] d IH]; simpl; [reflexivity |].
  destruct (color_eqb k c); [discriminate |].
  intros H. rewrite (IH H). reflexivity.
Qed.

Lemma dict_set_keeps (d : list (Color * Z)) (c c' : Color) (v j : Z) :
  dict_get color_eqb d c = None ->
  dict_get color_eqb d c' = Some j ->
  dict_get color_eqb (dict_set color_eqb d c v) c' = Some j.
Proof.
  intros Hc Hc'. rewrite QuantizeFacts.dict_get_set_other; [exact Hc' |].
  intros ->. congruence.
Qed.

(** The index the search returns is the starting one or one of the
    dictionary. *)
Lemma closest_index_in (r g b : Z) (items : list (Color * Z)) :
  forall best_index best_dist,
    closest_index r g b items best_index best_dist = best_index
    \/ In (closest_index r g b items best_index best_dist) (map snd items).
Proof.
  induction items as [| [[[cr cg] cb] idx] items IH]; intros bi bd; simpl.
  - left. reflexivity.
  - match goal with
    | |- context [if ?t then _ else _] => destruct t
    end.
    + destruct (IH idx (Some ((r - cr) ^ 2 + (g - cg) ^ 2 + (b - cb) ^ 2)))
        as [H | H]; rewrite ?H; auto.
    + destruct (IH bi bd) as [H | H]; auto.
Qed.

(** *** The loop over the voxels *)

(** What every turn of the loop keeps, whatever the voxels are: the next
    index is between 1 and 256, the indices handed out are between 1 and
    255, and the palette has its 256 entries. *)
Definition general (st : build_state) : Prop :=
  1 <= next_index st <= 256
  /\ Forall (fun e : Color * Z => 1 <= snd e <= 255) (color_to_index st)
  /\ length (Writer.colors (palette st)) = 256%nat.

(** What the loop keeps as long as the colours are among the colours [U]
    and these are at most 255: every colour of the dictionary has an index
    of its own, below the next one, and the palette holds the colour, with
    alpha 255, at that index. *)
Definition exact (U : list Color) (st : build_state) : Prop :=
  NoDup (map fst (color_to_index st))
  /\ incl (map fst (color_to_index st)) U
  /\ next_index st = 1 + len (color_to_index st)
  /\ forall r g b i,
       dict_get color_eqb (color_to_index st) (r, g, b) = Some i ->
       i < next_index st
       /\ getitem (Writer.colors (palette st)) i = OK (r, g, b, 255).

Lemma index_of_color_step (st : build_state) (r g b : Z) :
  general st ->
  exists st' i,
    index_of_color st r g b = OK (st', i)
    /\ general st'
    /\ 1 <= i <= 255
    /\ dict_get color_eqb (color_to_index st') (r, g, b) = Some i
    /\ (forall c j, dict_get color_eqb (color_to_index st) c = Some j ->
                    dict_get color_eqb (color_to_index st') c = Some j)
    /\ model st' = model st
    /\ (RoundTrip.byte_range r -> RoundTrip.byte_range g ->
        RoundTrip.byte_range b ->
        Forall RoundTrip.quad_bytes (Writer.colors (palette st)) ->
        Forall RoundTrip.quad_bytes (Writer.colors (palette st')))
    /\ (forall U, (length U <= 255)%nat -> In (r, g, b) U ->
                  exact U st -> exact U st').
Proof.
  intros (Hn & Hv & Hl). unfold index_of_color.
  destruct (dict_get color_eqb (color_to_index st) (r, g, b)) as [i |] eqn:E.
  - exists st, i. split; [reflexivity |].
    split; [exact (conj Hn (conj Hv Hl)) |].
    split.
    { apply color_index_In in E. rewrite Forall_forall in Hv. apply (Hv _ E). }
    split; [exact E |]. split; [auto |]. split; [reflexivity |]. auto.
  - destruct (255 <? next_index st) eqn:Efull.
    + apply Z.ltb_lt in Efull.
      set (bi := closest_index r g b (color_to_index st) 1 None).
      assert (Hbi : 1 <= bi <= 255).
      { destruct (closest_index_in r g b (color_to_index st) 1 None)
          as [H | H]; fold bi in H; [lia |].
        apply in_map_iff in H. destruct H as (e & He & Hin).
        rewrite Forall_forall in Hv. specialize (Hv e Hin). lia. }
      eexists _, bi. split; [reflexivity |].
      cbn [color_to_index next_index palette model].
      split.
      { unfold general. cbn [color_to_index next_index palette model].
        split; [lia |]. split; [| exact Hl].
        rewrite (dict_set_absent _ _ bi E). apply Forall_app. split; [exact Hv |].
        constructor; [exact Hbi | constructor]. }
      split; [exact Hbi |].
      split; [apply QuantizeFacts.dict_get_set_same |].
      split; [intros c j Hc; apply dict_set_keeps; assumption |].
      split; [reflexivity |]. split; [auto |].
      intros U HU Hin (Hnd & Hincl & Hnext & _). exfalso.
      assert (Hnd' : NoDup ((r, g, b) :: map fst (color_to_index st))).
      { constructor; [apply dict_get_absent; exact E | exact Hnd]. }
      assert (Hincl' : incl ((r, g, b) :: map fst (color_to_index st)) U).
      { intros c [<- | Hc]; auto. }
      pose proof (NoDup_incl_length Hnd' Hincl') as Hle.
      cbn [length] in Hle. rewrite length_map in Hle. unfold len in Hnext. lia.
    + apply Z.ltb_ge in Efull.
      assert (Hi : 1 <= next_index st <= 255) by lia.
      assert (Hlt : next_index st < len (Writer.colors (palette st)))
        by (unfold len; lia).
      rewrite (WriterMore.set_color_ok (palette st) (next_index st) r g b 255
                 Hi Hlt).
      eexists _, (next_index st). split; [reflexivity |].
      cbn [color_to_index next_index palette model Writer.colors].
      split.
      { unfold general. cbn [color_to_index next_index palette model Writer.colors].
        split; [lia |]. split.
        - rewrite (dict_set_absent _ _ (next_index st) E).
          apply Forall_app. split; [exact Hv |].
          constructor; [exact Hi | constructor].
        - rewrite WriterMore.length_list_set. exact Hl. }
      split; [exact Hi |].
      split; [apply QuantizeFacts.dict_get_set_same |].
      split; [intros c j Hc; apply dict_set_keeps; assumption |].
      split; [reflexivity |]. split.
      { intros Hr Hg Hb Hq. apply WriterMore.list_set_Forall; [exact Hq |].
        unfold RoundTrip.quad_bytes, RoundTrip.byte_range in *. lia. }
      intros U HU Hin (Hnd & Hincl & Hnext & Hcol).
      unfold exact. cbn [color_to_index next_index palette model Writer.colors].
      rewrite (dict_set_absent _ _ (next_index st) E).
      split; [| split; [| split]].
      * rewrite map_app. cbn [map fst].
        apply NoDup_app.
        { exact Hnd. }
        { repeat constructor. simpl. tauto. }
        { intros c Hc [<- | []]. exact (dict_get_absent _ _ E Hc). }
      * rewrite map_app. cbn [map fst]. apply incl_app; [exact Hincl |].
        intros c [<- | []]. exact Hin.
      * unfold len in *. rewrite length_app. cbn [length]. lia.
      * intros r' g' b' i Hget.
        rewrite <- (dict_set_absent _ _ (next_index st) E) in Hget.
        destruct (color_eq_dec (r, g, b) (r', g', b')) as [Heq | Hne].
        { inversion Heq; subst r' g' b'.
          rewrite QuantizeFacts.dict_get_set_same in Hget.
          inversion Hget; subst i. split; [lia |].
          unfold getitem. rewrite WriterMore.nth_error_list_set_same by lia.
          reflexivity. }
        { rewrite (QuantizeFacts.dict_get_set_other _ _ _ _ Hne) in Hget.
          destruct (Hcol r' g' b' i Hget) as (Hlt' & Hc).
          split; [lia |]. unfold getitem in *.
          rewrite WriterMore.nth_error_list_set_other; [exact Hc |].
          assert (1 <= i).
          { apply color_index_In in Hget. rewrite Forall_forall in Hv.
            apply (Hv _ Hget). }
          lia. }
Qed.

(** The position and the colour of a voxel of the input. *)
Definition place (v : ColoredVoxel) : Z * Z * Z := fst v.
Definition color_of (v : ColoredVoxel) : Color := snd v.

Definition coords_in_range (v : ColoredVoxel) : Prop :=
  let '(x, y, z, _) := v in
  RoundTrip.byte_range x /\ RoundTrip.byte_range y /\ RoundTrip.byte_range z.

Definition color_in_range (v : ColoredVoxel) : Prop :=
  let '(_, _, _, (r, g, b)) := v in
  RoundTrip.byte_range r /\ RoundTrip.byte_range g /\ RoundTrip.byte_range b.

(** [color_to_index[c]] for a colour of the dictionary. *)
Definition lookup (d : list (Color * Z)) (c : Color) : Z :=
  match dict_get color_eqb d c with
  | Some i => i
  | None => 1
  end.

(** The voxel of the model for a voxel of the input, under an assignment
    of indices to colours. *)
Definition paint (index : Color -> Z) (v : ColoredVoxel) : Voxel :=
  let '(x, y, z, c) := v in (x, y, z, index c).

Lemma general_model (st : build_state) (m : Writer.VoxModel) :
  general st ->
  general (mkBuild (color_to_index st) (next_index st) (palette st) m).
Proof. intros H. exact H. Qed.

Lemma exact_model (U : list Color) (st : build_state) (m : Writer.VoxModel) :
  exact U st ->
  exact U (mkBuild (color_to_index st) (next_index st) (palette st) m).
Proof. intros H. exact H. Qed.

Lemma build_loop_ok (voxels : list ColoredVoxel) :
  forall st,
    general st -> Forall coords_in_range voxels ->
    exists st',
      build_loop voxels st = OK st'
      /\ general st'
      /\ (forall c j, dict_get color_eqb (color_to_index st) c = Some j ->
                      dict_get color_eqb (color_to_index st') c = Some j)
      /\ Writer.voxels (model st')
         = Writer.voxels (model st)
           ++ map (paint (lookup (color_to_index st'))) voxels
      /\ Writer.size_x (model st') = Writer.size_x (model st)
      /\ Writer.size_y (model st') = Writer.size_y (model st)
      /\ Writer.size_z (model st') = Writer.size_z (model st)
      /\ (Forall color_in_range voxels ->
          Forall RoundTrip.quad_bytes (Writer.colors (palette st)) ->
          Forall RoundTrip.quad_bytes (Writer.colors (palette st')))
      /\ (forall U, (length U <= 255)%nat ->
                    Forall (fun v => In (color_of v) U) voxels ->
                    exact U st -> exact U st')
      /\ Forall (fun v => dict_get color_eqb (color_to_index st') (color_of v)
                          <> None) voxels.
Proof.
  induction voxels as [| [[[x y] z] [[r g] b]] voxels IH]; intros st Hg Hc.
  - exists st. cbn [build_loop map]. rewrite app_nil_r.
    repeat (split; [solve [auto] |]). constructor.
  - inversion Hc as [| v vs Hhead Hc']; subst v vs.
    unfold coords_in_range in Hhead. destruct Hhead as (Hx & Hy & Hz).
    destruct (index_of_color_step st r g b Hg)
      as (st1 & i & Hstep & Hg1 & Hi & Hget & Hkeep & Hmodel & Hpal & Hexact).
    cbn [build_loop]. rewrite Hstep. cbn [bind].
    assert (Hin : WriterFacts.voxel_in_range x y z i).
    { unfold WriterFacts.voxel_in_range.
      unfold RoundTrip.byte_range in Hx, Hy, Hz. lia. }
    rewrite (WriterFacts.add_voxel_accepts (model st1) x y z i Hin).
    set (st2 := mkBuild (color_to_index st1) (next_index st1) (palette st1) _).
    destruct (IH st2 (general_model st1 _ Hg1) Hc')
      as (st' & Hloop & Hg' & Hkeep' & Hvox & Hsx & Hsy & Hsz & Hpal' & Hexact'
          & Hall).
    exists st'. split; [exact Hloop |]. split; [exact Hg' |].
    unfold st2 in *. cbn [color_to_index next_index palette model
                          Writer.voxels Writer.size_x Writer.size_y
                          Writer.size_z] in *.
    split; [intros c j Hcj; apply Hkeep', Hkeep; exact Hcj |].
    split.
    { rewrite Hvox, Hmodel, <- app_assoc. cbn [app map paint].
      unfold lookup at 2. rewrite (Hkeep' _ _ Hget). reflexivity. }
    rewrite Hsx, Hsy, Hsz, Hmodel.
    repeat (split; [reflexivity |]).
    split.
    { intros Hcol Hq. inversion Hcol as [| v vs Hrgb Hcol']; subst v vs.
      unfold color_in_range in Hrgb. destruct Hrgb as (Hr & Hgr & Hb). auto. }
    split.
    { intros U HU HinU HE. inversion HinU as [| v vs Hhead Htail]; subst v vs.
      apply (Hexact' U HU Htail). apply exact_model.
      apply (Hexact U HU Hhead HE). }
    constructor; [| exact Hall].
    cbn [color_of snd]. rewrite (Hkeep' _ _ Hget). discriminate.
Qed.

(** The loop stops at the first voxel with a coordinate outside 0-255, with
    the [ValueError] of [add_voxel]; nothing before that can fail. *)
Lemma build_loop_rejects (voxels : list ColoredVoxel) :
  forall st,
    general st -> Exists (fun v => ~ coords_in_range v) voxels ->
    build_loop voxels st = Raise ValueError.
Proof.
  induction voxels as [| [[[x y] z] [[r g] b]] voxels IH]; intros st Hg Hbad.
  - inversion Hbad.
  - destruct (index_of_color_step st r g b Hg)
      as (st1 & i & Hstep & Hg1 & Hi & _).
    cbn [build_loop]. rewrite Hstep. cbn [bind].
    destruct (WriterMore.accepted (x, y, z, i)) eqn:Ea.
    + apply WriterMore.accepted_iff in Ea.
      rewrite (WriterFacts.add_voxel_accepts (model st1) x y z i Ea).
      apply IH; [apply general_model; exact Hg1 |].
      inversion Hbad as [v vs Hhead | v vs Htail]; subst v vs; [| exact Htail].
      exfalso. apply Hhead. unfold coords_in_range, RoundTrip.byte_range.
      unfold WriterFacts.voxel_in_range in Ea. lia.
    + assert (Hn : ~ WriterFacts.voxel_in_range x y z i).
      { intros Hin. apply WriterMore.accepted_iff in Hin. congruence. }
      rewrite (WriterFacts.add_voxel_rejects (model st1) x y z i Hn).
      reflexivity.
Qed.

(** *** The size of the model *)

Lemma fold_max_bounds (d : Z) (l : list Z) :
  (fold_right Z.max d l = d \/ In (fold_right Z.max d l) l)
  /\ d <= fold_right Z.max d l
  /\ forall x, In x l -> x <= fold_right Z.max d l.
Proof.
  induction l as [| a l (Hin & Hd & Hall)]; simpl.
  - split; [auto |]. split; [lia | tauto].
  - split; [| split].
    + destruct (Z.max_spec a (fold_right Z.max d l)) as [(_ & ->) | (_ & ->)];
        tauto.
    + lia.
    + intros x [<- | Hx]; [lia |]. specialize (Hall x Hx). lia.
Qed.

Lemma maximum_bounds (l : list Z) :
  l <> [] -> In (maximum l) l /\ forall x, In x l -> x <= maximum l.
Proof.
  destruct l as [| a l]; [congruence |]. intros _.
  unfold maximum. cbn [hd].
  destruct (fold_max_bounds a (a :: l)) as (Hin & _ & Hall).
  split; [| exact Hall]. destruct Hin as [-> | Hin]; [left; reflexivity | exact Hin].
Qed.

(** [s] is the least bound above all the coordinates. *)
Definition bounding (coords : list Z) (s : Z) : Prop :=
  (forall x, In x coords -> x < s) /\ In (s - 1) coords.

Lemma maximum_bounding (l : list Z) : l <> [] -> bounding l (maximum l + 1).
Proof.
  intros Hl. destruct (maximum_bounds l Hl) as (Hin & Hall). split.
  - intros x Hx. specialize (Hall x Hx). lia.
  - replace (maximum l + 1 - 1) with (maximum l) by lia. exact Hin.
Qed.

(** The size the model gets. *)
Definition box (voxels : list ColoredVoxel) (size : option (Z * Z * Z))
  : Z * Z * Z :=
  match size with
  | Some s => s
  | None =>
      (maximum (xs voxels) + 1, maximum (ys voxels) + 1,
       maximum (zs voxels) + 1)
  end.

Definition start (s : Z * Z * Z) : build_state :=
  let '(sx, sy, sz) := s in
  mkBuild [] 1 Writer.new_palette (Writer.new_model sx sy sz).

Lemma create_simple_vox_run (voxels : list ColoredVoxel)
  (size : option (Z * Z * Z)) :
  voxels <> [] ->
  create_simple_vox voxels size
  = match build_loop voxels (start (box voxels size)) with
    | Raise e => (None, Raise e)
    | OK st =>
        (Some (fst (Writer.write (Writer.mkWriter [model st] (palette st)))),
         snd (Writer.write (Writer.mkWriter [model st] (palette st))))
    end.
Proof.
  intros Hne. destruct voxels as [| v voxels]; [congruence |].
  unfold create_simple_vox, box, start.
  destruct size as [[[sx sy] sz] |].
  - destruct (build_loop _ _) as [st | e]; [| reflexivity].
    change (Writer.add_model _ _) with (Writer.mkWriter [model st] (palette st)).
    destruct (Writer.write _). reflexivity.
  - destruct (build_loop _ _) as [st | e]; [| reflexivity].
    change (Writer.add_model _ _) with (Writer.mkWriter [model st] (palette st)).
    destruct (Writer.write _). reflexivity.
Qed.

Lemma general_start (s : Z * Z * Z) : general (start s).
Proof.
  destruct s as [[sx sy] sz]. unfold general, start.
  cbn [next_index color_to_index palette]. split; [lia |].
  split; [constructor |]. apply RoundTrip.default_palette_valid.
Qed.

Lemma exact_start (U : list Color) (s : Z * Z * Z) : exact U (start s).
Proof.
  destruct s as [[sx sy] sz]. unfold exact, start.
  cbn [next_index color_to_index palette map]. split; [constructor |].
  split; [intros c [] |]. split; [reflexivity |].
  intros r g b i H. discriminate H.
Qed.

Lemma lookup_range (st : build_state) (c : Color) :
  general st -> 1 <= lookup (color_to_index st) c <= 255.
Proof.
  intros (_ & Hv & _). unfold lookup.
  destruct (dict_get color_eqb (color_to_index st) c) as [i |] eqn:E; [| lia].
  apply color_index_In in E. rewrite Forall_forall in Hv. apply (Hv _ E).
Qed.

Lemma coords_bytes (voxels : list ColoredVoxel) :
  Forall coords_in_range voxels ->
  (forall x, In x (xs voxels) -> RoundTrip.byte_range x)
  /\ (forall y, In y (ys voxels) -> RoundTrip.byte_range y)
  /\ (forall z, In z (zs voxels) -> RoundTrip.byte_range z).
Proof.
  intros Hc. rewrite Forall_forall in Hc. unfold xs, ys, zs.
  split; [| split]; intros a Ha; apply in_map_iff in Ha;
    destruct Ha as ([[[x y] z] c] & <- & Hin); apply (Hc _ Hin).
Qed.

Lemma box_fits (voxels : list ColoredVoxel) (size : option (Z * Z * Z))
  (sx sy sz : Z) :
  voxels <> [] -> Forall coords_in_range voxels ->
  (forall a b c, size = Some (a, b, c) ->
     RoundTrip.u32 a /\ RoundTrip.u32 b /\ RoundTrip.u32 c) ->
  box voxels size = (sx, sy, sz) ->
  (RoundTrip.u32 sx /\ RoundTrip.u32 sy /\ RoundTrip.u32 sz)
  /\ match size with
     | Some s => (sx, sy, sz) = s
     | None => bounding (xs voxels) sx /\ bounding (ys voxels) sy
               /\ bounding (zs voxels) sz
     end.
Proof.
  intros Hne Hc Hsize Hbox. destruct size as [[[a b] c] |]; cbn [box] in Hbox.
  - inversion Hbox; subst. split; [apply Hsize; reflexivity | reflexivity].
  - inversion Hbox; subst. clear Hbox.
    destruct (coords_bytes voxels Hc) as (Hx & Hy & Hz).
    assert (Hnx : xs voxels <> []) by (destruct voxels; [congruence | discriminate]).
    assert (Hny : ys voxels <> []) by (destruct voxels; [congruence | discriminate]).
    assert (Hnz : zs voxels <> []) by (destruct voxels; [congruence | discriminate]).
    pose proof (maximum_bounding _ Hnx) as Bx.
    pose proof (maximum_bounding _ Hny) as By.
    pose proof (maximum_bounding _ Hnz) as Bz.
    split; [| auto].
    pose proof (Hx _ (proj1 (maximum_bounds _ Hnx))) as Mx.
    pose proof (Hy _ (proj1 (maximum_bounds _ Hny))) as My.
    pose proof (Hz _ (proj1 (maximum_bounds _ Hnz))) as Mz.
    assert (H32 : 2 ^ 32 = 4294967296) by reflexivity.
    unfold RoundTrip.u32, RoundTrip.byte_range in *. lia.
Qed.

(** [create_simple_vox] and the reader: for a non-empty list of voxels
    with coordinates and colour channels in 0-255, at most 2^24 of them, and
    a size that is left out or fits 32 bits, the call succeeds and writes a
    file that [read_vox_file] reads without a warning as one model: the
    voxels at the positions of the input, in its order, each colour of the
    input with one index of 1-255; the size is the one given or, when it is
    left out, the greatest coordinate plus one on each axis.  When the
    input has at most 255 different colours, the palette read back gives
    every voxel its colour, with alpha 255. *)
Theorem create_simple_vox_round_trip (int : str -> result Z)
  (voxels : list ColoredVoxel) (size : option (Z * Z * Z)) :
  voxels <> [] ->
  Forall coords_in_range voxels -> Forall color_in_range voxels ->
  len voxels <= 2 ^ 24 ->
  (forall a b c, size = Some (a, b, c) ->
     RoundTrip.u32 a /\ RoundTrip.u32 b /\ RoundTrip.u32 c) ->
  exists data index sx sy sz colors,
    create_simple_vox voxels size = (Some data, OK tt)
    /\ Reader.read_vox_file int data
       = ([], OK (Reader.mkData sx sy sz (map (paint index) voxels) colors))
    /\ match size with
       | Some s => (sx, sy, sz) = s
       | None => bounding (xs voxels) sx /\ bounding (ys voxels) sy
                 /\ bounding (zs voxels) sz
       end
    /\ (forall c, 1 <= index c <= 255)
    /\ ((length (nodup color_eq_dec (map color_of voxels)) <= 255)%nat ->
        forall x y z r g b, In (x, y, z, (r, g, b)) voxels ->
          Reader.get_voxel_color
            (Reader.mkData sx sy sz (map (paint index) voxels) colors)
            (index (r, g, b))
          = OK (r, g, b, 255)).
Proof.
  intros Hne Hc Hcol Hlen Hsize.
  destruct (box voxels size) as [[sx sy] sz] eqn:Ebox.
  destruct (box_fits voxels size sx sy sz Hne Hc Hsize Ebox)
    as ((Hux & Huy & Huz) & Hbox).
  destruct (build_loop_ok voxels (start (sx, sy, sz)) (general_start _) Hc)
    as (st & Hloop & Hg & _ & Hvox & Hsx & Hsy & Hsz & Hpal & Hexact & Hall).
  cbn [start model Writer.new_model Writer.voxels Writer.size_x Writer.size_y
       Writer.size_z palette app] in Hvox, Hsx, Hsy, Hsz, Hpal.
  specialize (Hpal Hcol (proj2 RoundTrip.default_palette_valid)).
  assert (Hw : RoundTrip.writable (model st) (palette st)).
  { unfold RoundTrip.writable. rewrite Hsx, Hsy, Hsz, Hvox.
    split; [exact Hux |]. split; [exact Huy |]. split; [exact Huz |].
    split; [unfold len in *; rewrite length_map; exact Hlen |].
    split; [| exact Hpal].
    apply Forall_forall. intros v Hv. apply in_map_iff in Hv.
    destruct Hv as ([[[x y] z] c] & <- & Hin).
    rewrite Forall_forall in Hc. specialize (Hc _ Hin).
    pose proof (lookup_range st c Hg) as Hi.
    unfold coords_in_range in Hc.
    unfold paint, RoundTrip.quad_bytes, RoundTrip.byte_range in *. lia. }
  destruct (RoundTrip.write_then_read int (model st) (palette st) Hw)
    as (data & Hwrite & Hread).
  exists data, (lookup (color_to_index st)), sx, sy, sz,
    (RoundTrip.stored_palette (palette st)).
  split.
  { rewrite (create_simple_vox_run voxels size Hne), Ebox, Hloop, Hwrite.
    reflexivity. }
  split.
  { unfold Reader.read_vox_file. rewrite Hread.
    cbn [bind Reader.models Reader.palette Reader.size_x Reader.size_y
         Reader.size_z Reader.voxels].
    rewrite Hsx, Hsy, Hsz, Hvox. reflexivity. }
  split; [exact Hbox |].
  split; [intros c; apply lookup_range; exact Hg |].
  intros Hfew x y z r g b Hin.
  set (U := nodup color_eq_dec (map color_of voxels)) in *.
  assert (HU : Forall (fun v => In (color_of v) U) voxels).
  { apply Forall_forall. intros v Hv. apply nodup_In. apply in_map. exact Hv. }
  destruct (Hexact U Hfew HU (exact_start U _)) as (_ & _ & _ & Hstored).
  rewrite Forall_forall in Hall. specialize (Hall _ Hin).
  cbn [color_of snd] in Hall.
  pose proof (lookup_range st (r, g, b) Hg) as Hi.
  unfold lookup in *.
  destruct (dict_get color_eqb (color_to_index st) (r, g, b)) as [i |] eqn:E;
    [| congruence].
  destruct (Hstored r g b i E) as (_ & Hget).
  unfold Reader.get_voxel_color. cbn [Reader.data_palette].
  replace ((1 <=? i) && (i <=? 255)) with true
    by (symmetry; apply andb_true_intro; split; apply Z.leb_le; lia).
  destruct (RoundTrip.stored_palette_index (palette st) i (proj2 (proj2 Hg)) Hi)
    as (color & Hcolor & Hs).
  rewrite Hs. congruence.
Qed.

Lemma create_simple_vox_round_trip_witness :
  exists data index,
    create_simple_vox
      [(0, 0, 0, (255, 0, 0)); (1, 0, 2, (0, 255, 0)); (1, 1, 1, (255, 0, 0))]
      None = (Some data, OK tt)
    /\ fst (Reader.read_vox_file Reader.int_ascii data) = []
    /\ index (255, 0, 0) <> 0.
Proof.
  assert (H24 : 2 ^ 24 = 16777216) by reflexivity.
  destruct (create_simple_vox_round_trip Reader.int_ascii
              [(0, 0, 0, (255, 0, 0)); (1, 0, 2, (0, 255, 0));
               (1, 1, 1, (255, 0, 0))] None)
    as (data & index & sx & sy & sz & colors & Hrun & Hread & _ & Hi & _).
  - discriminate.
  - repeat constructor; unfold RoundTrip.byte_range; lia.
  - repeat constructor; unfold RoundTrip.byte_range; lia.
  - unfold len. cbn [length]. lia.
  - intros a b c H. discriminate H.
  - exists data, index. split; [exact Hrun |]. rewrite Hread.
    split; [reflexivity |]. specialize (Hi (255, 0, 0)). lia.
Defined.

(** [create_simple_vox] refuses before it opens the file: with no
    voxel at all, or with a voxel that has a coordinate outside 0-255,
    whatever the colours and the size are, the call raises [ValueError] and
    no file is written. *)
Theorem create_simple_vox_rejects (voxels : list ColoredVoxel)
  (size : option (Z * Z * Z)) :
  voxels = [] \/ Exists (fun v => ~ coords_in_range v) voxels ->
  create_simple_vox voxels size = (None, Raise ValueError).
Proof.
  intros [-> | Hbad]; [reflexivity |].
  assert (Hne : voxels <> []) by (intros ->; inversion Hbad).
  rewrite (create_simple_vox_run voxels size Hne).
  rewrite (build_loop_rejects voxels _ (general_start _) Hbad). reflexivity.
Qed.

Lemma create_simple_vox_rejects_witness :
  create_simple_vox [(0, 0, 0, (1, 2, 3)); (0, 256, 0, (1, 2, 3))] (Some (1, 1, 1))
  = (None, Raise ValueError).
Proof.
  apply create_simple_vox_rejects. right. apply Exists_cons_tl. apply Exists_cons_hd.
  unfold coords_in_range, RoundTrip.byte_range. lia.
Defined.

End SimpleFacts.

(** ** [VoxExporter.export] (vox_exporter.py) *)

Module ExportFacts.
Import Exporter VoxExporter.

(** *** Coordinates, positions and the set of seen positions *)

Definition coord_x {A : Type} (vs : list (Z * Z * Z * A)) : list Z :=
  map (fun v => fst (fst (fst v))) vs.
Definition coord_y {A : Type} (vs : list (Z * Z * Z * A)) : list Z :=
  map (fun v => snd (fst (fst v))) vs.
Definition coord_z {A : Type} (vs : list (Z * Z * Z * A)) : list Z :=
  map (fun v => snd (fst v)) vs.

Definition place {A : Type} (v : Z * Z * Z * A) : Z * Z * Z := fst v.

Lemma fold_min_bounds (d : Z) (l : list Z) :
  (fold_right Z.min d l = d \/ In (fold_right Z.min d l) l)
  /\ fold_right Z.min d l <= d
  /\ forall x, In x l -> fold_right Z.min d l <= x.
Proof.
  induction l as [| a l (Hin & Hd & Hall)]; simpl.
  - split; [auto |]. split; [lia | tauto].
  - split; [| split].
    + destruct (Z.min_spec a (fold_right Z.min d l)) as [(_ & ->) | (_ & ->)];
        tauto.
    + lia.
    + intros x [<- | Hx]; [lia |]. specialize (Hall x Hx). lia.
Qed.

Lemma minimum_bounds (l : list Z) :
  l <> [] -> In (minimum l) l /\ forall x, In x l -> minimum l <= x.
Proof.
  destruct l as [| a l]; [congruence |]. intros _.
  unfold minimum. cbn [hd].
  destruct (fold_min_bounds a (a :: l)) as (Hin & _ & Hall).
  split; [| exact Hall]. destruct Hin as [-> | Hin]; [left; reflexivity | exact Hin].
Qed.

Lemma clamp_range (n : Z) : 0 <= clamp n <= 255.
Proof. unfold clamp. lia. Qed.

Lemma clamp_id (n : Z) : 0 <= n <= 255 -> clamp n = n.
Proof. unfold clamp. lia. Qed.

Lemma key_eqb_eq (a b : Z * Z * Z) : key_eqb a b = true <-> a = b.
Proof.
  destruct a as [[x1 y1] z1], b as [[x2 y2] z2]. unfold key_eqb. split.
  - intros H. apply andb_prop in H. destruct H as [H Hz].
    apply andb_prop in H. destruct H as [Hx Hy].
    apply Z.eqb_eq in Hx, Hy, Hz. congruence.
  - intros H. inversion H. subst. rewrite !Z.eqb_refl. reflexivity.
Qed.

Lemma mem_In (key : Z * Z * Z) (seen : list (Z * Z * Z)) :
  mem key seen = true <-> In key seen.
Proof.
  unfold mem. rewrite existsb_exists. split.
  - intros (k & Hin & Hk). apply key_eqb_eq in Hk. subst k. exact Hin.
  - intros Hin. exists key. split; [exact Hin | apply key_eqb_eq; reflexivity].
Qed.

Lemma mem_false (key : Z * Z * Z) (seen : list (Z * Z * Z)) :
  mem key seen = false <-> ~ In key seen.
Proof.
  rewrite <- mem_In. destruct (mem key seen); split; congruence.
Qed.

(** *** The voxels that stay after the duplicates are removed *)

Lemma unique_In {A : Type} (vs : list (Z * Z * Z * A)) :
  forall seen v, In v (unique vs seen) -> In v vs /\ ~ In (place v) seen.
Proof.
  induction vs as [| [[[x y] z] c] vs IH]; intros seen v; simpl; [tauto |].
  destruct (mem (x, y, z) seen) eqn:E; cbn [negb].
  - intros H. destruct (IH _ _ H). auto.
  - apply mem_false in E. intros [<- | H].
    + split; [left; reflexivity | exact E].
    + destruct (IH _ _ H) as (Hin & Hseen). split; [right; exact Hin |].
      intros Hs. apply Hseen. right. exact Hs.
Qed.

Lemma unique_NoDup {A : Type} (vs : list (Z * Z * Z * A)) :
  forall seen, NoDup (map place (unique vs seen)).
Proof.
  induction vs as [| [[[x y] z] c] vs IH]; intros seen; simpl; [constructor |].
  destruct (mem (x, y, z) seen); cbn [negb]; [apply IH |].
  cbn [map]. constructor; [| apply IH].
  intros Hin. apply in_map_iff in Hin. destruct Hin as (v & Hp & Hv).
  apply unique_In in Hv. destruct Hv as (_ & Hseen). apply Hseen.
  rewrite Hp. left. reflexivity.
Qed.

(** Every position of the list is one that was seen before or the position
    of a voxel that stays. *)
Lemma unique_covers {A : Type} (vs : list (Z * Z * Z * A)) :
  forall seen v, In v vs ->
    In (place v) seen \/ In (place v) (map place (unique vs seen)).
Proof.
  induction vs as [| [[[x y] z] c] vs IH]; intros seen v; simpl; [tauto |].
  destruct (mem (x, y, z) seen) eqn:E; cbn [negb].
  - apply mem_In in E. intros [<- | Hv]; [left; exact E |]. apply IH. exact Hv.
  - intros [<- | Hv]; [right; left; reflexivity |].
    destruct (IH ((x, y, z) :: seen) v Hv) as [[<- | Hs] | Hu].
    + right. left. reflexivity.
    + left. exact Hs.
    + right. right. exact Hu.
Qed.

(** A list with one voxel per position stays as it is. *)
Lemma unique_NoDup_id {A : Type} (vs : list (Z * Z * Z * A)) :
  forall seen,
    NoDup (map place vs) -> (forall v, In v vs -> ~ In (place v) seen) ->
    unique vs seen = vs.
Proof.
  induction vs as [| [[[x y] z] c] vs IH]; intros seen Hnd Hseen; simpl;
    [reflexivity |].
  inversion Hnd as [| p ps Hnotin Hnd']; subst p ps.
  assert (E : mem (x, y, z) seen = false).
  { apply mem_false. apply (Hseen (x, y, z, c)). left. reflexivity. }
  rewrite E. cbn [negb]. f_equal. apply IH; [exact Hnd' |].
  intros v Hv [Hk | Hs].
  - apply Hnotin. rewrite Hk. apply in_map. exact Hv.
  - apply (Hseen v); [right; exact Hv | exact Hs].
Qed.

(** A change of what the voxels carry. *)
Definition tag {A B : Type} (f : A -> B) (v : Z * Z * Z * A) : Z * Z * Z * B :=
  (fst v, f (snd v)).

Lemma unique_map {A B : Type} (f : A -> B) (vs : list (Z * Z * Z * A)) :
  forall seen, unique (map (tag f) vs) seen = map (tag f) (unique vs seen).
Proof.
  induction vs as [| [[[x y] z] c] vs IH]; intros seen; simpl; [reflexivity |].
  destruct (mem (x, y, z) seen); cbn [negb map tag fst snd]; rewrite IH;
    reflexivity.
Qed.

Lemma normalize_map {A B : Type} (f : A -> B) (mx my mz : Z)
  (vs : list (Z * Z * Z * A)) :
  normalize mx my mz (map (tag f) vs) = map (tag f) (normalize mx my mz vs).
Proof.
  unfold normalize. rewrite !map_map. apply map_ext.
  intros [[[x y] z] c]. reflexivity.
Qed.

Lemma normalize_range {A : Type} (mx my mz : Z) (vs : list (Z * Z * Z * A)) :
  Forall (fun v : Z * Z * Z * A =>
            let '(x, y, z, _) := v in
            0 <= x <= 255 /\ 0 <= y <= 255 /\ 0 <= z <= 255)
         (normalize mx my mz vs).
Proof.
  unfold normalize. apply Forall_forall. intros v Hv. apply in_map_iff in Hv.
  destruct Hv as ([[[x y] z] c] & <- & _).
  pose proof (clamp_range (x - mx)). pose proof (clamp_range (y - my)).
  pose proof (clamp_range (z - mz)). auto.
Qed.

Lemma unique_nonempty {A : Type} (vs : list (Z * Z * Z * A)) :
  vs <> [] -> unique vs [] <> [].
Proof.
  destruct vs as [| [[[x y] z] c] vs]; [congruence |]. intros _. simpl.
  discriminate.
Qed.

Lemma coord_x_tag {A B : Type} (f : A -> B) (vs : list (Z * Z * Z * A)) :
  map (fun v : Z * Z * Z * B => fst (fst (fst v))) (map (tag f) vs) = coord_x vs.
Proof. unfold coord_x. rewrite map_map. reflexivity. Qed.

Lemma coord_y_tag {A B : Type} (f : A -> B) (vs : list (Z * Z * Z * A)) :
  map (fun v : Z * Z * Z * B => snd (fst (fst v))) (map (tag f) vs) = coord_y vs.
Proof. unfold coord_y. rewrite map_map. reflexivity. Qed.

Lemma coord_z_tag {A B : Type} (f : A -> B) (vs : list (Z * Z * Z * A)) :
  map (fun v : Z * Z * Z * B => snd (fst v)) (map (tag f) vs) = coord_z vs.
Proof. unfold coord_z. rewrite map_map. reflexivity. Qed.

Lemma colored_tag (vs : list (Z * Z * Z * Color)) :
  colored (map (tag Rgb) vs) = Some vs.
Proof.
  induction vs as [| [[[x y] z] c] vs IH]; [reflexivity |].
  cbn [map tag fst snd colored]. rewrite IH. reflexivity.
Qed.

(** *** The corner, the size and the voxels of the model *)

(** The least coordinates of the voxels. *)
Definition corner {A : Type} (vs : list (Z * Z * Z * A)) : Z * Z * Z :=
  (minimum (coord_x vs), minimum (coord_y vs), minimum (coord_z vs)).

(** The size of the box around the voxels. *)
Definition extent {A : Type} (vs : list (Z * Z * Z * A)) : Z * Z * Z :=
  (maximum (coord_x vs) - minimum (coord_x vs) + 1,
   maximum (coord_y vs) - minimum (coord_y vs) + 1,
   maximum (coord_z vs) - minimum (coord_z vs) + 1).

Definition fits {A : Type} (vs : list (Z * Z * Z * A)) : Prop :=
  let '(sx, sy, sz) := extent vs in
  RoundTrip.u32 sx /\ RoundTrip.u32 sy /\ RoundTrip.u32 sz.

(** The voxels moved to the corner, clamped, the first of every position. *)
Definition kept {A : Type} (vs : list (Z * Z * Z * A)) : list (Z * Z * Z * A) :=
  let '(mx, my, mz) := corner vs in unique (normalize mx my mz vs) [].

Lemma kept_range {A : Type} (vs : list (Z * Z * Z * A)) :
  Forall (fun v : Z * Z * Z * A =>
            let '(x, y, z, _) := v in
            0 <= x <= 255 /\ 0 <= y <= 255 /\ 0 <= z <= 255) (kept vs).
Proof.
  unfold kept, corner. apply Forall_forall. intros v Hv.
  apply unique_In in Hv. destruct Hv as (Hv & _).
  pose proof (normalize_range (minimum (coord_x vs)) (minimum (coord_y vs))
                (minimum (coord_z vs)) vs) as H.
  rewrite Forall_forall in H. apply (H v Hv).
Qed.

Lemma kept_NoDup {A : Type} (vs : list (Z * Z * Z * A)) :
  NoDup (map place (kept vs)).
Proof. unfold kept, corner. apply unique_NoDup. Qed.

Lemma kept_colors {A : Type} (vs : list (Z * Z * Z * A)) :
  incl (map snd (kept vs)) (map snd vs).
Proof.
  unfold kept, corner. intros c Hc. apply in_map_iff in Hc.
  destruct Hc as (v & <- & Hv). apply unique_In in Hv. destruct Hv as (Hv & _).
  unfold normalize in Hv. apply in_map_iff in Hv.
  destruct Hv as ([[[x y] z] c] & <- & Hin).
  apply in_map_iff. exists (x, y, z, c). auto.
Qed.

Lemma kept_nonempty {A : Type} (vs : list (Z * Z * Z * A)) :
  vs <> [] -> kept vs <> [].
Proof.
  intros H. unfold kept, corner. apply unique_nonempty.
  destruct vs; [congruence | discriminate].
Qed.

(** *** The quantized palette *)

Lemma quantize_255 (set_list : list Color -> list Color) (colors : list Color) :
  colors <> [] ->
  NoDup (set_list colors) ->
  (forall c, In c (set_list colors) <-> In c colors) ->
  Forall QuantizeMore.byte_color colors ->
  exists palette0 color_map,
    quantize_colors set_list colors 255 = OK (palette0, color_map)
    /\ 1 <= len palette0 <= 255
    /\ Forall QuantizeMore.byte_color palette0
    /\ (forall c, In c colors ->
          exists i, dict_get color_eqb color_map c = Some i
                    /\ 1 <= i <= len palette0)
    /\ (len (set_list colors) <= 255 ->
        forall c, In c colors ->
          exists i, dict_get color_eqb color_map c = Some i
                    /\ nth_error palette0 (Z.to_nat (i - 1)) = Some c).
Proof.
  intros Hne Hnd Hset Hb. unfold quantize_colors.
  destruct colors as [| c1 colors1]; [congruence |].
  set (cs := c1 :: colors1) in *.
  assert (Hune : set_list cs <> []).
  { intros E. assert (Hin : In c1 (set_list cs)) by (apply Hset; left; reflexivity).
    rewrite E in Hin. exact Hin. }
  assert (Hbytes : Forall QuantizeMore.byte_color (set_list cs)).
  { apply Forall_forall. intros c Hc. rewrite Forall_forall in Hb.
    apply Hb, Hset, Hc. }
  destruct (len (set_list cs) <=? 255) eqn:Hsmall.
  - apply Z.leb_le in Hsmall. eexists _, _. split; [reflexivity |].
    split.
    { destruct (set_list cs) as [| u us]; [contradiction |].
      pose proof (QuantizeMore.len_pos_cons u us). lia. }
    split; [exact Hbytes |]. split.
    + intros c Hc. apply Hset in Hc.
      destruct (QuantizeMore.index_colors_range (set_list cs) 0 [] c Hc)
        as (j & Hj & Hr).
      exists j. split; [exact Hj | lia].
    + intros _ c Hc. apply Hset in Hc. apply In_nth_error in Hc.
      destruct Hc as (k & Hk).
      exists (0 + Z.of_nat k + 1). split.
      * apply QuantizeFacts.index_colors_at; assumption.
      * replace (Z.to_nat (0 + Z.of_nat k + 1 - 1)) with k by lia. exact Hk.
  - apply Z.leb_gt in Hsmall.
    replace (255 <=? 0) with false by reflexivity.
    cbv zeta.
    set (full := median_cut (Z.to_nat (Z.log2 255)) (set_list cs)).
    pose proof (QuantizeMore.median_cut_nonempty (Z.to_nat (Z.log2 255))
                  (set_list cs)) as Hfull. fold full in Hfull.
    assert (Hpal : Forall QuantizeMore.byte_color (slice full 0 255)).
    { unfold slice. simpl skipn.
      apply QuantizeMore.firstn_Forall, QuantizeMore.median_cut_bytes.
      exact Hbytes. }
    destruct (QuantizeMore.map_colors_bytes (set_list cs) (slice full 0 255)
                Hbytes Hpal []) as (m & Hm).
    rewrite Hm. cbn [bind]. eexists _, _. split; [reflexivity |].
    destruct (QuantizeMore.len_slice_le full 255 ltac:(lia)) as [Hle _].
    assert (Hpos : 1 <= len (slice full 0 255)).
    { unfold slice, len. simpl skipn. rewrite length_firstn. lia. }
    split; [lia |]. split; [exact Hpal |].
    split; [| lia].
    intros c Hc. apply Hset in Hc.
    destruct (QuantizeMore.map_colors_get _ _ _ _ c Hm Hc) as (r & Hr & Hget).
    exists (r + 1). split; [exact Hget |].
    assert (Hnonempty : slice full 0 255 <> []).
    { intros E. rewrite E in Hpos. unfold len in Hpos. simpl in Hpos. lia. }
    pose proof (QuantizeMore.closest_in_palette c _ r Hnonempty Hr). lia.
Qed.

Lemma set_quantized_ok (palette0 : list Color) :
  forall (i : Z) (P : Writer.VoxPalette),
    0 <= i -> i + len palette0 <= 255 ->
    length (Writer.colors P) = 256%nat ->
    exists P',
      set_quantized i palette0 P = OK P'
      /\ length (Writer.colors P') = 256%nat
      /\ (forall k r g b,
            nth_error palette0 k = Some (r, g, b) ->
            nth_error (Writer.colors P') (Z.to_nat i + k + 1) = Some (r, g, b, 255))
      /\ (forall j, (j <= Z.to_nat i)%nat ->
            nth_error (Writer.colors P') j = nth_error (Writer.colors P) j)
      /\ (Forall QuantizeMore.byte_color palette0 ->
          Forall RoundTrip.quad_bytes (Writer.colors P) ->
          Forall RoundTrip.quad_bytes (Writer.colors P')).
Proof.
  induction palette0 as [| [[r g] b] palette0 IH]; intros i P Hi Hlen HP.
  - exists P. cbn [set_quantized]. split; [reflexivity |]. split; [exact HP |].
    split; [intros [| k] ? ? ? H; discriminate H |]. auto.
  - unfold len in Hlen. cbn [length] in Hlen. cbn [set_quantized].
    rewrite (WriterMore.set_color_ok P (i + 1) r g b 255)
      by (unfold len; lia).
    set (P1 := Writer.mkPalette _).
    assert (HP1 : length (Writer.colors P1) = 256%nat).
    { unfold P1. cbn [Writer.colors]. rewrite WriterMore.length_list_set.
      exact HP. }
    destruct (IH (i + 1) P1 ltac:(lia) ltac:(unfold len; lia) HP1)
      as (P' & Hrun & HP' & Hset & Hkeep & Hbytes).
    exists P'. split; [exact Hrun |]. split; [exact HP' |].
    split; [| split].
    + intros [| k] r' g' b' Hk.
      * cbn [nth_error] in Hk. inversion Hk; subst r' g' b'.
        rewrite (Hkeep (Z.to_nat i + 0 + 1)%nat) by lia.
        unfold P1. cbn [Writer.colors].
        replace (Z.to_nat i + 0 + 1)%nat with (Z.to_nat (i + 1)) by lia.
        apply WriterMore.nth_error_list_set_same. lia.
      * cbn [nth_error] in Hk. specialize (Hset k r' g' b' Hk).
        replace (Z.to_nat i + S k + 1)%nat with (Z.to_nat (i + 1) + k + 1)%nat
          by lia.
        exact Hset.
    + intros j Hj. rewrite (Hkeep j) by lia. unfold P1. cbn [Writer.colors].
      apply WriterMore.nth_error_list_set_other. lia.
    + intros Hb Hq. inversion Hb as [| c cs Hc Hcs]; subst c cs.
      apply (Hbytes Hcs). unfold P1. cbn [Writer.colors].
      apply WriterMore.list_set_Forall; [exact Hq |].
      unfold QuantizeMore.byte_color, red, green, blue in Hc. cbn [fst snd] in Hc.
      unfold RoundTrip.quad_bytes, RoundTrip.byte_range. lia.
Qed.

Lemma add_quantized_ok (color_map : list (Color * Z))
  (U : list (Z * Z * Z * Color)) :
  forall model,
    Forall (fun v : Z * Z * Z * Color =>
              let '(x, y, z, _) := v in
              0 <= x <= 255 /\ 0 <= y <= 255 /\ 0 <= z <= 255) U ->
    Forall (fun v : Z * Z * Z * Color =>
              1 <= SimpleFacts.lookup color_map (snd v) <= 255) U ->
    add_quantized color_map U model
    = OK (Writer.mkModel (Writer.size_x model) (Writer.size_y model)
            (Writer.size_z model)
            (Writer.voxels model
             ++ map (SimpleFacts.paint (SimpleFacts.lookup color_map)) U)).
Proof.
  induction U as [| [[[x y] z] c] U IH]; intros model Hc Hi.
  - cbn [add_quantized map]. rewrite app_nil_r. destruct model; reflexivity.
  - inversion Hc as [| v vs Hxyz Hc']; subst v vs.
    inversion Hi as [| v vs Hidx Hi']; subst v vs. cbn [snd] in Hidx.
    cbn [add_quantized].
    change (match dict_get color_eqb color_map c with
            | Some i => i
            | None => 1
            end) with (SimpleFacts.lookup color_map c).
    rewrite (WriterFacts.add_voxel_accepts model x y z _)
      by (unfold WriterFacts.voxel_in_range; lia).
    rewrite (IH _ Hc' Hi').
    cbn [Writer.size_x Writer.size_y Writer.size_z Writer.voxels map
         SimpleFacts.paint].
    rewrite <- app_assoc. reflexivity.
Qed.

Lemma match_nonempty {A B : Type} (l : list A) (a b : B) :
  l <> [] -> match l with [] => a | _ :: _ => b end = b.
Proof. destruct l; [congruence | reflexivity]. Qed.

(** *** The loop over the objects *)

Section Collect.
Variable BlenderObject : Type.
Variable get_vox_metadata : BlenderObject -> Metadata.
Variable _voxelize_object : BlenderObject -> list (Z * Z * Z * Color).

(** Objects that are all voxelized add their voxels, in order. *)
Lemma collect_voxelized (preserve : bool) (objects : list BlenderObject) :
  forall st,
    (forall obj, In obj objects -> preserve = true ->
                 usable (get_vox_metadata obj) = None) ->
    collect BlenderObject get_vox_metadata _voxelize_object preserve objects st
    = mkCollected
        (all_voxels st ++ map (tag Rgb) (flat_map _voxelize_object objects))
        (original_palette st) (use_original_indices st).
Proof.
  induction objects as [| obj objects IH]; intros st Hall.
  - cbn [collect flat_map map]. rewrite app_nil_r. destruct st; reflexivity.
  - cbn [collect flat_map].
    assert (E : (if preserve then usable (get_vox_metadata obj) else None) = None).
    { destruct preserve; [| reflexivity]. apply Hall; [left |]; reflexivity. }
    rewrite E. rewrite IH by (intros o Ho; apply Hall; right; exact Ho).
    cbn [all_voxels original_palette use_original_indices].
    rewrite map_app, <- app_assoc. f_equal. f_equal. f_equal.
    apply map_ext. intros [[[x y] z] c]. reflexivity.
Qed.

End Collect.

(** *** The standard path *)

(** Exporting meshes: when no object of the selection brings VOX data (or
    the exporter does not preserve it), the voxels that [_voxelize_object]
    gives are not empty, their colours have channels in 0-255, and the box
    around them fits 32 bits, [export] succeeds and writes a file that
    [read_vox_file] reads without a warning as one model: its size is the
    size of the box, its voxels are the voxels moved to the corner of the
    box and clamped to 0-255, the first of every position, in their order,
    no two at one position, each with an index of 1-255 that depends on its
    colour only.  With at most 255 different colours the palette read back
    gives every voxel its colour, with alpha 255. *)
Theorem export_voxelized (int : str -> result Z) (BlenderObject : Type)
  (get_vox_metadata : BlenderObject -> Metadata)
  (_voxelize_object : BlenderObject -> list (Z * Z * Z * Color))
  (set_list : list Color -> list Color) (preserve_vox_data : bool)
  (objects : list BlenderObject) (vs : list (Z * Z * Z * Color)) :
  vs = flat_map _voxelize_object objects ->
  (forall obj, In obj objects -> preserve_vox_data = true ->
               usable (get_vox_metadata obj) = None) ->
  vs <> [] ->
  Forall (fun v : Z * Z * Z * Color => QuantizeMore.byte_color (snd v)) vs ->
  fits vs ->
  (forall l, NoDup (set_list l) /\ forall c, In c (set_list l) <-> In c l) ->
  exists data index colors,
    export BlenderObject get_vox_metadata _voxelize_object set_list
           preserve_vox_data objects
    = (Some data, inl tt)
    /\ Reader.read_vox_file int data
       = ([], OK (Reader.mkData (fst (fst (extent vs))) (snd (fst (extent vs)))
                    (snd (extent vs))
                    (map (SimpleFacts.paint index) (kept vs)) colors))
    /\ NoDup (map place (kept vs))
    /\ Forall (fun v : Z * Z * Z * Color => 1 <= index (snd v) <= 255) (kept vs)
    /\ ((length (nodup color_eq_dec (map snd vs)) <= 255)%nat ->
        forall x y z r g b, In (x, y, z, (r, g, b)) (kept vs) ->
          Reader.get_voxel_color
            (Reader.mkData (fst (fst (extent vs))) (snd (fst (extent vs)))
               (snd (extent vs))
               (map (SimpleFacts.paint index) (kept vs)) colors)
            (index (r, g, b))
          = OK (r, g, b, 255)).
Proof.
  intros Hvs Hmesh Hne Hbytes Hfit Hset.
  (* the quantized palette *)
  set (U := kept vs).
  assert (HU : map snd U <> []).
  { pose proof (kept_nonempty vs Hne) as H. fold U in H.
    destruct U; [congruence | discriminate]. }
  assert (HbU : Forall QuantizeMore.byte_color (map snd U)).
  { apply Forall_forall. intros c Hc. apply (kept_colors vs) in Hc.
    apply in_map_iff in Hc. destruct Hc as (v & <- & Hv).
    rewrite Forall_forall in Hbytes. apply (Hbytes v Hv). }
  destruct (quantize_255 set_list (map snd U) HU (proj1 (Hset _)) (proj2 (Hset _))
              HbU)
    as (palette0 & color_map & Hq & Hlen0 & Hbytes0 & Hindex & Hexact).
  assert (H0 : 0 <= 0) by lia.
  assert (H255 : 0 + len palette0 <= 255) by lia.
  destruct (set_quantized_ok palette0 0 Writer.new_palette H0 H255
              (proj1 RoundTrip.default_palette_valid))
    as (P & HP & HlenP & Hstored & _ & HbytesP).
  specialize (HbytesP Hbytes0 (proj2 RoundTrip.default_palette_valid)).
  assert (Hlook : Forall (fun v : Z * Z * Z * Color =>
                            1 <= SimpleFacts.lookup color_map (snd v) <= 255) U).
  { apply Forall_forall. intros v Hv.
    destruct (Hindex (snd v) (in_map snd _ _ Hv)) as (i & Hi & Hr).
    unfold SimpleFacts.lookup. rewrite Hi. lia. }
  destruct (extent vs) as [[sx sy] sz] eqn:Eext.
  cbn [fst snd].
  set (M := Writer.mkModel sx sy sz
              (map (SimpleFacts.paint (SimpleFacts.lookup color_map)) U)).
  assert (Hw : RoundTrip.writable M P).
  { assert (Hvalid : Forall RoundTrip.valid_voxel (Writer.voxels M)).
    { unfold M. cbn [Writer.voxels]. apply Forall_forall. intros v Hv.
      apply in_map_iff in Hv. destruct Hv as ([[[x y] z] c] & <- & Hin).
      pose proof (kept_range vs) as Hr. fold U in Hr.
      rewrite Forall_forall in Hr, Hlook.
      specialize (Hr _ Hin). specialize (Hlook _ Hin). cbn [snd] in Hlook.
      cbv beta iota in Hr.
      unfold SimpleFacts.paint, RoundTrip.valid_voxel,
        WriterFacts.voxel_in_range. lia. }
    assert (Hnd : NoDup (map RoundTrip.position (Writer.voxels M))).
    { unfold M. cbn [Writer.voxels]. rewrite map_map.
      match goal with
      | |- NoDup ?l => replace l with (map place U); [apply kept_NoDup |]
      end.
      apply map_ext. intros [[[x y] z] c]. reflexivity. }
    unfold fits in Hfit. rewrite Eext in Hfit. destruct Hfit as (Hx & Hy & Hz).
    unfold RoundTrip.writable. cbn [Writer.size_x Writer.size_y Writer.size_z M].
    split; [exact Hx |]. split; [exact Hy |]. split; [exact Hz |].
    split; [apply RoundTrip.voxel_count; assumption |].
    split; [| exact HbytesP].
    eapply Forall_impl; [| exact Hvalid]. apply RoundTrip.valid_voxel_bytes. }
  destruct (RoundTrip.write_then_read int M P Hw) as (data & Hwrite & Hread).
  exists data, (SimpleFacts.lookup color_map), (RoundTrip.stored_palette P).
  split.
  { unfold export.
    rewrite (collect_voxelized _ _ _ preserve_vox_data objects _ Hmesh).
    cbn [all_voxels original_palette use_original_indices app]. rewrite <- Hvs.
    rewrite match_nonempty by (destruct vs; [congruence | discriminate]).
    unfold write_voxels.
    cbn [all_voxels original_palette use_original_indices].
    rewrite coord_x_tag, coord_y_tag, coord_z_tag, normalize_map, unique_map,
      colored_tag.
    change (unique (normalize (minimum (coord_x vs)) (minimum (coord_y vs))
                      (minimum (coord_z vs)) vs) []) with U.
    rewrite Hq.
    change (Writer.palette Writer.new_writer) with Writer.new_palette.
    rewrite HP.
    rewrite (add_quantized_ok color_map U _ (kept_range vs) Hlook).
    unfold extent in Eext. inversion Eext; subst sx sy sz.
    unfold save.
    change (Writer.add_model _ _) with (Writer.mkWriter [M] P).
    rewrite Hwrite. reflexivity. }
  split.
  { unfold Reader.read_vox_file. rewrite Hread. reflexivity. }
  split; [apply kept_NoDup |].
  split; [exact Hlook |].
  intros Hfew x y z r g b Hin.
  assert (Hsmall : len (set_list (map snd U)) <= 255).
  { assert (Hincl : incl (set_list (map snd U))
                         (nodup color_eq_dec (map snd vs))).
    { intros c Hc. apply nodup_In. apply (kept_colors vs). apply Hset. exact Hc. }
    pose proof (NoDup_incl_length (proj1 (Hset _)) Hincl). unfold len. lia. }
  assert (Hc : In (r, g, b) (map snd U)).
  { apply in_map_iff. exists (x, y, z, (r, g, b)). auto. }
  destruct (Hexact Hsmall _ Hc) as (i & Hi & Hnth).
  destruct (Hindex _ Hc) as (i' & Hi' & Hr).
  assert (i' = i) by congruence. subst i'.
  unfold SimpleFacts.lookup. rewrite Hi.
  specialize (Hstored _ r g b Hnth).
  unfold Reader.get_voxel_color. cbn [Reader.data_palette].
  replace ((1 <=? i) && (i <=? 255)) with true
    by (symmetry; apply andb_true_intro; split; apply Z.leb_le; lia).
  destruct (RoundTrip.stored_palette_index P i HlenP ltac:(lia))
    as (color & Hcolor & Hs).
  rewrite Hs. unfold getitem in Hcolor.
  replace (Z.to_nat 0 + Z.to_nat (i - 1) + 1)%nat with (Z.to_nat i) in Hstored
    by lia.
  rewrite Hstored in Hcolor. congruence.
Qed.

(** [first_seen] is an order of the set of the colours. *)
Lemma first_seen_set (l : list Color) :
  NoDup (first_seen l) /\ forall c, In c (first_seen l) <-> In c l.
Proof.
  unfold first_seen. split.
  - apply NoDup_rev, NoDup_nodup.
  - intros c. rewrite <- in_rev, nodup_In, <- in_rev. tauto.
Qed.

Lemma export_voxelized_witness :
  exists data,
    export nat (fun _ => mkMetadata None None)
      (fun n => [(Z.of_nat n, 0, 0, (255, 0, 0)); (Z.of_nat n, 1, 0, (0, 0, 255))])
      first_seen true [2%nat; 5%nat]
    = (Some data, inl tt).
Proof.
  assert (H32 : 2 ^ 32 = 4294967296) by reflexivity.
  destruct (export_voxelized Reader.int_ascii nat (fun _ => mkMetadata None None)
              (fun n => [(Z.of_nat n, 0, 0, (255, 0, 0));
                         (Z.of_nat n, 1, 0, (0, 0, 255))])
              first_seen true [2%nat; 5%nat] _ eq_refl)
    as (data & index & colors & Hrun & _).
  - intros obj _ _. reflexivity.
  - discriminate.
  - repeat constructor;
      unfold QuantizeMore.byte_color, red, green, blue; cbn [fst snd]; lia.
  - unfold fits, RoundTrip.u32. cbn. lia.
  - apply first_seen_set.
  - exists data. exact Hrun.
Defined.

(** *** The path of the preserved VOX data *)

Lemma set_original_ok (p : list (Z * Z * Z * Z)) :
  forall (i : Z) (P : Writer.VoxPalette),
    0 <= i -> length (Writer.colors P) = 256%nat ->
    exists P',
      set_original i p P = OK P'
      /\ length (Writer.colors P') = 256%nat
      /\ (forall k q, nth_error p k = Some q -> Z.of_nat k + i < 255 ->
            nth_error (Writer.colors P') (Z.to_nat i + k + 1) = Some q)
      /\ (forall j, (j <= Z.to_nat i \/ Z.to_nat i + length p < j)%nat ->
            nth_error (Writer.colors P') j = nth_error (Writer.colors P) j)
      /\ (Forall RoundTrip.quad_bytes p ->
          Forall RoundTrip.quad_bytes (Writer.colors P) ->
          Forall RoundTrip.quad_bytes (Writer.colors P')).
Proof.
  induction p as [| [[[r g] b] a] p IH]; intros i P Hi HP.
  - exists P. cbn [set_original]. split; [reflexivity |]. split; [exact HP |].
    split; [intros [| k] ? H; discriminate H |]. auto.
  - cbn [set_original]. destruct (i <? 255) eqn:E.
    + apply Z.ltb_lt in E.
      rewrite (WriterMore.set_color_ok P (i + 1) r g b a) by (unfold len; lia).
      set (P1 := Writer.mkPalette _).
      assert (HP1 : length (Writer.colors P1) = 256%nat).
      { unfold P1. cbn [Writer.colors]. rewrite WriterMore.length_list_set.
        exact HP. }
      destruct (IH (i + 1) P1 ltac:(lia) HP1)
        as (P' & Hrun & HP' & Hset & Hkeep & Hbytes).
      exists P'. split; [exact Hrun |]. split; [exact HP' |].
      split; [| split].
      * intros [| k] q Hk Hlt.
        { cbn [nth_error] in Hk. inversion Hk; subst q.
          rewrite (Hkeep (Z.to_nat i + 0 + 1)%nat) by lia.
          unfold P1. cbn [Writer.colors].
          replace (Z.to_nat i + 0 + 1)%nat with (Z.to_nat (i + 1)) by lia.
          apply WriterMore.nth_error_list_set_same. lia. }
        { cbn [nth_error] in Hk. specialize (Hset k q Hk ltac:(lia)).
          replace (Z.to_nat i + S k + 1)%nat with (Z.to_nat (i + 1) + k + 1)%nat
            by lia.
          exact Hset. }
      * intros j Hj. cbn [length] in Hj. rewrite (Hkeep j) by lia.
        unfold P1. cbn [Writer.colors].
        apply WriterMore.nth_error_list_set_other. lia.
      * intros Hb Hq. inversion Hb as [| c cs Hc Hcs]; subst c cs.
        apply (Hbytes Hcs). unfold P1. cbn [Writer.colors].
        apply WriterMore.list_set_Forall; assumption.
    + apply Z.ltb_ge in E.
      destruct (IH (i + 1) P ltac:(lia) HP)
        as (P' & Hrun & HP' & Hset & Hkeep & Hbytes).
      exists P'. split; [exact Hrun |]. split; [exact HP' |].
      split; [| split].
      * intros [| k] q Hk Hlt; [lia |].
        cbn [nth_error] in Hk. specialize (Hset k q Hk ltac:(lia)).
        replace (Z.to_nat i + S k + 1)%nat with (Z.to_nat (i + 1) + k + 1)%nat
          by lia.
        exact Hset.
      * intros j Hj. cbn [length] in Hj.
        destruct (Nat.eq_dec j (Z.to_nat (i + 1))) as [-> | Hne].
        { apply Hkeep. lia. }
        { apply Hkeep. lia. }
      * intros Hb Hq. inversion Hb as [| c cs Hc Hcs]; subst c cs. auto.
Qed.

(** The colour index a voxel is written with. *)
Definition valid_index (v : Z * Z * Z * Z) : Z * Z * Z * Z :=
  let '(x, y, z, color_idx) := v in
  (x, y, z, if (1 <=? color_idx) && (color_idx <=? 255) then color_idx else 1).

Lemma add_original_ok (mx my mz : Z) (vs : list (Z * Z * Z * Z)) :
  forall seen model,
    add_original mx my mz (map (tag Index) vs) seen model
    = inl (Writer.mkModel (Writer.size_x model) (Writer.size_y model)
             (Writer.size_z model)
             (Writer.voxels model
              ++ map valid_index (unique (normalize mx my mz vs) seen))).
Proof.
  induction vs as [| [[[x y] z] c] vs IH]; intros seen model.
  - cbn. rewrite app_nil_r. destruct model; reflexivity.
  - unfold normalize. cbn [map tag fst snd add_original unique].
    fold (normalize mx my mz vs).
    destruct (mem (clamp (x - mx), clamp (y - my), clamp (z - mz)) seen);
      cbn [negb]; [apply IH |].
    pose proof (clamp_range (x - mx)). pose proof (clamp_range (y - my)).
    pose proof (clamp_range (z - mz)).
    destruct ((1 <=? c) && (c <=? 255)) eqn:E.
    + apply andb_prop in E. destruct E as [E1 E2].
      rewrite (WriterFacts.add_voxel_accepts model _ _ _ c)
        by (unfold WriterFacts.voxel_in_range; lia).
      rewrite IH.
      cbn [Writer.size_x Writer.size_y Writer.size_z Writer.voxels map
           valid_index].
      replace ((1 <=? c) && (c <=? 255)) with true
        by (symmetry; apply andb_true_intro; split; assumption).
      rewrite <- app_assoc. reflexivity.
    + rewrite (WriterFacts.add_voxel_accepts model _ _ _ 1)
        by (unfold WriterFacts.voxel_in_range; lia).
      rewrite IH.
      cbn [Writer.size_x Writer.size_y Writer.size_z Writer.voxels map
           valid_index].
      rewrite E. rewrite <- app_assoc. reflexivity.
Qed.

(** The voxels kept on an object that brings VOX data. *)
Definition stored {B : Type} (get_vox_metadata : B -> Metadata) (obj : B)
  : list (Z * Z * Z * Z) :=
  match usable (get_vox_metadata obj) with
  | Some (voxels, _) => voxels
  | None => []
  end.

Lemma usable_palette (metadata : Metadata) (voxels palette : list (Z * Z * Z * Z)) :
  usable metadata = Some (voxels, palette) -> palette <> [].
Proof.
  unfold usable. destruct (meta_voxels metadata); [| discriminate].
  destruct (meta_palette metadata) as [[| c p] |]; try discriminate.
  intros H. inversion H. discriminate.
Qed.

Section Preserved.
Variable BlenderObject : Type.
Variable get_vox_metadata : BlenderObject -> Metadata.
Variable _voxelize_object : BlenderObject -> list (Z * Z * Z * Color).
Variable set_list : list Color -> list Color.

Lemma collect_app (preserve : bool) (a b : list BlenderObject) :
  forall st,
    collect BlenderObject get_vox_metadata _voxelize_object preserve (a ++ b) st
    = collect BlenderObject get_vox_metadata _voxelize_object preserve b
        (collect BlenderObject get_vox_metadata _voxelize_object preserve a st).
Proof.
  induction a as [| obj a IH]; intros st; [reflexivity |].
  cbn [app collect].
  destruct (if preserve then usable (get_vox_metadata obj) else None)
    as [[voxels palette] |]; apply IH.
Qed.

Lemma collect_stored (objects : list BlenderObject) :
  forall st,
    (forall o, In o objects -> usable (get_vox_metadata o) <> None) ->
    all_voxels
      (collect BlenderObject get_vox_metadata _voxelize_object true objects st)
    = all_voxels st
      ++ map (tag Index) (flat_map (stored get_vox_metadata) objects).
Proof.
  induction objects as [| obj objects IH]; intros st Hall.
  - cbn [collect flat_map map]. rewrite app_nil_r. reflexivity.
  - cbn [collect flat_map]. unfold stored at 1.
    destruct (usable (get_vox_metadata obj)) as [[voxels palette] |] eqn:E.
    + rewrite IH by (intros o Ho; apply Hall; right; exact Ho).
      cbn [all_voxels]. rewrite map_app, <- app_assoc. f_equal. f_equal.
      apply map_ext. intros [[[x y] z] c]. reflexivity.
    + exfalso. apply (Hall obj); [left; reflexivity | exact E].
Qed.

(** The run of [export] on objects that all bring VOX data. *)
Lemma export_preserved_run (int : str -> result Z) (front : list BlenderObject)
  (obj : BlenderObject) (last_voxels palette0 vs : list (Z * Z * Z * Z)) :
  (forall o, In o front -> usable (get_vox_metadata o) <> None) ->
  usable (get_vox_metadata obj) = Some (last_voxels, palette0) ->
  vs = flat_map (stored get_vox_metadata) (front ++ [obj]) ->
  vs <> [] -> fits vs -> Forall RoundTrip.quad_bytes palette0 ->
  exists data P,
    export BlenderObject get_vox_metadata _voxelize_object set_list true
           (front ++ [obj])
    = (Some data, inl tt)
    /\ Reader.read_vox_file int data
       = ([], OK (Reader.mkData (fst (fst (extent vs))) (snd (fst (extent vs)))
                    (snd (extent vs)) (map valid_index (kept vs))
                    (RoundTrip.stored_palette P)))
    /\ length (Writer.colors P) = 256%nat
    /\ (forall k q, nth_error palette0 k = Some q -> (k < 255)%nat ->
          nth_error (Writer.colors P) (k + 1) = Some q)
    /\ (forall j, (length palette0 < j)%nat ->
          nth_error (Writer.colors P) j
          = nth_error (Writer.colors Writer.new_palette) j).
Proof.
  intros Hfront Hobj Hvs Hne Hfit Hbytes.
  assert (H0 : 0 <= 0) by lia.
  destruct (set_original_ok palette0 0 Writer.new_palette H0
              (proj1 RoundTrip.default_palette_valid))
    as (P & HP & HlenP & Hset & Hkeep & HbytesP).
  specialize (HbytesP Hbytes (proj2 RoundTrip.default_palette_valid)).
  set (U := kept vs).
  destruct (extent vs) as [[sx sy] sz] eqn:Eext. cbn [fst snd].
  set (M := Writer.mkModel sx sy sz (map valid_index U)).
  assert (Hw : RoundTrip.writable M P).
  { assert (Hvalid : Forall RoundTrip.valid_voxel (Writer.voxels M)).
    { unfold M. cbn [Writer.voxels]. apply Forall_forall. intros v Hv.
      apply in_map_iff in Hv. destruct Hv as ([[[x y] z] c] & <- & Hin).
      pose proof (kept_range vs) as Hr. fold U in Hr.
      rewrite Forall_forall in Hr. specialize (Hr _ Hin). cbv beta iota in Hr.
      unfold valid_index, RoundTrip.valid_voxel, WriterFacts.voxel_in_range.
      destruct ((1 <=? c) && (c <=? 255)) eqn:E; [| lia].
      apply andb_prop in E. destruct E as [E1 E2]. lia. }
    assert (Hnd : NoDup (map RoundTrip.position (Writer.voxels M))).
    { unfold M. cbn [Writer.voxels]. rewrite map_map.
      match goal with
      | |- NoDup ?l => replace l with (map place U); [apply kept_NoDup |]
      end.
      apply map_ext. intros [[[x y] z] c]. reflexivity. }
    unfold fits in Hfit. rewrite Eext in Hfit. destruct Hfit as (Hx & Hy & Hz).
    unfold RoundTrip.writable. cbn [Writer.size_x Writer.size_y Writer.size_z M].
    split; [exact Hx |]. split; [exact Hy |]. split; [exact Hz |].
    split; [apply RoundTrip.voxel_count; assumption |].
    split; [| exact HbytesP].
    eapply Forall_impl; [| exact Hvalid]. apply RoundTrip.valid_voxel_bytes. }
  destruct (RoundTrip.write_then_read int M P Hw) as (data & Hwrite & Hread).
  exists data, P. split.
  { unfold export. rewrite collect_app.
    set (st1 := collect _ _ _ true front _).
    assert (Hst1 : all_voxels st1
                   = map (tag Index) (flat_map (stored get_vox_metadata) front)).
    { unfold st1. rewrite (collect_stored front _ Hfront). reflexivity. }
    cbn [collect]. rewrite Hobj.
    cbn [all_voxels original_palette use_original_indices].
    assert (Hall : all_voxels st1
                   ++ map (fun v : Z * Z * Z * Z =>
                             let '(x, y, z, color_idx) := v in
                             (x, y, z, Index color_idx)) last_voxels
                   = map (tag Index) vs).
    { rewrite Hst1, Hvs, flat_map_app, map_app. f_equal.
      cbn [flat_map]. rewrite app_nil_r. unfold stored. rewrite Hobj.
      apply map_ext. intros [[[x y] z] c]. reflexivity. }
    rewrite Hall.
    rewrite match_nonempty by (destruct vs; [congruence | discriminate]).
    unfold write_voxels.
    cbn [all_voxels original_palette use_original_indices].
    pose proof (usable_palette _ _ _ Hobj) as Hp0.
    destruct palette0 as [| c0 palette0]; [congruence |].
    change (Writer.palette Writer.new_writer) with Writer.new_palette.
    rewrite HP.
    rewrite coord_x_tag, coord_y_tag, coord_z_tag.
    rewrite add_original_ok.
    cbn [Writer.new_model Writer.size_x Writer.size_y Writer.size_z
         Writer.voxels app].
    change (unique (normalize (minimum (coord_x vs)) (minimum (coord_y vs))
                      (minimum (coord_z vs)) vs) []) with U.
    unfold extent in Eext. inversion Eext; subst sx sy sz.
    unfold save.
    change (Writer.add_model _ _) with (Writer.mkWriter [M] P).
    rewrite Hwrite. reflexivity. }
  split.
  { unfold Reader.read_vox_file. rewrite Hread. reflexivity. }
  split; [exact HlenP |]. split.
  - intros k q Hk Hlt. specialize (Hset k q Hk ltac:(lia)).
    replace (Z.to_nat 0 + k + 1)%nat with (k + 1)%nat in Hset by lia.
    exact Hset.
  - intros j Hj. apply Hkeep. lia.
Qed.

End Preserved.

(** Exporting imported objects: when every object of the selection brings
    VOX data, the voxels kept on them are not empty, the box around them
    fits 32 bits, and the colours of the palette of the last object have
    channels in 0-255, [export] succeeds, whatever the coordinates and the
    colour indices are, and writes a file that [read_vox_file] reads without
    a warning as one model: the voxels of all the objects moved to the
    corner of the box and clamped to 0-255, the first of every position,
    each with its own colour index when that is in 1-255 and with 1
    otherwise.  The palette is the one of the last object: index [i] of
    1-255 has its colour [i - 1], and the default colour of the writer where
    that palette is too short. *)
Theorem export_preserved (int : str -> result Z) (BlenderObject : Type)
  (get_vox_metadata : BlenderObject -> Metadata)
  (_voxelize_object : BlenderObject -> list (Z * Z * Z * Color))
  (set_list : list Color -> list Color) (front : list BlenderObject)
  (obj : BlenderObject) (last_voxels palette0 vs : list (Z * Z * Z * Z)) :
  (forall o, In o front -> usable (get_vox_metadata o) <> None) ->
  usable (get_vox_metadata obj) = Some (last_voxels, palette0) ->
  vs = flat_map (stored get_vox_metadata) (front ++ [obj]) ->
  vs <> [] -> fits vs -> Forall RoundTrip.quad_bytes palette0 ->
  exists data colors,
    export BlenderObject get_vox_metadata _voxelize_object set_list true
           (front ++ [obj])
    = (Some data, inl tt)
    /\ Reader.read_vox_file int data
       = ([], OK (Reader.mkData (fst (fst (extent vs))) (snd (fst (extent vs)))
                    (snd (extent vs)) (map valid_index (kept vs)) colors))
    /\ NoDup (map place (kept vs))
    /\ forall index, 1 <= index <= 255 ->
         Reader.get_voxel_color
           (Reader.mkData (fst (fst (extent vs))) (snd (fst (extent vs)))
              (snd (extent vs)) (map valid_index (kept vs)) colors) index
         = match nth_error palette0 (Z.to_nat (index - 1)) with
           | Some color => OK color
           | None => getitem (Writer.colors Writer.new_palette) index
           end.
Proof.
  intros Hfront Hobj Hvs Hne Hfit Hbytes.
  destruct (export_preserved_run BlenderObject get_vox_metadata _voxelize_object
              set_list int front obj last_voxels palette0 vs
              Hfront Hobj Hvs Hne Hfit Hbytes)
    as (data & P & Hrun & Hread & HlenP & Hset & Hkeep).
  exists data, (RoundTrip.stored_palette P).
  split; [exact Hrun |]. split; [exact Hread |]. split; [apply kept_NoDup |].
  intros index Hi.
  unfold Reader.get_voxel_color. cbn [Reader.data_palette].
  replace ((1 <=? index) && (index <=? 255)) with true
    by (symmetry; apply andb_true_intro; split; apply Z.leb_le; lia).
  destruct (RoundTrip.stored_palette_index P index HlenP Hi)
    as (color & Hcolor & Hs).
  rewrite Hs. unfold getitem in *.
  destruct (nth_error palette0 (Z.to_nat (index - 1))) as [q |] eqn:E.
  - specialize (Hset _ q E ltac:(lia)).
    replace (Z.to_nat (index - 1) + 1)%nat with (Z.to_nat index) in Hset by lia.
    rewrite Hset in Hcolor. congruence.
  - apply nth_error_None in E.
    rewrite <- (Hkeep (Z.to_nat index)) by lia.
    rewrite Hcolor. reflexivity.
Qed.

Lemma export_preserved_witness :
  exists data colors,
    export unit
      (fun _ => mkMetadata (Some [(3, 4, 5, 7); (3, 4, 6, 300); (3, 4, 5, 9)])
                           (Some [(1, 2, 3, 255)]))
      (fun _ => []) first_seen true ([] ++ [tt])
    = (Some data, inl tt)
    /\ Reader.read_vox_file Reader.int_ascii data
       = ([], OK (Reader.mkData 1 1 2 [(0, 0, 0, 7); (0, 0, 1, 1)] colors)).
Proof.
  assert (H32 : 2 ^ 32 = 4294967296) by reflexivity.
  destruct (export_preserved Reader.int_ascii unit
              (fun _ => mkMetadata (Some [(3, 4, 5, 7); (3, 4, 6, 300); (3, 4, 5, 9)])
                                   (Some [(1, 2, 3, 255)]))
              (fun _ => []) first_seen [] tt
              [(3, 4, 5, 7); (3, 4, 6, 300); (3, 4, 5, 9)] [(1, 2, 3, 255)]
              [(3, 4, 5, 7); (3, 4, 6, 300); (3, 4, 5, 9)])
    as (data & colors & Hrun & Hread & _).
  - intros o [].
  - reflexivity.
  - reflexivity.
  - discriminate.
  - unfold fits, RoundTrip.u32. cbn. lia.
  - repeat constructor; unfold RoundTrip.byte_range; lia.
  - exists data, colors. split; [exact Hrun | exact Hread].
Defined.

(** *** A selection of both kinds of objects *)

Section Mixed.
Variable BlenderObject : Type.
Variable get_vox_metadata : BlenderObject -> Metadata.
Variable _voxelize_object : BlenderObject -> list (Z * Z * Z * Color).
Variable set_list : list Color -> list Color.

(** The loop only adds voxels. *)
Lemma collect_prefix (preserve : bool) (objects : list BlenderObject) :
  forall st, exists more,
    all_voxels
      (collect BlenderObject get_vox_metadata _voxelize_object preserve objects st)
    = all_voxels st ++ more.
Proof.
  induction objects as [| obj objects IH]; intros st.
  - exists []. cbn [collect]. rewrite app_nil_r. reflexivity.
  - cbn [collect].
    destruct (if preserve then usable (get_vox_metadata obj) else None)
      as [[voxels palette] |];
      match goal with
      | |- context [collect _ _ _ _ _ ?st1] =>
          destruct (IH st1) as (more & Hmore); rewrite Hmore
      end;
      cbn [all_voxels]; rewrite <- app_assoc; eexists; reflexivity.
Qed.

(** Once an object has brought VOX data, the original indices are used,
    with a palette that is not empty. *)
Definition uses_original (st : collected) : Prop :=
  use_original_indices st = true
  /\ exists c palette, original_palette st = Some (c :: palette).

Lemma collect_uses_original (objects : list BlenderObject) :
  forall st,
    uses_original st
    \/ Exists (fun o => usable (get_vox_metadata o) <> None) objects ->
    uses_original
      (collect BlenderObject get_vox_metadata _voxelize_object true objects st).
Proof.
  induction objects as [| obj objects IH]; intros st H.
  - destruct H as [H | H]; [exact H | inversion H].
  - cbn [collect].
    destruct (usable (get_vox_metadata obj)) as [[voxels palette] |] eqn:E.
    + apply IH. left. split; [reflexivity |].
      pose proof (usable_palette _ _ _ E) as Hp.
      destruct palette as [| c palette]; [congruence |].
      exists c, palette. reflexivity.
    + apply IH. destruct H as [H | H].
      * left. exact H.
      * inversion H as [o os Hhead | o os Htail]; subst o os;
          [congruence | right; exact Htail].
Qed.

Lemma write_voxels_type_error (st : collected) (x y z : Z) (color : Color)
  (more : list (Z * Z * Z * Payload)) :
  all_voxels st = (x, y, z, Rgb color) :: more ->
  uses_original st ->
  write_voxels set_list st = (None, inr TypeError).
Proof.
  intros Hall (Hflag & c & palette & Hpal).
  assert (H0 : 0 <= 0) by lia.
  destruct (set_original_ok (c :: palette) 0 Writer.new_palette H0
              (proj1 RoundTrip.default_palette_valid)) as (P & HP & _).
  unfold write_voxels. rewrite Hflag, Hpal, Hall.
  change (Writer.palette Writer.new_writer) with Writer.new_palette.
  rewrite HP. reflexivity.
Qed.

End Mixed.

(** A selection that starts with a mesh and holds an imported object: when
    the first object is voxelized into at least one voxel and a later object
    brings VOX data, [export] raises [TypeError] before it opens the file,
    in the comparison of 1 with the colour of the first voxel. *)
Theorem export_mixed_selection (BlenderObject : Type)
  (get_vox_metadata : BlenderObject -> Metadata)
  (_voxelize_object : BlenderObject -> list (Z * Z * Z * Color))
  (set_list : list Color -> list Color) (first : BlenderObject)
  (others : list BlenderObject) :
  usable (get_vox_metadata first) = None ->
  _voxelize_object first <> [] ->
  Exists (fun o => usable (get_vox_metadata o) <> None) others ->
  export BlenderObject get_vox_metadata _voxelize_object set_list true
         (first :: others)
  = (None, inr TypeError).
Proof.
  intros Hfirst Hmesh Hothers. unfold export. cbn [collect]. rewrite Hfirst.
  cbn [all_voxels original_palette use_original_indices app].
  destruct (_voxelize_object first) as [| [[[x y] z] color] mesh] eqn:E;
    [congruence |].
  set (st1 := mkCollected _ None false).
  destruct (collect_prefix BlenderObject get_vox_metadata _voxelize_object true
              others st1) as (more & Hmore).
  pose proof (collect_uses_original BlenderObject get_vox_metadata
                _voxelize_object others st1 (or_intror Hothers)) as Huses.
  set (st := collect _ _ _ true others st1) in *.
  unfold st1 in Hmore. cbn [all_voxels map app] in Hmore.
  rewrite Hmore.
  apply (write_voxels_type_error set_list st x y z color _ Hmore Huses).
Qed.

Lemma export_mixed_selection_witness :
  export bool
    (fun imported =>
       if imported
       then mkMetadata (Some [(0, 0, 0, 1)]) (Some [(1, 2, 3, 255)])
       else mkMetadata None None)
    (fun _ => [(0, 0, 0, (9, 9, 9))]) first_seen true [false; true]
  = (None, inr TypeError).
Proof.
  apply export_mixed_selection.
  - reflexivity.
  - discriminate.
  - apply Exists_cons_hd. discriminate.
Defined.

End ExportFacts.

(** ** From a file to Blender and back (vox_reader.py, vox_exporter.py) *)

Module ImportExport.
Import Reader ReaderFacts.

(** *** What the reader returns are bytes *)

Lemma unpack_BBBB_bytes (b : bytes) (v : Z * Z * Z * Z) :
  unpack_BBBB b = OK v -> RoundTrip.quad_bytes v.
Proof.
  destruct b as [| x [| y [| z [| w [| ? ?]]]]]; try discriminate.
  cbn [unpack_BBBB]. intros H. inversion H; subst v.
  pose proof (byte.unsigned_range x). pose proof (byte.unsigned_range y).
  pose proof (byte.unsigned_range z). pose proof (byte.unsigned_range w).
  unfold RoundTrip.quad_bytes, RoundTrip.byte_range. lia.
Qed.

Lemma voxel_loop_bytes (n : nat) :
  forall i content voxels0 voxels,
    voxel_loop n i content voxels0 = OK voxels ->
    Forall RoundTrip.quad_bytes voxels0 -> Forall RoundTrip.quad_bytes voxels.
Proof.
  induction n as [| n IH]; intros i content voxels0 voxels H H0.
  - cbn [voxel_loop] in H. inversion H; subst. exact H0.
  - cbn [voxel_loop] in H.
    destruct (unpack_BBBB _) as [v |] eqn:E; [| discriminate].
    cbn [bind] in H. apply (IH _ _ _ _ H).
    apply Forall_app. split; [exact H0 |].
    constructor; [exact (unpack_BBBB_bytes _ _ E) | constructor].
Qed.

Lemma palette_loop_bytes (n : nat) :
  forall i content palette0 palette,
    palette_loop n i content palette0 = OK palette ->
    Forall RoundTrip.quad_bytes palette0 -> Forall RoundTrip.quad_bytes palette.
Proof.
  induction n as [| n IH]; intros i content palette0 palette H H0.
  - cbn [palette_loop] in H. inversion H; subst. exact H0.
  - cbn [palette_loop] in H.
    destruct (unpack_BBBB _) as [v |] eqn:E; [| discriminate].
    cbn [bind] in H. apply (IH _ _ _ _ H).
    apply Forall_app. split; [exact H0 |].
    constructor; [exact (unpack_BBBB_bytes _ _ E) | constructor].
Qed.

Lemma default_palette_bytes : Forall RoundTrip.quad_bytes get_default_palette.
Proof. apply RoundTrip.quad_bytes_b_ok. vm_compute. reflexivity. Qed.

(** The models and the palette of the first pass hold bytes only. *)
Definition all_bytes (st : extract_state) : Prop :=
  Forall (fun m => Forall RoundTrip.quad_bytes (voxels m)) (st_models st)
  /\ Forall RoundTrip.quad_bytes (st_palette st).

Lemma extract_step_bytes (st st' : extract_state) (c : chunk) :
  extract_step st c = OK st' -> all_bytes st -> all_bytes st'.
Proof.
  intros Hstep (Hm & Hp).
  destruct (extract_step_cases st st' c Hstep)
    as [(_ & _ & dims & _ & ->)
       | [(_ & _ & _ & vs & Hvs & ->)
         | [(_ & _ & _ & p & Hpal & ->) | (_ & _ & _ & ->)]]].
  - split; assumption.
  - destruct (st_current_size st) as [[[sx sy] sz] |]; [| split; assumption].
    split; [| exact Hp]. cbn [st_models]. apply Forall_app. split; [exact Hm |].
    constructor; [| constructor]. cbn [voxels].
    unfold read_XYZI in Hvs.
    destruct (unpack_I _) as [n |]; [| discriminate]. cbn [bind] in Hvs.
    apply (voxel_loop_bytes _ _ _ _ _ Hvs). constructor.
  - split; [exact Hm |]. cbn [st_palette]. unfold read_RGBA in Hpal.
    apply (palette_loop_bytes _ _ _ _ _ Hpal). constructor.
  - split; assumption.
Qed.

Lemma extract_loop_bytes (chunks : list chunk) :
  forall st st', extract_loop st chunks = OK st' -> all_bytes st -> all_bytes st'.
Proof.
  induction chunks as [| c chunks IH]; intros st st' H Hb.
  - cbn [extract_loop] in H. inversion H; subst. exact Hb.
  - cbn [extract_loop] in H.
    destruct (extract_step st c) as [st1 |] eqn:E; [| discriminate].
    cbn [bind] in H. apply (IH _ _ H). apply (extract_step_bytes _ _ _ E Hb).
Qed.

Lemma read_vox_file_bytes (int : str -> result Z) (data : bytes) (out : list Z)
  (voxel_data : VoxelData) :
  read_vox_file int data = (out, OK voxel_data) ->
  Forall RoundTrip.quad_bytes (data_voxels voxel_data)
  /\ Forall RoundTrip.quad_bytes (data_palette voxel_data)
  /\ length (data_palette voxel_data) = 256%nat.
Proof.
  intros Hread. unfold read_vox_file in Hread.
  destruct (read_vox_scene int data) as [out' r] eqn:Hscene.
  inversion Hread as [[Hout Hr]]. subst out'.
  destruct r as [scene |]; [| discriminate].
  destruct (read_vox_scene_inv int data out scene Hscene)
    as (_ & chunks & _ & Hsc).
  pose proof (SceneFacts.scene_palette_length int chunks scene Hsc) as Hlen.
  destruct (scene_of_chunks_inv int chunks scene Hsc) as (st & Hloop & Hm & Hp).
  assert (Hb : all_bytes st).
  { apply (extract_loop_bytes chunks _ _ Hloop). split; [constructor |].
    exact default_palette_bytes. }
  destruct Hb as (Hbm & Hbp). rewrite <- Hm in Hbm. rewrite <- Hp in Hbp.
  cbn [bind] in Hr.
  destruct (models scene) as [| m ms]; inversion Hr; subst;
    cbn [data_voxels data_palette].
  - split; [constructor |].
    destruct (palette scene); [discriminate Hlen | auto].
  - inversion Hbm; subst. auto.
Qed.

(** *** Exporting what was imported *)

(** A voxel moved so that the corner becomes the origin. *)
Definition translate (corner : Z * Z * Z) (v : Z * Z * Z * Z) : Z * Z * Z * Z :=
  let '(mx, my, mz) := corner in
  let '(x, y, z, c) := v in
  (x - mx, y - my, z - mz, c).

Lemma coords_of_bytes (vs : list (Z * Z * Z * Z)) :
  Forall RoundTrip.quad_bytes vs ->
  (forall a, In a (ExportFacts.coord_x vs) -> 0 <= a <= 255)
  /\ (forall a, In a (ExportFacts.coord_y vs) -> 0 <= a <= 255)
  /\ (forall a, In a (ExportFacts.coord_z vs) -> 0 <= a <= 255).
Proof.
  intros Hb. rewrite Forall_forall in Hb.
  unfold ExportFacts.coord_x, ExportFacts.coord_y, ExportFacts.coord_z.
  split; [| split]; intros a Ha; apply in_map_iff in Ha;
    destruct Ha as ([[[x y] z] c] & <- & Hin); specialize (Hb _ Hin);
    unfold RoundTrip.quad_bytes, RoundTrip.byte_range in Hb; cbn [fst snd]; lia.
Qed.

(** The least and the greatest coordinate of voxels read from a file. *)
Lemma corner_of_bytes (l : list Z) :
  l <> [] -> (forall a, In a l -> 0 <= a <= 255) ->
  0 <= Exporter.minimum l <= 255 /\ 0 <= Exporter.maximum l <= 255
  /\ forall a, In a l -> Exporter.minimum l <= a <= Exporter.maximum l.
Proof.
  intros Hne Hb.
  destruct (ExportFacts.minimum_bounds l Hne) as (Hmin & Hle).
  destruct (SimpleFacts.maximum_bounds l Hne) as (Hmax & Hge).
  split; [apply Hb, Hmin |]. split; [apply Hb, Hmax |].
  intros a Ha. split; [apply Hle, Ha | apply Hge, Ha].
Qed.

Lemma kept_of_a_model (vs : list (Z * Z * Z * Z)) :
  vs <> [] -> Forall RoundTrip.quad_bytes vs ->
  NoDup (map (@ExportFacts.place Z) vs) ->
  Forall (fun v : Z * Z * Z * Z => snd v <> 0) vs ->
  map ExportFacts.valid_index (ExportFacts.kept vs)
  = map (translate (ExportFacts.corner vs)) vs.
Proof.
  intros Hne Hb Hnd Hidx.
  destruct (coords_of_bytes vs Hb) as (Hx & Hy & Hz).
  assert (Hnx : ExportFacts.coord_x vs <> [])
    by (destruct vs; [congruence | discriminate]).
  assert (Hny : ExportFacts.coord_y vs <> [])
    by (destruct vs; [congruence | discriminate]).
  assert (Hnz : ExportFacts.coord_z vs <> [])
    by (destruct vs; [congruence | discriminate]).
  destruct (corner_of_bytes _ Hnx Hx) as (Hmx & _ & Hbx).
  destruct (corner_of_bytes _ Hny Hy) as (Hmy & _ & Hby).
  destruct (corner_of_bytes _ Hnz Hz) as (Hmz & _ & Hbz).
  unfold ExportFacts.kept, ExportFacts.corner.
  set (mx := Exporter.minimum (ExportFacts.coord_x vs)) in *.
  set (my := Exporter.minimum (ExportFacts.coord_y vs)) in *.
  set (mz := Exporter.minimum (ExportFacts.coord_z vs)) in *.
  assert (Hnorm : VoxExporter.normalize mx my mz vs
                  = map (translate (mx, my, mz)) vs).
  { unfold VoxExporter.normalize. apply map_ext_in.
    intros [[[x y] z] c] Hin. unfold translate.
    assert (Hxin : In x (ExportFacts.coord_x vs)).
    { unfold ExportFacts.coord_x. apply in_map_iff. exists (x, y, z, c). auto. }
    assert (Hyin : In y (ExportFacts.coord_y vs)).
    { unfold ExportFacts.coord_y. apply in_map_iff. exists (x, y, z, c). auto. }
    assert (Hzin : In z (ExportFacts.coord_z vs)).
    { unfold ExportFacts.coord_z. apply in_map_iff. exists (x, y, z, c). auto. }
    pose proof (Hx _ Hxin). pose proof (Hy _ Hyin). pose proof (Hz _ Hzin).
    pose proof (Hbx _ Hxin). pose proof (Hby _ Hyin). pose proof (Hbz _ Hzin).
    rewrite !ExportFacts.clamp_id by lia. reflexivity. }
  rewrite Hnorm.
  rewrite ExportFacts.unique_NoDup_id.
  - rewrite map_map. apply map_ext_in. intros [[[x y] z] c] Hin.
    rewrite Forall_forall in Hb, Hidx.
    specialize (Hb _ Hin). specialize (Hidx _ Hin). cbn [snd] in Hidx.
    unfold RoundTrip.quad_bytes, RoundTrip.byte_range in Hb.
    unfold translate, ExportFacts.valid_index.
    replace ((1 <=? c) && (c <=? 255)) with true
      by (symmetry; apply andb_true_intro; split; apply Z.leb_le; lia).
    reflexivity.
  - rewrite map_map.
    replace (map (fun v => ExportFacts.place (translate (mx, my, mz) v)) vs)
      with (map (fun p : Z * Z * Z =>
                   let '(x, y, z) := p in (x - mx, y - my, z - mz))
                (map (@ExportFacts.place Z) vs)).
    + apply Injective_map_NoDup; [| exact Hnd].
      intros [[x1 y1] z1] [[x2 y2] z2] H. inversion H. f_equal; [f_equal |]; lia.
    + rewrite map_map. apply map_ext. intros [[[x y] z] c]. reflexivity.
  - intros v _ [].
Qed.

(** Import, then export: for every file that [read_vox_file] reads with at
    least one voxel, exporting an object that carries the voxels and the
    palette read succeeds, and the new file reads back without a warning as
    a model of the voxels read, moved to the corner of their box, the first
    of every position, colour index 0 replaced by 1; every colour index of
    1-255 has the colour it had in the file read.  When the file had one
    voxel per position and no colour index 0, the voxels are the ones of
    the file, moved by the corner and in the same order. *)
Theorem export_of_imported_file (int : str -> result Z) (BlenderObject : Type)
  (get_vox_metadata : BlenderObject -> VoxExporter.Metadata)
  (_voxelize_object : BlenderObject -> list (Z * Z * Z * Exporter.Color))
  (set_list : list Exporter.Color -> list Exporter.Color)
  (data0 : bytes) (out : list Z) (voxel_data : VoxelData) (obj : BlenderObject) :
  read_vox_file int data0 = (out, OK voxel_data) ->
  data_voxels voxel_data <> [] ->
  get_vox_metadata obj
  = VoxExporter.mkMetadata (Some (data_voxels voxel_data))
                           (Some (data_palette voxel_data)) ->
  exists data sx sy sz colors,
    VoxExporter.export BlenderObject get_vox_metadata _voxelize_object set_list
                       true [obj]
    = (Some data, inl tt)
    /\ read_vox_file int data
       = ([], OK (mkData sx sy sz
                    (map ExportFacts.valid_index
                         (ExportFacts.kept (data_voxels voxel_data)))
                    colors))
    /\ (sx, sy, sz) = ExportFacts.extent (data_voxels voxel_data)
    /\ (forall index, 1 <= index <= 255 ->
          get_voxel_color
            (mkData sx sy sz
               (map ExportFacts.valid_index
                    (ExportFacts.kept (data_voxels voxel_data)))
               colors) index
          = get_voxel_color voxel_data index)
    /\ (NoDup (map (@ExportFacts.place Z) (data_voxels voxel_data)) ->
        Forall (fun v : Z * Z * Z * Z => snd v <> 0) (data_voxels voxel_data) ->
        map ExportFacts.valid_index (ExportFacts.kept (data_voxels voxel_data))
        = map (translate (ExportFacts.corner (data_voxels voxel_data)))
              (data_voxels voxel_data)).
Proof.
  intros Hread Hne Hget.
  destruct (read_vox_file_bytes int data0 out voxel_data Hread)
    as (Hbv & Hbp & Hlen).
  set (vs := data_voxels voxel_data) in *.
  set (p := data_palette voxel_data) in *.
  assert (Husable : VoxExporter.usable (get_vox_metadata obj) = Some (vs, p)).
  { rewrite Hget. unfold VoxExporter.usable.
    cbn [VoxExporter.meta_voxels VoxExporter.meta_palette].
    destruct p; [discriminate Hlen | reflexivity]. }
  assert (Hvs : vs = flat_map (ExportFacts.stored get_vox_metadata) ([] ++ [obj])).
  { cbn [app flat_map]. unfold ExportFacts.stored. rewrite Husable.
    rewrite app_nil_r. reflexivity. }
  destruct (coords_of_bytes vs Hbv) as (Hx & Hy & Hz).
  assert (Hnx : ExportFacts.coord_x vs <> [])
    by (destruct vs; [congruence | discriminate]).
  assert (Hny : ExportFacts.coord_y vs <> [])
    by (destruct vs; [congruence | discriminate]).
  assert (Hnz : ExportFacts.coord_z vs <> [])
    by (destruct vs; [congruence | discriminate]).
  assert (Hfit : ExportFacts.fits vs).
  { destruct (corner_of_bytes _ Hnx Hx) as (? & ? & _).
    destruct (corner_of_bytes _ Hny Hy) as (? & ? & _).
    destruct (corner_of_bytes _ Hnz Hz) as (? & ? & _).
    pose proof (proj2 (SimpleFacts.maximum_bounds _ Hnx) _
                  (proj1 (ExportFacts.minimum_bounds _ Hnx))).
    pose proof (proj2 (SimpleFacts.maximum_bounds _ Hny) _
                  (proj1 (ExportFacts.minimum_bounds _ Hny))).
    pose proof (proj2 (SimpleFacts.maximum_bounds _ Hnz) _
                  (proj1 (ExportFacts.minimum_bounds _ Hnz))).
    assert (H32 : 2 ^ 32 = 4294967296) by reflexivity.
    unfold ExportFacts.fits, ExportFacts.extent, RoundTrip.u32. lia. }
  assert (Hfront : forall o, In o [] -> VoxExporter.usable (get_vox_metadata o) <> None)
    by (intros o []).
  destruct (ExportFacts.export_preserved_run BlenderObject get_vox_metadata
              _voxelize_object set_list int [] obj vs p vs
              Hfront Husable Hvs Hne Hfit Hbp)
    as (data & P & Hrun & Hback & HlenP & Hset & _).
  destruct (ExportFacts.extent vs) as [[sx sy] sz] eqn:Eext.
  cbn [fst snd] in Hback.
  exists data, sx, sy, sz, (RoundTrip.stored_palette P).
  split; [exact Hrun |]. split; [exact Hback |]. split; [reflexivity |].
  split.
  - intros index Hi. unfold get_voxel_color. cbn [data_palette]. fold p.
    replace ((1 <=? index) && (index <=? 255)) with true
      by (symmetry; apply andb_true_intro; split; apply Z.leb_le; lia).
    destruct (RoundTrip.stored_palette_index P index HlenP Hi)
      as (color & Hcolor & Hs).
    rewrite Hs. unfold getitem in *.
    destruct (nth_error p (Z.to_nat (index - 1))) as [q |] eqn:E.
    + specialize (Hset _ q E ltac:(lia)).
      replace (Z.to_nat (index - 1) + 1)%nat with (Z.to_nat index) in Hset by lia.
      rewrite Hset in Hcolor. congruence.
    + apply nth_error_None in E. lia.
  - intros Hnd Hidx. apply kept_of_a_model; assumption.
Qed.

Lemma export_of_imported_file_witness :
  exists data colors,
    VoxExporter.export unit
      (fun _ => VoxExporter.mkMetadata
                  (Some [(1, 1, 1, 1); (2, 2, 2, 5)])
                  (Some (RoundTrip.stored_palette Writer.new_palette)))
      (fun _ => []) Exporter.first_seen true [tt]
    = (Some data, inl tt)
    /\ read_vox_file int_ascii data
       = ([], OK (mkData 2 2 2 [(0, 0, 0, 1); (1, 1, 1, 5)] colors)).
Proof.
  destruct (export_of_imported_file int_ascii unit
              (fun _ => VoxExporter.mkMetadata
                          (Some [(1, 1, 1, 1); (2, 2, 2, 5)])
                          (Some (RoundTrip.stored_palette Writer.new_palette)))
              (fun _ => []) Exporter.first_seen
              (fst (Writer.write
                      (Writer.mkWriter
                         [Writer.mkModel 3 3 3 [(1, 1, 1, 1); (2, 2, 2, 5)]]
                         Writer.new_palette)))
              []
              (mkData 3 3 3 [(1, 1, 1, 1); (2, 2, 2, 5)]
                      (RoundTrip.stored_palette Writer.new_palette))
              tt)
    as (data & sx & sy & sz & colors & Hrun & Hback & Hsize & _).
  - vm_compute. reflexivity.
  - discriminate.
  - reflexivity.
  - inversion Hsize; subst sx sy sz.
    exists data, colors. split; [exact Hrun | exact Hback].
Defined.

End ImportExport.

(** ** When the writer fails (vox_writer.py) *)

Module WriteFailure.
Import Writer.

(** A computation that raises nothing but [struct.error]. *)
Definition only_struct {A : Type} (r : result A) : Prop :=
  forall e, r = Raise e -> e = StructError.

Lemma only_struct_OK {A : Type} (a : A) : only_struct (OK a).
Proof. intros e H. discriminate H. Qed.

Lemma only_struct_bind {A B : Type} (c : result A) (k : A -> result B) :
  only_struct c -> (forall a, c = OK a -> only_struct (k a)) ->
  only_struct (bind c k).
Proof.
  intros Hc Hk e H. destruct c as [a | e']; cbn [bind] in H.
  - exact (Hk a eq_refl e H).
  - inversion H; subst. apply Hc. reflexivity.
Qed.

Lemma pack_I_struct (v : Z) : only_struct (pack_I v).
Proof.
  unfold pack_I. intros e H.
  destruct ((0 <=? v) && (v <? 2 ^ 32)); congruence.
Qed.

Lemma pack_B_struct (v : Z) : only_struct (pack_B v).
Proof.
  unfold pack_B. intros e H.
  destruct ((0 <=? v) && (v <? 256)); congruence.
Qed.

Lemma pack_III_struct (a b c : Z) : only_struct (pack_III a b c).
Proof.
  unfold pack_III.
  repeat (apply only_struct_bind; [apply pack_I_struct | intros ? _]).
  apply only_struct_OK.
Qed.

Lemma pack_BBBB_struct (a b c d : Z) : only_struct (pack_BBBB a b c d).
Proof.
  unfold pack_BBBB.
  repeat (apply only_struct_bind; [apply pack_B_struct | intros ? _]).
  apply only_struct_OK.
Qed.

(** A chunk with an id of ASCII letters. *)
Lemma to_bytes_struct (self : VoxChunk) :
  is_ok (encode_ascii (chunk_id self)) = true -> only_struct (to_bytes self).
Proof.
  intros Hid. unfold to_bytes. apply only_struct_bind.
  - intros e H. rewrite H in Hid. discriminate Hid.
  - intros ? _.
    repeat (apply only_struct_bind; [apply pack_I_struct | intros ? _]).
    apply only_struct_OK.
Qed.

Lemma get_size_chunk_struct (self : VoxModel) :
  only_struct (s <- get_size_chunk self;; to_bytes s).
Proof.
  unfold get_size_chunk. apply only_struct_bind.
  - apply only_struct_bind; [apply pack_III_struct |].
    intros ? _. apply only_struct_OK.
  - intros s Hs. destruct (pack_III _ _ _); [| discriminate].
    cbn [bind] in Hs. inversion Hs; subst s. apply to_bytes_struct. reflexivity.
Qed.

Lemma xyzi_loop_struct (vs : list (Z * Z * Z * Z)) :
  forall content0, only_struct (xyzi_loop content0 vs).
Proof.
  induction vs as [| [[[x y] z] c] vs IH]; intros content0; cbn [xyzi_loop].
  - apply only_struct_OK.
  - apply only_struct_bind; [apply pack_BBBB_struct |]. intros ? _. apply IH.
Qed.

Lemma get_xyzi_chunk_struct (self : VoxModel) :
  only_struct (x <- get_xyzi_chunk self;; to_bytes x).
Proof.
  unfold get_xyzi_chunk. apply only_struct_bind.
  - apply only_struct_bind; [apply pack_I_struct |]. intros ? _.
    apply only_struct_bind; [apply xyzi_loop_struct |]. intros ? _.
    apply only_struct_OK.
  - intros s Hs. destruct (pack_I _); [| discriminate]. cbn [bind] in Hs.
    destruct (xyzi_loop _ _); [| discriminate]. cbn [bind] in Hs.
    inversion Hs; subst s. apply to_bytes_struct. reflexivity.
Qed.

Lemma models_loop_struct (ms : list VoxModel) :
  forall children_data, only_struct (models_loop children_data ms).
Proof.
  induction ms as [| model ms IH]; intros children_data; cbn [models_loop].
  - apply only_struct_OK.
  - intros e H.
    destruct (get_size_chunk model) as [s |] eqn:Es.
    + cbn [bind] in H. destruct (to_bytes s) as [sb |] eqn:Esb.
      * cbn [bind] in H. destruct (get_xyzi_chunk model) as [x |] eqn:Ex.
        { cbn [bind] in H. destruct (to_bytes x) as [xb |] eqn:Exb.
          - cbn [bind] in H. exact (IH _ e H).
          - cbn [bind] in H. inversion H; subst.
            apply (get_xyzi_chunk_struct model). rewrite Ex. cbn [bind].
            exact Exb. }
        { cbn [bind] in H. inversion H; subst.
          apply (get_xyzi_chunk_struct model). rewrite Ex. reflexivity. }
      * cbn [bind] in H. inversion H; subst.
        apply (get_size_chunk_struct model). rewrite Es. cbn [bind]. exact Esb.
    + cbn [bind] in H. inversion H; subst.
      apply (get_size_chunk_struct model). rewrite Es. reflexivity.
Qed.

Lemma rgba_loop_struct (self : VoxPalette) (positions : list Z) :
  forall content0,
    Forall (fun i => 0 <= i) positions ->
    only_struct (rgba_loop self content0 positions).
Proof.
  induction positions as [| i positions IH]; intros content0 Hpos;
    cbn [rgba_loop].
  - apply only_struct_OK.
  - inversion Hpos as [| ? ? Hi Hpos']; subst.
    apply only_struct_bind.
    + destruct (i + 1 <? len (colors self)) eqn:E; [| apply only_struct_OK].
      apply Z.ltb_lt in E. unfold getitem, len in *.
      destruct (nth_error (colors self) (Z.to_nat (i + 1))) eqn:En;
        [apply only_struct_OK |].
      apply nth_error_None in En. lia.
    + intros [[[r g] b] a] _.
      apply only_struct_bind; [apply pack_BBBB_struct |]. intros ? _.
      apply IH. exact Hpos'.
Qed.

Lemma range_nonneg (n : nat) : Forall (fun i => 0 <= i) (range n).
Proof.
  unfold range. apply Forall_forall. intros i Hi. apply in_map_iff in Hi.
  destruct Hi as (k & <- & _). lia.
Qed.

Lemma get_rgba_chunk_struct (self : VoxPalette) :
  only_struct (r <- get_rgba_chunk self;; to_bytes r).
Proof.
  unfold get_rgba_chunk. apply only_struct_bind.
  - apply only_struct_bind; [apply rgba_loop_struct, range_nonneg |].
    intros ? _. apply only_struct_OK.
  - intros s Hs. destruct (rgba_loop _ _ _); [| discriminate].
    cbn [bind] in Hs. inversion Hs; subst s. apply to_bytes_struct. reflexivity.
Qed.

Lemma main_chunk_bytes_struct (self : VoxWriter) :
  only_struct (main_chunk_bytes self).
Proof.
  unfold main_chunk_bytes. apply only_struct_bind.
  - destruct (1 <? len (models self)); [| apply only_struct_OK].
    apply only_struct_bind; [apply pack_I_struct |]. intros ? _.
    apply only_struct_bind; [apply to_bytes_struct; reflexivity |].
    intros ? _. apply only_struct_OK.
  - intros children_data _. apply only_struct_bind; [apply models_loop_struct |].
    intros children_data' _.
    intros e H.
    destruct (get_rgba_chunk (palette self)) as [r |] eqn:Er.
    + cbn [bind] in H. destruct (to_bytes r) as [rb |] eqn:Erb.
      * cbn [bind] in H. revert e H. apply to_bytes_struct. reflexivity.
      * cbn [bind] in H. inversion H; subst.
        apply (get_rgba_chunk_struct (palette self)). rewrite Er. cbn [bind].
        exact Erb.
    + cbn [bind] in H. inversion H; subst.
      apply (get_rgba_chunk_struct (palette self)). rewrite Er. reflexivity.
Qed.

(** A failing [write]: whatever the models and the palette are, the only
    exception [VoxWriter.write] raises is [struct.error], and the file then
    holds the eight bytes of the header and nothing else. *)
Theorem write_fails_with_header_only (self : VoxWriter) (file : bytes) (e : exn) :
  write self = (file, Raise e) ->
  e = StructError /\ file = magic ++ le_split 4 VOX_VERSION.
Proof.
  unfold write.
  rewrite (ReaderFacts.pack_I_ok VOX_VERSION)
    by (unfold VOX_VERSION; split; [lia | reflexivity]).
  destruct (main_chunk_bytes self) as [m |] eqn:E; intros H; inversion H; subst.
  split; [| reflexivity]. apply (main_chunk_bytes_struct self). exact E.
Qed.

Lemma write_fails_with_header_only_witness :
  fst (write (mkWriter [mkModel (-1) 1 1 []] new_palette))
  = magic ++ le_split 4 VOX_VERSION.
Proof.
  refine (proj2 (write_fails_with_header_only
                   (mkWriter [mkModel (-1) 1 1 []] new_palette)
                   (fst (write (mkWriter [mkModel (-1) 1 1 []] new_palette)))
                   StructError _)).
  vm_compute. reflexivity.
Defined.

(** *** A colour that is not made of bytes *)

Lemma pack_B_bytes (v : Z) (x : byte) : pack_B v = OK x -> 0 <= v <= 255.
Proof.
  unfold pack_B. destruct ((0 <=? v) && (v <? 256)) eqn:E; [| discriminate].
  intros _. apply andb_prop in E. destruct E as [E1 E2]. lia.
Qed.

Lemma pack_BBBB_bytes (a b c d : Z) (x : bytes) :
  pack_BBBB a b c d = OK x -> RoundTrip.quad_bytes (a, b, c, d).
Proof.
  unfold pack_BBBB. intros H.
  destruct (pack_B a) eqn:Ea; [| discriminate]. cbn [bind] in H.
  destruct (pack_B b) eqn:Eb; [| discriminate]. cbn [bind] in H.
  destruct (pack_B c) eqn:Ec; [| discriminate]. cbn [bind] in H.
  destruct (pack_B d) eqn:Ed; [| discriminate].
  apply pack_B_bytes in Ea, Eb, Ec, Ed.
  unfold RoundTrip.quad_bytes, RoundTrip.byte_range. auto.
Qed.

Lemma rgba_loop_bad (self : VoxPalette) (positions : list Z) :
  forall content0,
    Forall (fun i => 0 <= i) positions ->
    (exists i q, In i positions
                 /\ nth_error (colors self) (Z.to_nat (i + 1)) = Some q
                 /\ ~ RoundTrip.quad_bytes q) ->
    rgba_loop self content0 positions = Raise StructError.
Proof.
  intros content0 Hpos Hbad.
  destruct (rgba_loop self content0 positions) as [c | e] eqn:E.
  - exfalso. revert content0 c E Hpos Hbad.
    induction positions as [| i positions IH]; intros content0 c E Hpos Hbad.
    + destruct Hbad as (? & ? & [] & _).
    + inversion Hpos as [| ? ? Hi Hpos']; subst. cbn [rgba_loop] in E.
      destruct Hbad as (j & q & [<- | Hin] & Hq & Hnot).
      * assert (Hlt : i + 1 < len (colors self)).
        { assert (Hn : nth_error (colors self) (Z.to_nat (i + 1)) <> None)
            by congruence.
          apply nth_error_Some in Hn. unfold len. lia. }
        replace (i + 1 <? len (colors self)) with true in E
          by (symmetry; apply Z.ltb_lt; exact Hlt).
        unfold getitem in E. rewrite Hq in E. cbn [bind] in E.
        destruct q as [[[r g] b] a].
        destruct (pack_BBBB r g b a) eqn:Ep; [| discriminate].
        apply Hnot. exact (pack_BBBB_bytes _ _ _ _ _ Ep).
      * destruct (if i + 1 <? len (colors self)
                  then getitem (colors self) (i + 1)
                  else OK (0, 0, 0, 255)) as [[[[r g] b] a] |];
          [| discriminate].
        cbn [bind] in E.
        destruct (pack_BBBB r g b a); [| discriminate]. cbn [bind] in E.
        apply (IH _ _ E Hpos'). exists j, q. auto.
  - f_equal. apply (rgba_loop_struct self positions content0 Hpos). exact E.
Qed.

(** A palette with a colour, at an index of 1-255, that has a channel
    outside 0-255 cannot be written. *)
Lemma main_chunk_bytes_bad_palette (self : VoxWriter) (index : Z)
  (q : Z * Z * Z * Z) :
  1 <= index <= 255 ->
  getitem (colors (palette self)) index = OK q ->
  ~ RoundTrip.quad_bytes q ->
  main_chunk_bytes self = Raise StructError.
Proof.
  intros Hi Hq Hnot.
  assert (Hrgba : get_rgba_chunk (palette self) = Raise StructError).
  { unfold get_rgba_chunk.
    rewrite (rgba_loop_bad (palette self) (range 256) [] (range_nonneg 256));
      [reflexivity |].
    exists (index - 1), q. split; [| split]; [| | exact Hnot].
    - unfold range. apply in_map_iff. exists (Z.to_nat (index - 1)).
      split; [lia |]. apply in_seq. lia.
    - replace (index - 1 + 1) with index by lia. unfold getitem in Hq.
      destruct (nth_error (colors (palette self)) (Z.to_nat index));
        [congruence | discriminate]. }
  destruct (main_chunk_bytes self) as [m | e] eqn:E.
  - exfalso. unfold main_chunk_bytes in E.
    destruct (if 1 <? len (models self) then _ else _); [| discriminate].
    cbn [bind] in E.
    destruct (models_loop _ _); [| discriminate]. cbn [bind] in E.
    rewrite Hrgba in E. discriminate.
  - f_equal. apply (main_chunk_bytes_struct self). exact E.
Qed.

(** [create_simple_vox] with a colour that is not made of bytes: when the
    coordinates are in 0-255, the colours are at most 255, and one of them
    has a channel outside 0-255, the call opens the file, writes the header,
    and raises [struct.error]; the file is left with its eight bytes. *)
Theorem create_simple_vox_bad_color (voxels : list Simple.ColoredVoxel)
  (size : option (Z * Z * Z)) :
  Forall SimpleFacts.coords_in_range voxels ->
  (length (nodup Exporter.color_eq_dec (map SimpleFacts.color_of voxels))
   <= 255)%nat ->
  Exists (fun v => ~ SimpleFacts.color_in_range v) voxels ->
  Simple.create_simple_vox voxels size
  = (Some (magic ++ le_split 4 VOX_VERSION), Raise StructError).
Proof.
  intros Hc Hfew Hbad.
  assert (Hne : voxels <> []) by (intros ->; inversion Hbad).
  destruct (SimpleFacts.build_loop_ok voxels
              (SimpleFacts.start (SimpleFacts.box voxels size))
              (SimpleFacts.general_start _) Hc)
    as (st & Hloop & Hg & _ & _ & _ & _ & _ & _ & Hexact & Hall).
  set (U := nodup Exporter.color_eq_dec (map SimpleFacts.color_of voxels)) in *.
  assert (HU : Forall (fun v => In (SimpleFacts.color_of v) U) voxels).
  { apply Forall_forall. intros v Hv. apply nodup_In. apply in_map. exact Hv. }
  destruct (Hexact U Hfew HU (SimpleFacts.exact_start U _))
    as (_ & _ & _ & Hstored).
  apply Exists_exists in Hbad. destruct Hbad as ([[[x y] z] [[r g] b]] & Hin & Hnot).
  rewrite Forall_forall in Hall. specialize (Hall _ Hin).
  cbn [SimpleFacts.color_of snd] in Hall.
  pose proof (SimpleFacts.lookup_range st (r, g, b) Hg) as Hi.
  unfold SimpleFacts.lookup in Hi.
  destruct (dict_get Exporter.color_eqb (Simple.color_to_index st) (r, g, b))
    as [i |] eqn:E; [| congruence].
  destruct (Hstored r g b i E) as (_ & Hget).
  assert (Hmain : main_chunk_bytes (mkWriter [Simple.model st] (Simple.palette st))
                  = Raise StructError).
  { apply (main_chunk_bytes_bad_palette
             (mkWriter [Simple.model st] (Simple.palette st)) i (r, g, b, 255)
             Hi Hget).
    intros (Hr & Hgr & Hb & _). apply Hnot.
    unfold SimpleFacts.color_in_range. auto. }
  rewrite (SimpleFacts.create_simple_vox_run voxels size Hne), Hloop.
  unfold write.
  rewrite (ReaderFacts.pack_I_ok VOX_VERSION)
    by (unfold VOX_VERSION; split; [lia | reflexivity]).
  rewrite Hmain. reflexivity.
Qed.

Lemma create_simple_vox_bad_color_witness :
  Simple.create_simple_vox [(0, 0, 0, (256, 0, 0))] None
  = (Some (magic ++ le_split 4 VOX_VERSION), Raise StructError).
Proof.
  apply create_simple_vox_bad_color.
  - repeat constructor; unfold RoundTrip.byte_range; lia.
  - cbn. lia.
  - apply Exists_cons_hd. unfold SimpleFacts.color_in_range, RoundTrip.byte_range.
    lia.
Defined.

End WriteFailure.

(** ** Rotation codes that cannot be decoded (vox_importer.py) *)

Module RotationMore.
Import Importer.

(** The codes that name a column 3 in bits 0-1 or in bits 2-3, or column 0
    in both, so that the third row would get column 3. *)
Definition out_of_matrix (rotation_index : Z) : bool :=
  let idx1 := Z.land rotation_index 0x3 in
  let idx2 := Z.land (Z.shiftr rotation_index 2) 0x3 in
  (idx1 =? 3) || (idx2 =? 3) || ((idx1 =? 0) && (idx2 =? 0)).

Lemma rotation_matrix_outcome (rotation_index : Z) :
  match rotation_matrix rotation_index with
  | OK _ => out_of_matrix rotation_index = false
  | Raise e => e = IndexError /\ out_of_matrix rotation_index = true
  end.
Proof.
  unfold out_of_matrix, rotation_matrix.
  change 0x3 with 3. change 0x1 with 1.
  destruct (RotationFacts.land_3_cases rotation_index) as [E1 | [E1 | [E1 | E1]]];
    destruct (RotationFacts.land_3_cases (Z.shiftr rotation_index 2))
      as [E2 | [E2 | [E2 | E2]]];
    destruct (RotationFacts.land_1_cases (Z.shiftr rotation_index 4)) as [S1 | S1];
    destruct (RotationFacts.land_1_cases (Z.shiftr rotation_index 5)) as [S2 | S2];
    destruct (RotationFacts.land_1_cases (Z.shiftr rotation_index 6)) as [S3 | S3];
    rewrite E1, E2, S1, S2, S3; cbn; auto.
Qed.

(** [apply_vox_rotation] and the codes it cannot decode: for a code other
    than 0, the call raises [IndexError], and leaves the object as it was,
    exactly when bits 0-1 or bits 2-3 of the code are 3 or both are 0; for
    every other code it succeeds and sets the rotation of the object. *)
Theorem apply_vox_rotation_index_error (obj : Object_) (rotation_index : Z) :
  rotation_index <> 0 ->
  (out_of_matrix rotation_index = true ->
     apply_vox_rotation obj rotation_index = (obj, Raise IndexError))
  /\ (out_of_matrix rotation_index = false ->
       exists mat, rotation_matrix rotation_index = OK mat
                   /\ apply_vox_rotation obj rotation_index
                      = (mkObject mat, OK tt)).
Proof.
  intros Hnz. unfold apply_vox_rotation.
  replace (rotation_index =? 0) with false
    by (symmetry; apply Z.eqb_neq; exact Hnz).
  pose proof (rotation_matrix_outcome rotation_index) as H.
  destruct (rotation_matrix rotation_index) as [mat | e].
  - split; [congruence |]. intros _. exists mat. split; reflexivity.
  - destruct H as (-> & H). split; [reflexivity | congruence].
Qed.

Lemma apply_vox_rotation_index_error_witness :
  apply_vox_rotation (mkObject identity) 16
  = (mkObject identity, Raise IndexError).
Proof.
  assert (Hnz : 16 <> 0) by lia.
  exact (proj1 (apply_vox_rotation_index_error (mkObject identity) 16 Hnz)
               eq_refl).
Defined.

End RotationMore.

(** ** The colour of a face (vox_exporter.py) *)

Module FaceColorFacts.
Import Exporter FaceColor.

Lemma int_key_In {V : Type} (d : list (Z * V)) (k : Z) (v : V) :
  dict_get Z.eqb d k = Some v -> In (k, v) d.
Proof.
  induction d as [| [k' v'] d IH]; simpl; [discriminate |].
  destruct (k' =? k) eqn:E.
  - apply Z.eqb_eq in E. intros H. left. congruence.
  - intros H. right. auto.
Qed.

(** The colours of [color_data] have channels in 0-255. *)
Definition byte_data (color_data : ColorData) : Prop :=
  (forall d k colors, vertex_colors color_data = Some d -> In (k, colors) d ->
     Forall QuantizeMore.byte_color colors)
  /\ (forall k color, In (k, color) (material_colors color_data) ->
        QuantizeMore.byte_color color)
  /\ QuantizeMore.byte_color (default_color color_data).

(** The colour of a face: when the colours of [color_data] have channels in
    0-255, the face index is not negative and [tri_to_orig] maps to indices
    that are not negative, [_get_face_color] returns a colour, and its
    channels are in 0-255 (the mean of the corner colours of a face does
    not leave the range). *)
Theorem face_color_is_bytes (face_idx : Z) (color_data : ColorData) :
  byte_data color_data ->
  0 <= face_idx ->
  (forall d k orig, tri_to_orig color_data = Some d -> In (k, orig) d ->
     0 <= orig) ->
  exists color, _get_face_color face_idx color_data = OK color
                /\ QuantizeMore.byte_color color.
Proof.
  intros (Hvc & Hmc & Hdc) Hface Htri. unfold _get_face_color.
  set (orig := match tri_to_orig color_data with
               | Some d => match dict_get Z.eqb d face_idx with
                           | Some o => o
                           | None => face_idx
                           end
               | None => face_idx
               end).
  assert (Horig : 0 <= orig).
  { unfold orig. destruct (tri_to_orig color_data) as [d |] eqn:Ed; [| exact Hface].
    destruct (dict_get Z.eqb d face_idx) as [o |] eqn:Eo; [| exact Hface].
    apply (Htri d face_idx o eq_refl). apply int_key_In. exact Eo. }
  assert (Hmat : exists color,
            (if orig <? len (face_materials color_data)
             then mat_idx <- getitem_py (face_materials color_data) orig;;
                  match dict_get Z.eqb (material_colors color_data) mat_idx with
                  | Some color => OK color
                  | None => OK (default_color color_data)
                  end
             else OK (default_color color_data)) = OK color
            /\ QuantizeMore.byte_color color).
  { destruct (orig <? len (face_materials color_data)) eqn:E; [| eauto].
    apply Z.ltb_lt in E. unfold getitem_py.
    replace (orig <? 0) with false by (symmetry; apply Z.ltb_ge; exact Horig).
    replace ((0 <=? orig) && (orig <? len (face_materials color_data)))
      with true
      by (symmetry; apply andb_true_intro; split;
          [apply Z.leb_le | apply Z.ltb_lt]; lia).
    unfold getitem.
    destruct (nth_error (face_materials color_data) (Z.to_nat orig))
      as [mat_idx |] eqn:En.
    - cbn [bind].
      destruct (dict_get Z.eqb (material_colors color_data) mat_idx)
        as [color |] eqn:Ec; [| eauto].
      exists color. split; [reflexivity |].
      apply (Hmc mat_idx). apply int_key_In. exact Ec.
    - apply nth_error_None in En. unfold len in E. lia. }
  destruct (vertex_colors color_data) as [[| entry entries] |] eqn:Ev;
    try exact Hmat.
  destruct (dict_get Z.eqb (entry :: entries) orig) as [[| c cs] |] eqn:Ec;
    try exact Hmat.
  eexists. split; [reflexivity |].
  assert (Hcolors : Forall QuantizeMore.byte_color (c :: cs)).
  { apply (Hvc (entry :: entries) orig); [reflexivity |].
    apply int_key_In. exact Ec. }
  pose proof (QuantizeMore.average_bytes (c :: cs) Hcolors) as Havg.
  inversion Havg; subst. assumption.
Qed.

Lemma face_color_is_bytes_witness :
  exists color,
    _get_face_color 4
      (mkColorData (Some [(4, 1)])
                   (Some [(1, [(255, 0, 10); (0, 0, 11); (10, 1, 12)])])
                   [] [0; 0] (180, 180, 180))
    = OK color
    /\ QuantizeMore.byte_color color.
Proof.
  apply face_color_is_bytes.
  - split; [| split].
    + intros d k colors Hd Hin. inversion Hd; subst d.
      destruct Hin as [Hin | []]. inversion Hin; subst.
      repeat constructor;
        unfold QuantizeMore.byte_color, red, green, blue; cbn [fst snd]; lia.
    + intros k color [].
    + unfold QuantizeMore.byte_color, red, green, blue. cbn. lia.
  - lia.
  - intros d k orig Hd Hin. inversion Hd; subst d.
    destruct Hin as [Hin | []]. inversion Hin; subst. lia.
Defined.

End FaceColorFacts.
